(** * Seamless: the accessibility cluster graph engine

    A shallow embedding of the three scripts that make up the pipeline,

      - [network/network_gen.py]        points -> Delaunay edges -> igraph graph
      - [network/analysis.py]           graph -> communities -> cluster records
      - [network/clean_cluster_data.py] cluster records -> filtered, scored and
                                        normalised records

    and of [network/network.py], which does the work of the first two in one
    script, with the properties of the specification that concern them and
    further properties of the code.

    Conventions.
      - A Python [float] is read as a real number ([R]); arithmetic is exact.
        [nan] is represented only where the scripts test for it.
      - A Python exception is a value [Raise e] of the type [result]; a script
        that raises produces no output.
      - [dict]s are [gmap]s, [set]s are [gset]s, lists are lists.
      - Calls into geopy, igraph and scipy whose result is computed outside the
        repository are section variables; what is assumed of them is written
        as a hypothesis of the theorem that needs it. *)

From Stdlib Require Import Reals Lra Lia ZArith List Permutation.
From stdpp Require Import base option list gmap strings fin_maps fin_sets.

#[local] Open Scope string_scope.
#[local] Open Scope list_scope.

(* ===================================================================== *)
(** * Part I: definitions                                                 *)
(* ===================================================================== *)

(** ** Exceptions *)

Inductive exn : Set :=
| ValueError
| IndexError
| ZeroDivisionError
| QhullError.

Inductive result (A : Type) : Type :=
| Ok (a : A)
| Raise (e : exn).

Arguments Ok {A} a.
Arguments Raise {A} e.

#[global] Instance result_ret : MRet result := fun A a => Ok a.

#[global] Instance result_bind : MBind result := fun A B k m =>
  match m with
  | Ok a => k a
  | Raise e => Raise e
  end.

Definition is_ok {A : Type} (m : result A) : Prop :=
  match m with Ok _ => True | Raise _ => False end.

(** [for x in l: acc = step(acc, x)], where [step] may raise. *)
Fixpoint foldM {A S : Type} (step : S -> A -> result S) (l : list A) (acc : S)
  : result S :=
  match l with
  | [] => Ok acc
  | x :: l' => acc' ← step acc x; foldM step l' acc'
  end.

(** Comparisons of floats, as tests. *)
#[global] Instance Rlt_decision (x y : R) : Decision (x < y)%R := Rlt_dec x y.
#[global] Instance Req_decision : EqDecision R := Req_dec_T.

(** ** The Python built-ins the scripts use *)

Module Py.
#[local] Open Scope R_scope.

(** [x / y] on floats. *)
Definition truediv (x y : R) : result R :=
  if Req_dec_T y 0 then Raise ZeroDivisionError else Ok (x / y).

(** [sum(l)]: starts from 0 and adds from the left. *)
Definition sum (l : list R) : R := fold_left Rplus l 0.

Definition len {A : Type} (l : list A) : R := INR (length l).

(** [min(l)] and [max(l)]: [ValueError] on an empty sequence. *)
Definition min (l : list R) : result R :=
  match l with
  | [] => Raise ValueError
  | x :: l' => Ok (fold_left Rmin l' x)
  end.

Definition max (l : list R) : result R :=
  match l with
  | [] => Raise ValueError
  | x :: l' => Ok (fold_left Rmax l' x)
  end.

(** Nearest integer, ties to the even one. *)
Definition round_half_even (x : R) : Z :=
  let f := Int_part x in
  if Rlt_dec (x - IZR f) (1 / 2) then f
  else if Rlt_dec (1 / 2) (x - IZR f) then (f + 1)%Z
  else if Z.even f then f else (f + 1)%Z.

(** [round(x, ndigits)]. *)
Definition round (x : R) (ndigits : nat) : R :=
  IZR (round_half_even (x * 10 ^ ndigits)) / 10 ^ ndigits.

(** [math.sqrt(x)]: [ValueError] (math domain error) below 0. *)
Definition sqrt (x : R) : result R :=
  if Rlt_dec x 0 then Raise ValueError else Ok (R_sqrt.sqrt x).

(** [sum(d.values())] for a dict of counts. *)
Definition sum_values {K : Type} `{Countable K} (d : gmap K nat) : nat :=
  sum_list (map_to_list d).*2.

(** [l[i]] for [i >= 0]. *)
Definition getitem {A : Type} (l : list A) (i : nat) : result A :=
  match l !! i with
  | Some x => Ok x
  | None => Raise IndexError
  end.

(** [itertools.combinations(l, 2)]. *)
Fixpoint combinations2 {A : Type} (l : list A) : list (A * A) :=
  match l with
  | [] => []
  | x :: l' => map (pair x) l' ++ combinations2 l'
  end.
End Py.

(** ** The data shared by the scripts *)

(** A coordinate pair [(lat, lon)], in degrees. *)
Definition coord : Type := R * R.

(** The part of an [igraph.Graph] the scripts read and write: the vertex
    sequence [g.vs] with its three attributes, and the edge list in the order
    [add_edges] received it.  A vertex is its position in [vs]. *)
Module Igraph.
Record vertex : Type := Vertex {
  latitude : R;
  longitude : R;
  feature_type : string
}.

Record Graph : Type := mkGraph {
  vs : list vertex;
  es : list (nat * nat)
}.

Definition vcount (g : Graph) : nat := length (vs g).
End Igraph.

(** An entry of [cluster_data.json]: [analysis.py] builds it and
    [clean_cluster_data.py] reads it. *)
Record cluster_info : Type := ClusterInfo {
  cluster_id : nat;
  members : list nat;
  centroid : coord;
  radius_meters : R;
  feature_counts : gmap string nat;
  topology_metrics : gmap string R
}.

(** ** [network/network_gen.py] *)

Module NetworkGen.
Import Igraph.
#[local] Open Scope R_scope.

(** An element of an Overpass answer; only [lat] and [lon] are read. *)
Record element : Type := Element { lat : R; lon : R }.

(** [accessible_facilities_san_francisco.json]: feature name ->
    [{"elements": [...]}], in the order of the file. *)
Definition facilities : Type := list (string * list element).

(** The body of [for item in items["elements"]]: the two lists grow
    together. *)
Definition ingest_item (feature : string)
    (acc : list coord * list string) (item : element)
  : list coord * list string :=
  let '(coordinates, feature_types) := acc in
  (coordinates ++ [(lat item, lon item)], feature_types ++ [feature]).

(** The body of [for feature, items in data.items()]. *)
Definition ingest_feature
    (acc : list coord * list string) (entry : string * list element)
  : list coord * list string :=
  let '(feature, elements) := entry in
  if negb (length elements =? 0)%nat
  then fold_left (ingest_item feature) elements acc
  else acc.

Definition ingest (data : facilities) : list coord * list string :=
  fold_left ingest_feature data ([], []).

(** Every element of every entry, in the order of the file, with the key
    it was listed under. *)
Definition all_records (data : facilities) : list (coord * string) :=
  flat_map (fun '(feature, elements) =>
              map (fun item => ((lat item, lon item), feature)) elements)
           data.

(** A row of [tri.simplices]: the three point indices of a triangle. *)
Definition simplex : Type := nat * nat * nat.

(** Twice the signed area of the triangle [p q r]. *)
Definition cross (p q r : coord) : R :=
  (q.1 - p.1) * (r.2 - p.2) - (q.2 - p.2) * (r.1 - p.1).

(** No three of the points span a triangle. *)
Definition flat (points : list coord) : bool :=
  forallb (fun p =>
    forallb (fun q =>
      forallb (fun r => if Req_dec_T (cross p q r) 0 then true else false)
              points) points) points.

(** [for simplex in tri.simplices]: three [edges.add] per triangle.  The
    elements of the set are ordered pairs (tuples). *)
Definition add_simplex (edges : gset (nat * nat)) (s : simplex)
  : gset (nat * nat) :=
  let '(s0, s1, s2) := s in
  {[ (s2, s0) ]} ∪ ({[ (s1, s2) ]} ∪ ({[ (s0, s1) ]} ∪ edges)).

Definition extract_edges (simplices : list simplex) : gset (nat * nat) :=
  fold_left add_simplex simplices ∅.

(** The three ordered pairs added for a triangle. *)
Definition side_of (s : simplex) (e : nat * nat) : Prop :=
  let '(s0, s1, s2) := s in e = (s0, s1) \/ e = (s1, s2) \/ e = (s2, s0).

Section Script.
(** [Delaunay(coordinates)] and the [tri.simplices] read from it.  The call
    goes into scipy, which is not part of the repository: it is a
    parameter, and gives the triangles when it returns and the exception
    when it raises. *)
Variable triangulate : list coord -> result (list simplex).

(** From [tri = Delaunay(coordinates)] to [g.add_edges(list(edges))].
    Before that the script fills [dist_matrix] with the pairwise geopy
    distances and never reads it again; that loop has no part in the graph
    and is left out. *)
Definition build_with (coordinates : list coord) (feature_types : list string)
  : result Graph :=
  simplices ← triangulate coordinates;
  let edges := extract_edges simplices in
  Ok {| vs := zip_with (fun c f => Vertex c.1 c.2 f) coordinates feature_types;
        es := elements edges |}.

(** The whole script: the graph that is saved. *)
Definition main_with (data : facilities) : result Graph :=
  let '(coordinates, feature_types) := ingest data in
  build_with coordinates feature_types.
End Script.

Section Scipy.
(** The triangles Qhull computes for an input that has a triangulation. *)
Variable qhull : list coord -> list simplex.

(** A stand-in for [scipy.spatial.Delaunay], written after scipy's
    documentation and not after any code of the repository: an empty input
    is refused with [ValueError], an input without an initial simplex
    (fewer than three points, or all points on one line, which includes
    all points equal) with [QhullError]; otherwise [tri.simplices] is what
    Qhull computed.  It is used for the examples and for the properties of
    a graph that was saved; what the script does whatever the library does
    is stated over [main_with]. *)
Definition Delaunay (points : list coord) : result (list simplex) :=
  match points with
  | [] => Raise ValueError
  | _ => if (length points <? 3)%nat || flat points
         then Raise QhullError
         else Ok (qhull points)
  end.

(** The script run against the stand-in. *)
Definition build (coordinates : list coord) (feature_types : list string)
  : result Graph :=
  build_with Delaunay coordinates feature_types.

Definition main (data : facilities) : result Graph :=
  main_with Delaunay data.
End Scipy.

(** igraph's reading of an edge list. *)
Definition is_loop (e : nat * nat) : bool := (e.1 =? e.2)%nat.

Definition same_edge (e1 e2 : nat * nat) : bool :=
  ((e1.1 =? e2.1) && (e1.2 =? e2.2) || (e1.1 =? e2.2) && (e1.2 =? e2.1))%nat.

(** No edge is listed twice, in either direction. *)
Fixpoint no_multi (es : list (nat * nat)) : bool :=
  match es with
  | [] => true
  | e :: es' => negb (existsb (same_edge e) es') && no_multi es'
  end.

(** [g.is_simple()] *)
Definition is_simple (g : Graph) : bool :=
  forallb (fun e => negb (is_loop e)) (es g) && no_multi (es g).

Definition endpoints_valid (g : Graph) : bool :=
  forallb (fun e => (e.1 <? vcount g)%nat && (e.2 <? vcount g)%nat) (es g).
End NetworkGen.

(** ** [network/analysis.py] *)

Module Analysis.
Import Igraph.
#[local] Open Scope R_scope.

(** An igraph metric: a float that may be [nan] ([None]). *)
Definition metric : Type := option R.

(** [x if not np.isnan(x) else 0] *)
Definition nan_to_zero (x : metric) : R :=
  match x with
  | Some v => v
  | None => 0
  end.

(** [np.mean(l)]; of an empty list numpy makes [nan] and a warning, and the
    [max] that follows in the script raises. *)
Definition np_mean (l : list R) : R := Py.sum l / Py.len l.

(** [igraph.VertexClustering]: the membership vector, one community index
    per vertex. *)
Record VertexClustering : Type := mkClustering { membership : list nat }.

(** [len(clusters)]: one more than the largest index in use. *)
Definition n_clusters (clusters : VertexClustering) : nat :=
  match membership clusters with
  | [] => 0
  | _ => S (max_list (membership clusters))
  end.

(** [clusters[i]]: the vertices whose membership is [i], increasing. *)
Definition cluster_at (clusters : VertexClustering) (i : nat) : list nat :=
  filter (fun v => membership clusters !! v = Some i)
         (seq 0 (length (membership clusters))).

(** [enumerate(clusters)] *)
Definition enumerate_clusters (clusters : VertexClustering)
  : list (nat * list nat) :=
  map (fun i => (i, cluster_at clusters i)) (seq 0 (n_clusters clusters)).

(** The twelve categories. *)
Definition feature_types : list string :=
  [ "tactile_paving"; "disabled_parking"; "accessible_toilets"; "ramps";
    "elevators"; "accessible_stops"; "audio_traffic_signals";
    "emergency_phones"; "accessible_entrances"; "hearing_loops";
    "sign_language_services"; "accessible_hospitals" ].

Section Script.
(** [great_circle(coord1, coord2).kilometers], taken to return a number for
    every pair of coordinates. *)
Variable haversine_distance : coord -> coord -> R.
(** [g.community_multilevel()] *)
Variable community_multilevel : Graph -> VertexClustering.
(** [g.subgraph(ids)] and the four metrics igraph computes on it. *)
Variable subgraph : Graph -> list nat -> Graph.
Variable diameter : Graph -> metric.
Variable average_path_length : Graph -> metric.
Variable density : Graph -> metric.
Variable transitivity_undirected : Graph -> metric.
(** The graph read from [sanfrancisco_network.graphml]. *)
Variable g : Graph.

Definition coordinates : list coord :=
  map (fun v => (latitude v, longitude v)) (vs g).

(** [{feature: 0 for feature in feature_types}] *)
Definition initial_feature_counts : gmap string nat :=
  list_to_map (map (fun feature => (feature, 0%nat)) feature_types).

(** The body of [for idx in cluster_indices]: a type that is not a key
    is skipped. *)
Definition count_feature (feature_counts : gmap string nat) (idx : nat)
  : result (gmap string nat) :=
  v ← Py.getitem (vs g) idx;
  match feature_counts !! feature_type v with
  | Some n => Ok (<[feature_type v := (n + 1)%nat]> feature_counts)
  | None => Ok feature_counts
  end.

Definition count_features (cluster_indices : list nat)
  : result (gmap string nat) :=
  foldM count_feature cluster_indices initial_feature_counts.

(** Whether vertex [idx] carries one of the twelve categories. *)
Definition known_feature (idx : nat) : Prop :=
  exists v, vs g !! idx = Some v /\ feature_type v ∈ feature_types.

#[global] Instance known_feature_dec idx : Decision (known_feature idx).
Proof.
  unfold known_feature. destruct (vs g !! idx) as [v|].
  - destruct (decide (feature_type v ∈ feature_types)) as [H|H].
    + left. eauto.
    + right. intros (v' & [= <-] & H'). contradiction.
  - right. intros (v' & [=] & _).
Defined.

Definition calculate_cluster_metrics (cluster_indices : list nat)
  : result (coord * R * gmap string nat) :=
  cluster_coords ← mapM (Py.getitem coordinates) cluster_indices;
  let centroid_lat := np_mean (map fst cluster_coords) in
  let centroid_lon := np_mean (map snd cluster_coords) in
  let centroid := (centroid_lat, centroid_lon) in
  max_distance ← Py.max (map (haversine_distance centroid) cluster_coords);
  feature_counts ← count_features cluster_indices;
  Ok (centroid, max_distance, feature_counts).

(** The body of [for i, cluster in enumerate(clusters)]. *)
Definition cluster_info_of (ic : nat * list nat) : result cluster_info :=
  let '(i, cluster) := ic in
  '(centroid, radius, feature_counts) ← calculate_cluster_metrics cluster;
  let subgraph := subgraph g cluster in
  let cluster_diameter := nan_to_zero (diameter subgraph) in
  let avg_path_length := nan_to_zero (average_path_length subgraph) in
  let cluster_density := nan_to_zero (density subgraph) in
  let cluster_clustering_coefficient :=
    nan_to_zero (transitivity_undirected subgraph) in
  Ok {| cluster_id := i + 1;
        members := cluster;
        centroid := centroid;
        radius_meters := radius * 1000;
        feature_counts := feature_counts;
        topology_metrics :=
          <["clustering_coefficient" := cluster_clustering_coefficient]>
          (<["density" := cluster_density]>
          (<["average_path_length" := avg_path_length]>
          (<["diameter" := cluster_diameter]> ∅))) |}.

(** The list [cluster_data] after the loop. *)
Definition cluster_data : result (list cluster_info) :=
  mapM cluster_info_of (enumerate_clusters (community_multilevel g)).
End Script.
End Analysis.

(** ** [network/clean_cluster_data.py] *)

Module CleanClusterData.
Import Igraph.
#[local] Open Scope R_scope.

(** An entry of [cleaned_data.json]. *)
Record cluster : Type := Cluster {
  id : nat;
  center_coordinate_lat : R;
  center_coordinate_lon : R;
  radius : R;
  accessibility_score : R;
  core_values : gmap string R
}.

(** [cluster["accessibility_score"] = s] *)
Definition set_accessibility_score (c : cluster) (s : R) : cluster :=
  {| id := id c;
     center_coordinate_lat := center_coordinate_lat c;
     center_coordinate_lon := center_coordinate_lon c;
     radius := radius c;
     accessibility_score := s;
     core_values := core_values c |}.

Section Script.
(** [great_circle(coord1, coord2).kilometers], taken to return a number for
    every pair of coordinates. *)
Variable haversine_distance : coord -> coord -> R.
(** [g.subgraph(ids)], [g.degree()] and [g.transitivity_undirected()];
    the rounded transitivity is stored under a key that the second
    [update] of [core_values] overwrites. *)
Variable subgraph : Graph -> list nat -> Graph.
Variable degree : Graph -> list nat.
Variable transitivity_undirected : Graph -> R.
(** The graph read from [sanfrancisco_network.graphml]. *)
Variable g : Graph.

(** The body of [for coord1, coord2 in combinations(...)]. *)
Definition add_pair (acc : R * nat) (pair : coord * coord) : R * nat :=
  let '(total_distance, count) := acc in
  let '(coord1, coord2) := pair in
  (total_distance + haversine_distance coord1 coord2, S count).

Definition calculate_mean_pairwise_distance (member_coordinates : list coord)
  : result R :=
  if (length member_coordinates <? 2)%nat then Ok 0
  else
    let '(total_distance, count) :=
      fold_left add_pair (Py.combinations2 member_coordinates) (0, 0%nat) in
    Py.truediv total_distance (INR count).

Definition calculate_proximity_factor (member_coordinates : list coord)
  : result R :=
  mean_distance ← calculate_mean_pairwise_distance member_coordinates;
  Py.truediv 1 (1 + mean_distance).

Definition calculate_diversity_index (feature_counts : gmap string nat)
  : result R :=
  let total_features := Py.sum_values feature_counts in
  if (0 <? total_features)%nat
  then Py.truediv
         (Py.len (filter (fun kv => (0 < kv.2)%nat)
                         (map_to_list feature_counts)))
         (INR total_features)
  else Ok 0.

Definition calculate_average_degree (g : Graph) : result R :=
  if (0 <? vcount g)%nat
  then Py.truediv (INR (sum_list (degree g))) (INR (vcount g))
  else Ok 0.

Definition calculate_clustering_coefficient (g : Graph) : R :=
  transitivity_undirected g.

Definition calculate_radius (centroid : coord) (member_coordinates : list coord)
  : result R :=
  match member_coordinates with
  | [] => Ok 0
  | _ => Py.max (map (haversine_distance centroid) member_coordinates)
  end.

(** [for member_id in member_ids]: the coordinates of the members, read
    from the vertex attributes. *)
Definition read_member_coordinates (member_ids : list nat)
  : result (list coord) :=
  mapM (fun member_id =>
          v ← Py.getitem (vs g) member_id;
          Ok (latitude v, longitude v)) member_ids.

(** The body of the first loop for one entry that passed the radius
    test. *)
Definition clean_cluster (d : cluster_info) : result cluster :=
  let lat := Py.round (centroid d).1 6 in
  let lon := Py.round (centroid d).2 6 in
  let member_ids := members d in
  member_coordinates ← read_member_coordinates member_ids;
  proximity_factor ← calculate_proximity_factor member_coordinates;
  diversity_index ← calculate_diversity_index (feature_counts d);
  let accessibility_score := proximity_factor + diversity_index in
  let g_subgraph := subgraph g member_ids in
  average_degree ← calculate_average_degree g_subgraph;
  radius' ← calculate_radius (lat, lon) member_coordinates;
  let core1 : gmap string R :=
    <["radius" := Py.round radius' 2]>
    (<["clustering_coefficient" :=
         Py.round (calculate_clustering_coefficient g_subgraph) 4]>
    (<["average_degree" := Py.round average_degree 2]> ∅)) in
  let tm := topology_metrics d in
  let core2 : gmap string R :=
    <["clustering_coefficient" :=
        Py.round (default 0 (tm !! "clustering_coefficient")) 4]>
    (<["density" := Py.round (default 0 (tm !! "density")) 4]>
    (<["average_path_length" :=
         Py.round (default 0 (tm !! "average_path_length")) 2]>
    (<["diameter" := Py.round (default 0 (tm !! "diameter")) 2]> core1))) in
  Ok {| id := cluster_id d;
        center_coordinate_lat := lat;
        center_coordinate_lon := lon;
        radius := Py.round (radius_meters d) 2;
        accessibility_score := Py.round accessibility_score 4;
        core_values := core2 |}.

(** The body of the first loop: an entry is cleaned and appended when
    its radius is greater than 10, and left out otherwise. *)
Definition first_pass_step (cleaned_data : list cluster) (d : cluster_info)
  : result (list cluster) :=
  if decide (10 < radius_meters d)
  then c ← clean_cluster d; Ok (cleaned_data ++ [c])
  else Ok cleaned_data.

(** First pass: [for i in range(len(data))]. *)
Definition first_pass (data : list cluster_info) : result (list cluster) :=
  foldM first_pass_step data [].
End Script.

(** Mean and standard deviation of the stored scores. *)
Definition mean_of (accessibility_scores : list R) : result R :=
  match accessibility_scores with
  | [] => Ok 0
  | _ => Py.truediv (Py.sum accessibility_scores) (Py.len accessibility_scores)
  end.

Definition std_dev_of (accessibility_scores : list R) (mean_score : R)
  : result R :=
  if (1 <? length accessibility_scores)%nat
  then v ← Py.truediv
             (Py.sum (map (fun x => (x - mean_score) ^ 2) accessibility_scores))
             (Py.len accessibility_scores);
       Py.sqrt v
  else Ok 0.

(** [for original_score in accessibility_scores] *)
Definition z_scores_of (accessibility_scores : list R) : result (list R) :=
  mean_score ← mean_of accessibility_scores;
  std_dev ← std_dev_of accessibility_scores mean_score;
  mapM (fun original_score =>
          if Rlt_dec 0 std_dev
          then Py.truediv (original_score - mean_score) std_dev
          else Ok 0)
       accessibility_scores.

(** [for cluster, z_score in zip(cleaned_data, z_scores)] *)
Definition rescale (min_z_score max_z_score : R) (cz : cluster * R)
  : result cluster :=
  let '(cluster, z_score) := cz in
  normalized_score ←
    (if Rlt_dec min_z_score max_z_score
     then q ← Py.truediv (z_score - min_z_score) (max_z_score - min_z_score);
          Ok (2 * q - 1)
     else Ok 0);
  Ok (set_accessibility_score cluster (Py.round normalized_score 4)).

(** The normalization pass, from [accessibility_scores = ...] to the end
    of the second loop; the result is the list that is dumped. *)
Definition normalize (cleaned_data : list cluster) : result (list cluster) :=
  let accessibility_scores := map accessibility_score cleaned_data in
  z_scores ← z_scores_of accessibility_scores;
  min_z_score ← Py.min z_scores;
  max_z_score ← Py.max z_scores;
  mapM (rescale min_z_score max_z_score) (zip cleaned_data z_scores).

(** The values the two loops compute when no division fails; the lemmas
    on [z_scores_of] and [rescale] show that none does. *)
Definition z_of (mean_score std_dev original_score : R) : R :=
  if Rlt_dec 0 std_dev then (original_score - mean_score) / std_dev else 0.

Definition normalized_of (min_z max_z z : R) : R :=
  if Rlt_dec min_z max_z then 2 * ((z - min_z) / (max_z - min_z)) - 1 else 0.

(** The whole script: what is written to [cleaned_data.json]. *)
Definition main haversine_distance subgraph degree transitivity_undirected g
    (data : list cluster_info) : result (list cluster) :=
  cleaned_data ←
    first_pass haversine_distance subgraph degree transitivity_undirected g data;
  normalize cleaned_data.
End CleanClusterData.

(** ** [network/network.py] *)

(** The pipeline in one script: the ingestion loop, the triangulation and
    the edge set are those of [network_gen.py], word for word; the cluster
    loop is that of [analysis.py] without the feature counts and without
    the replacement of [nan]. *)
Module Network.
Import Igraph.
#[local] Open Scope R_scope.

(** A two-dimensional numpy array, row by row. *)
Definition matrix : Type := list (list R).

(** [np.zeros((n, m))] *)
Definition zeros (n m : nat) : matrix := replicate n (replicate m 0).

(** [a[i, j]], where it exists. *)
Definition entry (a : list (list R)) (i j : nat) : option R :=
  row ← a !! i; row !! j.

(** [a[i, j] = x]; an index outside the array raises. *)
Definition setitem (a : list (list R)) (i j : nat) (x : R) : result matrix :=
  match a !! i with
  | Some row =>
      if decide (j < length row)%nat
      then Ok (<[i := <[j := x]> row]> a)
      else Raise IndexError
  | None => Raise IndexError
  end.

(** An [n] by [n] array. *)
Definition square (n : nat) (a : list (list R)) : Prop :=
  length a = n /\ forall i row, a !! i = Some row -> length row = n.

(** An entry of the [cluster_data.json] this script writes: no feature
    counts, and the metrics as igraph returned them. *)
Record cluster_info : Type := ClusterInfo {
  cluster_id : nat;
  members : list nat;
  centroid : coord;
  radius_meters : R;
  topology_metrics : gmap string Analysis.metric
}.

Section Script.
Variable haversine_distance : coord -> coord -> R.
(** The graph carries the feature types only and is handed to igraph; the
    script reads nothing back from it but the communities and the metrics
    of the subgraphs. *)
Variable Graph : Type.
Variable community_multilevel : Graph -> Analysis.VertexClustering.
Variable subgraph : Graph -> list nat -> Graph.
Variable diameter : Graph -> Analysis.metric.
Variable average_path_length : Graph -> Analysis.metric.
Variable density : Graph -> Analysis.metric.
Variable transitivity_undirected : Graph -> Analysis.metric.

Variable coordinates : list coord.

(** The body of [for j in range(i + 1, num_points)]. *)
Definition dist_step (i : nat) (dist_matrix : matrix) (j : nat)
  : result matrix :=
  ci ← Py.getitem coordinates i;
  cj ← Py.getitem coordinates j;
  let dist := haversine_distance ci cj in
  dist_matrix ← setitem dist_matrix i j dist;
  setitem dist_matrix j i dist.

(** The body of [for i in range(num_points)]. *)
Definition dist_row (num_points : nat) (dist_matrix : matrix) (i : nat)
  : result matrix :=
  foldM (dist_step i) (seq (i + 1) (num_points - (i + 1))) dist_matrix.

(** [dist_matrix] after the two loops. *)
Definition dist_matrix : result matrix :=
  let num_points := length coordinates in
  foldM (dist_row num_points) (seq 0 num_points) (zeros num_points num_points).

(** The pairs the loops have gone through when the outer loop is at [i]
    and the inner loop has done the columns below [j]. *)
Definition visited (i j p q : nat) : Prop :=
  (p < q)%nat /\ ((p < i)%nat \/ p = i /\ (q < j)%nat).

(** The array at that moment. *)
Definition filled (i j : nat) (a : list (list R)) : Prop :=
  square (length coordinates) a /\
  (forall p q cp cq,
     coordinates !! p = Some cp -> coordinates !! q = Some cq ->
     visited i j p q ->
     entry a p q = Some (haversine_distance cp cq) /\
     entry a q p = Some (haversine_distance cp cq)) /\
  (forall p q,
     (p < length coordinates)%nat -> (q < length coordinates)%nat ->
     ~ visited i j p q -> ~ visited i j q p -> entry a p q = Some 0).

Definition calculate_cluster_metrics (cluster_indices : list nat)
  : result (coord * R) :=
  cluster_coords ← mapM (Py.getitem coordinates) cluster_indices;
  let centroid_lat := Analysis.np_mean (map fst cluster_coords) in
  let centroid_lon := Analysis.np_mean (map snd cluster_coords) in
  let centroid := (centroid_lat, centroid_lon) in
  max_distance ← Py.max (map (haversine_distance centroid) cluster_coords);
  Ok (centroid, max_distance).

Variable g : Graph.

(** The body of [for i, cluster in enumerate(clusters)]. *)
Definition cluster_info_of (ic : nat * list nat) : result cluster_info :=
  let '(i, cluster) := ic in
  '(centroid, radius) ← calculate_cluster_metrics cluster;
  let subgraph := subgraph g cluster in
  let cluster_diameter := diameter subgraph in
  let avg_path_length := average_path_length subgraph in
  let cluster_density := density subgraph in
  let cluster_clustering_coefficient := transitivity_undirected subgraph in
  Ok {| cluster_id := i + 1;
        members := cluster;
        centroid := centroid;
        radius_meters := radius * 1000;
        topology_metrics :=
          <["clustering_coefficient" := cluster_clustering_coefficient]>
          (<["density" := cluster_density]>
          (<["average_path_length" := avg_path_length]>
          (<["diameter" := cluster_diameter]> ∅))) |}.

(** The list [cluster_data] after the loop. *)
Definition cluster_data : result (list cluster_info) :=
  mapM cluster_info_of
       (Analysis.enumerate_clusters (community_multilevel g)).
End Script.

Arguments cluster_info_of _ {Graph}.
Arguments cluster_data _ {Graph}.

Section Main.
Variable haversine_distance : coord -> coord -> R.
Variable qhull : list coord -> list NetworkGen.simplex.
(** [MDS(...).fit_transform(dist_matrix)]: the layout of the plot. *)
Variable mds_fit_transform : matrix -> result (list coord).
Variable Graph : Type.
(** [ig.Graph()], [add_vertices(num_points)], the feature types as vertex
    attribute and [add_edges(list(edges))]. *)
Variable make_graph : nat -> list string -> list (nat * nat) -> Graph.
Variable community_multilevel : Graph -> Analysis.VertexClustering.
Variable subgraph : Graph -> list nat -> Graph.
Variable diameter : Graph -> Analysis.metric.
Variable average_path_length : Graph -> Analysis.metric.
Variable density : Graph -> Analysis.metric.
Variable transitivity_undirected : Graph -> Analysis.metric.

(** The whole script: the list that is written to [cluster_data.json]. *)
Definition main (data : NetworkGen.facilities) : result (list cluster_info) :=
  let '(coordinates, feature_types) := NetworkGen.ingest data in
  let num_points := length coordinates in
  dist_matrix ← dist_matrix haversine_distance coordinates;
  simplices ← NetworkGen.Delaunay qhull coordinates;
  let edges := NetworkGen.extract_edges simplices in
  let g := make_graph num_points feature_types (elements edges) in
  layout_2d ← mds_fit_transform dist_matrix;
  cluster_data haversine_distance community_multilevel subgraph diameter
               average_path_length density transitivity_undirected
               coordinates g.
End Main.

Arguments main _ _ _ {Graph}.
End Network.

(** ** Concrete inputs used in the examples *)

Module Examples.
Import Igraph.
#[local] Open Scope R_scope.

(** A distance that is never negative. *)
Definition taxicab (a b : coord) : R := Rabs (a.1 - b.1) + Rabs (a.2 - b.2).

(** A graph whose only vertex carries a type outside the twelve. *)
Definition g_bench : Graph := {| vs := [Vertex 0 0 "bench"]; es := [] |}.

(** Three ramps, two of them joined by an edge, and a detector that puts
    the first two vertices in community 0 and the third in community 1. *)
Definition g_three : Graph :=
  {| vs := [Vertex 0 0 "ramps"; Vertex 0 1 "ramps"; Vertex 5 5 "ramps"];
     es := [(0, 1)%nat] |}.

Definition two_communities (g : Graph) : Analysis.VertexClustering :=
  Analysis.mkClustering [0; 0; 1]%nat.

(** Four points, the last with a key outside the twelve, and their
    Delaunay triangulation: two counter-clockwise triangles that share
    the side between the points 1 and 2. *)
Definition data_quad : NetworkGen.facilities :=
  [ ("ramps", [NetworkGen.Element 0 0; NetworkGen.Element 1 0;
               NetworkGen.Element 0 1]);
    ("bench", [NetworkGen.Element 2 2]) ].

Definition qhull_quad (points : list coord) : list NetworkGen.simplex :=
  [(0, 1, 2); (2, 1, 3)]%nat.

(** Two points only. *)
Definition data_pair : NetworkGen.facilities :=
  [ ("ramps", [NetworkGen.Element 0 0; NetworkGen.Element 0 1]) ].

(** Stand-ins for igraph: the subgraph is not cut out, every metric is
    [nan], no degree is reported and the transitivity is 0. *)
Definition whole_graph (g : Graph) (ids : list nat) : Graph := g.
Definition no_metric (g : Graph) : Analysis.metric := None.
Definition no_degree (g : Graph) : list nat := [].
Definition zero_transitivity (g : Graph) : R := 0.

(** Two cleaned records with different stored scores. *)
Definition cleaned_pair : list CleanClusterData.cluster :=
  [ CleanClusterData.Cluster 1 0 0 50 1 ∅;
    CleanClusterData.Cluster 2 5 5 60 2 ∅ ].

(** An entry with a radius of five meters, and one of fifty. *)
Definition small_entry : cluster_info :=
  {| cluster_id := 1; members := [0; 1]%nat; centroid := (0, 1 / 2);
     radius_meters := 5; feature_counts := {[ "ramps" := 2%nat ]};
     topology_metrics := ∅ |}.

Definition large_entry : cluster_info :=
  {| cluster_id := 2; members := [2]%nat; centroid := (5, 5);
     radius_meters := 50; feature_counts := {[ "ramps" := 1%nat ]};
     topology_metrics := ∅ |}.
End Examples.

(** ** More concrete inputs *)

Module MoreExamples.
#[local] Open Scope R_scope.

(** Three ramps that span a triangle, and their triangulation. *)
Definition data_triangle : NetworkGen.facilities :=
  [ ("ramps", [NetworkGen.Element 0 0; NetworkGen.Element 1 0;
               NetworkGen.Element 0 1]) ].

Definition qhull_triangle (points : list coord) : list NetworkGen.simplex :=
  [(0, 1, 2)]%nat.
End MoreExamples.

(* ===================================================================== *)
(** * Part II: properties                                                 *)
(* ===================================================================== *)

(** ** The [result] monad *)

Lemma bind_ok {A B : Type} (m : result A) (h : A -> result B) (b : B) :
  m ≫= h = Ok b -> exists a, m = Ok a /\ h a = Ok b.
Proof. destruct m as [a|e]; simpl; [eauto | discriminate]. Qed.

Lemma bind_intro {A B : Type} (m : result A) (h : A -> result B) (a : A) (b : B) :
  m = Ok a -> h a = Ok b -> m ≫= h = Ok b.
Proof. intros -> H. exact H. Qed.

Section ResultFacts.
Context {A B : Type}.
Implicit Types (f : A -> result B) (l : list A) (k : list B).

Lemma mapM_ok_Forall2 f l k :
  mapM f l = Ok k -> Forall2 (fun x y => f x = Ok y) l k.
Proof.
  revert k. induction l as [|x l IH]; intros k H; simpl in H.
  - injection H as <-. constructor.
  - apply bind_ok in H as (y & Hy & H).
    destruct (mapM f l) as [ys|e] eqn:E; simpl in H; [|discriminate].
    injection H as <-. constructor; auto.
Qed.

Lemma mapM_total f l :
  (forall x, x ∈ l -> is_ok (f x)) -> exists k, mapM f l = Ok k.
Proof.
  induction l as [|x l IH]; intros H; simpl.
  - eexists; reflexivity.
  - destruct IH as [ys Hys].
    { intros y Hy. apply H. now right. }
    specialize (H x ltac:(left)).
    destruct (f x) as [y|e] eqn:E; [|contradiction].
    exists (y :: ys). cbn. now rewrite Hys.
Qed.

Lemma mapM_raise f l k :
  mapM f l = Ok k -> forall x, x ∈ l -> is_ok (f x).
Proof.
  intros H%mapM_ok_Forall2. induction H as [|x y l k Hxy _ IH].
  - intros x Hx. inversion Hx.
  - intros x' [->|Hx']%elem_of_cons; [now rewrite Hxy | auto].
Qed.
End ResultFacts.

(** ** The built-ins *)

Section PyFacts.
#[local] Open Scope R_scope.

Lemma truediv_ok (x y : R) : y <> 0 -> Py.truediv x y = Ok (x / y).
Proof. intros H. unfold Py.truediv. now destruct (Req_dec_T y 0). Qed.

Lemma len_neq_0 {A : Type} (l : list A) : l <> [] -> Py.len l <> 0.
Proof.
  intros H. unfold Py.len. apply not_0_INR.
  destruct l; [contradiction | discriminate].
Qed.

Lemma fold_Rplus_ge (l : list R) (a : R) :
  (forall x, x ∈ l -> 0 <= x) -> a <= fold_left Rplus l a.
Proof.
  revert a. induction l as [|x l IH]; intros a H; simpl; [lra|].
  assert (0 <= x) by (apply H; left).
  etransitivity; [|apply IH; intros; apply H; now right]. lra.
Qed.

Lemma sum_nonneg (l : list R) : (forall x, x ∈ l -> 0 <= x) -> 0 <= Py.sum l.
Proof. apply fold_Rplus_ge. Qed.

Lemma fold_Rmin_spec (l : list R) (a : R) :
  (fold_left Rmin l a = a \/ fold_left Rmin l a ∈ l) /\
  fold_left Rmin l a <= a /\ forall x, x ∈ l -> fold_left Rmin l a <= x.
Proof.
  revert a. induction l as [|x l IH]; intros a; simpl.
  - split; [now left|]. split; [lra|]. intros x Hx. inversion Hx.
  - destruct (IH (Rmin a x)) as (Hin & Hle & Hall).
    pose proof (Rmin_l a x). pose proof (Rmin_r a x).
    split; [|split].
    + destruct Hin as [Hin|Hin]; [|right; now right].
      unfold Rmin in Hin |- *. destruct (Rle_dec a x); [now left|].
      right. rewrite Hin. left.
    + lra.
    + intros y [->|Hy]%elem_of_cons; [lra | auto].
Qed.

Lemma fold_Rmax_spec (l : list R) (a : R) :
  (fold_left Rmax l a = a \/ fold_left Rmax l a ∈ l) /\
  a <= fold_left Rmax l a /\ forall x, x ∈ l -> x <= fold_left Rmax l a.
Proof.
  revert a. induction l as [|x l IH]; intros a; simpl.
  - split; [now left|]. split; [lra|]. intros x Hx. inversion Hx.
  - destruct (IH (Rmax a x)) as (Hin & Hle & Hall).
    pose proof (Rmax_l a x). pose proof (Rmax_r a x).
    split; [|split].
    + destruct Hin as [Hin|Hin]; [|right; now right].
      unfold Rmax in Hin |- *. destruct (Rle_dec a x); [|now left].
      right. rewrite Hin. left.
    + lra.
    + intros y [->|Hy]%elem_of_cons; [lra | auto].
Qed.

Lemma min_ok (l : list R) :
  l <> [] -> exists m, Py.min l = Ok m /\ m ∈ l /\ forall x, x ∈ l -> m <= x.
Proof.
  destruct l as [|a l]; [contradiction|]. intros _.
  destruct (fold_Rmin_spec l a) as (Hin & Hle & Hall).
  eexists; split; [reflexivity|]. split.
  - destruct Hin as [->|Hin]; [left | now right].
  - intros x [->|Hx]%elem_of_cons; auto.
Qed.

Lemma max_ok (l : list R) :
  l <> [] -> exists m, Py.max l = Ok m /\ m ∈ l /\ forall x, x ∈ l -> x <= m.
Proof.
  destruct l as [|a l]; [contradiction|]. intros _.
  destruct (fold_Rmax_spec l a) as (Hin & Hle & Hall).
  eexists; split; [reflexivity|]. split.
  - destruct Hin as [->|Hin]; [left | now right].
  - intros x [->|Hx]%elem_of_cons; auto.
Qed.

(** Rounding to the nearest integer. *)
Lemma round_half_even_near (x : R) :
  IZR (Py.round_half_even x) - 1 / 2 <= x <= IZR (Py.round_half_even x) + 1 / 2.
Proof.
  unfold Py.round_half_even.
  destruct (base_Int_part x) as [Hlo Hhi].
  destruct (Rlt_dec _ _) as [H1|H1]; [lra|].
  destruct (Rlt_dec _ _) as [H2|H2]; [rewrite plus_IZR; lra|].
  destruct (Z.even _); [lra | rewrite plus_IZR; lra].
Qed.

Lemma round_half_even_IZR (k : Z) : Py.round_half_even (IZR k) = k.
Proof.
  unfold Py.round_half_even.
  assert (E : Int_part (IZR k) = k).
  { symmetry. apply Int_part_spec. lra. }
  rewrite E. destruct (Rlt_dec _ _) as [H|H]; [reflexivity | lra].
Qed.

Lemma round_half_even_mono (x y : R) :
  x <= y -> (Py.round_half_even x <= Py.round_half_even y)%Z.
Proof.
  intros [Hlt| ->]; [|lia].
  pose proof (round_half_even_near x) as Hx.
  pose proof (round_half_even_near y) as Hy.
  assert (H : IZR (Py.round_half_even x) < IZR (Py.round_half_even y + 1)).
  { rewrite plus_IZR. lra. }
  apply lt_IZR in H. lia.
Qed.

Lemma pow10_pos (n : nat) : 0 < 10 ^ n.
Proof. apply pow_lt. lra. Qed.

Lemma round_mono (x y : R) (n : nat) : x <= y -> Py.round x n <= Py.round y n.
Proof.
  intros H. unfold Py.round. pose proof (pow10_pos n) as Hp.
  apply Rmult_le_compat_r; [left; now apply Rinv_0_lt_compat|].
  apply IZR_le, round_half_even_mono. nra.
Qed.

Lemma round_IZR (k : Z) (n : nat) : Py.round (IZR k) n = IZR k.
Proof.
  unfold Py.round. pose proof (pow10_pos n) as Hp.
  replace (IZR k * 10 ^ n) with (IZR (k * 10 ^ Z.of_nat n)).
  - rewrite round_half_even_IZR, mult_IZR, <- pow_IZR. field. lra.
  - now rewrite mult_IZR, <- pow_IZR.
Qed.

Lemma round_between (lo hi : Z) (x : R) (n : nat) :
  IZR lo <= x <= IZR hi -> IZR lo <= Py.round x n <= IZR hi.
Proof.
  intros [H1 H2]. split.
  - rewrite <- (round_IZR lo n). now apply round_mono.
  - rewrite <- (round_IZR hi n). now apply round_mono.
Qed.
End PyFacts.

(** ** Normalization pass of [clean_cluster_data.py] *)

Section Normalization.
Import CleanClusterData.
#[local] Open Scope R_scope.

Lemma mean_of_ok (scores : list R) : exists m, mean_of scores = Ok m.
Proof.
  destruct scores as [|x l]; [now exists 0|].
  eexists. unfold mean_of. apply truediv_ok, len_neq_0. discriminate.
Qed.

Lemma std_dev_of_ok (scores : list R) (m : R) :
  exists s, std_dev_of scores m = Ok s.
Proof.
  unfold std_dev_of. destruct (1 <? length scores)%nat eqn:E; [|now exists 0].
  assert (Hne : scores <> []) by (destruct scores; [discriminate | congruence]).
  rewrite truediv_ok by now apply len_neq_0.
  cbn. unfold Py.sqrt. destruct (Rlt_dec _ 0) as [Hneg|_]; [|eauto].
  exfalso. apply (Rlt_not_le _ _ Hneg).
  apply Rmult_le_pos.
  - apply sum_nonneg. intros x (y & -> & _)%list_elem_of_fmap.
    apply pow2_ge_0.
  - left. apply Rinv_0_lt_compat. unfold Py.len. apply lt_0_INR.
    apply Nat.ltb_lt in E. lia.
Qed.

Lemma z_scores_of_ok (scores : list R) :
  exists m s, mean_of scores = Ok m /\ std_dev_of scores m = Ok s /\
              z_scores_of scores = Ok (map (z_of m s) scores).
Proof.
  destruct (mean_of_ok scores) as [m Hm].
  destruct (std_dev_of_ok scores m) as [s Hs].
  exists m, s. split; [easy|]. split; [easy|].
  unfold z_scores_of. rewrite Hm. cbn. rewrite Hs. cbn.
  clear Hm Hs. induction scores as [|x l IH]; [reflexivity|].
  cbn. unfold z_of at 1. destruct (Rlt_dec 0 s) as [Hs|Hs].
  - rewrite truediv_ok by lra. cbn. now rewrite IH.
  - cbn. now rewrite IH.
Qed.

Lemma rescale_ok (min_z max_z : R) (c : cluster) (z : R) :
  rescale min_z max_z (c, z) =
  Ok (set_accessibility_score c (Py.round (normalized_of min_z max_z z) 4)).
Proof.
  unfold rescale, normalized_of. destruct (Rlt_dec min_z max_z) as [H|H].
  - rewrite truediv_ok by lra. reflexivity.
  - reflexivity.
Qed.

Lemma mapM_rescale (min_z max_z : R) (cz : list (cluster * R)) :
  mapM (rescale min_z max_z) cz =
  Ok (map (fun '(c, z) =>
             set_accessibility_score c
               (Py.round (normalized_of min_z max_z z) 4)) cz).
Proof.
  induction cz as [|[c z] l IH]; [reflexivity|].
  cbn [mapM]. rewrite rescale_ok. cbn. rewrite IH. reflexivity.
Qed.

Lemma normalized_of_range (min_z max_z z : R) :
  min_z <= z <= max_z -> -1 <= normalized_of min_z max_z z <= 1.
Proof.
  intros [H1 H2]. unfold normalized_of.
  destruct (Rlt_dec min_z max_z) as [H|H]; [|lra].
  assert (0 <= (z - min_z) / (max_z - min_z) <= 1); [|lra].
  split.
  - apply Rmult_le_pos; [lra|]. left. apply Rinv_0_lt_compat. lra.
  - apply Rmult_le_reg_r with (max_z - min_z); [lra|].
    unfold Rdiv. rewrite Rmult_assoc, Rinv_l by lra. lra.
Qed.

Lemma normalized_of_min (min_z max_z : R) :
  min_z < max_z -> normalized_of min_z max_z min_z = -1.
Proof.
  intros H. unfold normalized_of. destruct (Rlt_dec min_z max_z); [|lra].
  field. lra.
Qed.

Lemma normalized_of_max (min_z max_z : R) :
  min_z < max_z -> normalized_of min_z max_z max_z = 1.
Proof.
  intros H. unfold normalized_of. destruct (Rlt_dec min_z max_z); [|lra].
  field. lra.
Qed.

Lemma normalized_of_flat (min_z max_z z : R) :
  max_z <= min_z -> normalized_of min_z max_z z = 0.
Proof.
  intros H. unfold normalized_of. destruct (Rlt_dec min_z max_z); [lra|easy].
Qed.

Lemma sum_constant (l : list R) (x a : R) :
  (forall y, y ∈ l -> y = x) -> fold_left Rplus l a = a + INR (length l) * x.
Proof.
  revert a. induction l as [|y l IH]; intros a H.
  - cbn. lra.
  - cbn [fold_left length]. rewrite IH by (intros; apply H; now right).
    rewrite (H y) by left. rewrite S_INR. lra.
Qed.

(** A batch of equal scores has its common value as mean and deviation 0. *)
Lemma constant_scores (scores : list R) (x : R) :
  scores <> [] -> (forall y, y ∈ scores -> y = x) ->
  mean_of scores = Ok x /\ std_dev_of scores x = Ok 0.
Proof.
  intros Hne Hx. pose proof (len_neq_0 scores Hne) as Hlen. split.
  - destruct scores as [|y l] eqn:E; [contradiction|]. rewrite <- E in *.
    replace (mean_of scores) with (Py.truediv (Py.sum scores) (Py.len scores))
      by now rewrite E.
    rewrite truediv_ok by exact Hlen. f_equal.
    unfold Py.sum. rewrite (sum_constant scores x 0 Hx).
    unfold Py.len in *. field. exact Hlen.
  - unfold std_dev_of. destruct (1 <? length scores)%nat; [|reflexivity].
    rewrite truediv_ok by exact Hlen.
    assert (E : Py.sum (map (fun y => (y - x) ^ 2) scores) = 0).
    { unfold Py.sum. rewrite (sum_constant _ 0 0); [lra|].
      intros y (y0 & -> & Hy0)%list_elem_of_fmap.
      rewrite (Hx y0 Hy0). lra. }
    rewrite E. unfold Rdiv. rewrite Rmult_0_l.
    cbn [mbind result_bind]. unfold Py.sqrt. destruct (Rlt_dec 0 0) as [H|_]; [lra|].
    now rewrite sqrt_0.
Qed.

(** What [normalize] returns on a non-empty batch. *)
Lemma normalize_ok (cleaned_data : list cluster) :
  cleaned_data <> [] ->
  exists m s min_z max_z,
    let zs := map (z_of m s) (map accessibility_score cleaned_data) in
    mean_of (map accessibility_score cleaned_data) = Ok m /\
    std_dev_of (map accessibility_score cleaned_data) m = Ok s /\
    z_scores_of (map accessibility_score cleaned_data) = Ok zs /\
    Py.min zs = Ok min_z /\ Py.max zs = Ok max_z /\
    min_z ∈ zs /\ max_z ∈ zs /\
    (forall z, z ∈ zs -> min_z <= z <= max_z) /\
    normalize cleaned_data =
    Ok (map (fun '(c, z) =>
               set_accessibility_score c
                 (Py.round (normalized_of min_z max_z z) 4))
            (zip cleaned_data zs)).
Proof.
  intros Hne.
  destruct (z_scores_of_ok (map accessibility_score cleaned_data))
    as (m & s & Hm & Hs & Hz).
  set (zs := map (z_of m s) (map accessibility_score cleaned_data)) in *.
  assert (Hzs : zs <> []).
  { subst zs. destruct cleaned_data; [contradiction | discriminate]. }
  destruct (min_ok zs Hzs) as (min_z & Hmin & Hmin_in & Hmin_le).
  destruct (max_ok zs Hzs) as (max_z & Hmax & Hmax_in & Hmax_le).
  exists m, s, min_z, max_z. cbv zeta. fold zs.
  repeat split; auto.
  unfold normalize. rewrite Hz. cbn. rewrite Hmin. cbn. rewrite Hmax. cbn.
  apply mapM_rescale.
Qed.
End Normalization.

Section MinMax.
Import CleanClusterData.
#[local] Open Scope R_scope.

Lemma fold_Rplus_zero (l : list R) (a : R) :
  (forall x, x ∈ l -> 0 <= x) -> fold_left Rplus l a = a ->
  forall x, x ∈ l -> x = 0.
Proof.
  revert a. induction l as [|y l IH]; intros a Hnn Hsum x Hx; [inversion Hx|].
  cbn [fold_left] in Hsum.
  assert (Hy : 0 <= y) by (apply Hnn; left).
  assert (Hl : forall z, z ∈ l -> 0 <= z) by (intros; apply Hnn; now right).
  pose proof (fold_Rplus_ge l (a + y) Hl) as Hge.
  assert (Hy0 : y = 0) by lra.
  apply elem_of_cons in Hx as [-> | Hx]; [exact Hy0|].
  apply (IH (a + y)); [exact Hl | lra | exact Hx].
Qed.

(** The deviation is positive unless all scores are the mean. *)
Lemma std_dev_zero (scores : list R) (m s : R) :
  std_dev_of scores m = Ok s -> ~ 0 < s ->
  (1 < length scores)%nat -> forall x, x ∈ scores -> x = m.
Proof.
  unfold std_dev_of. intros Hs Hle Hlen x Hx.
  apply Nat.ltb_lt in Hlen as Hb. rewrite Hb in Hs.
  assert (Hne : scores <> []) by (destruct scores; [inversion Hx | discriminate]).
  rewrite truediv_ok in Hs by now apply len_neq_0.
  cbn [mbind result_bind] in Hs. unfold Py.sqrt in Hs.
  destruct (Rlt_dec _ 0) as [|Hv]; [discriminate|]. injection Hs as <-.
  set (sq := map (fun y => (y - m) ^ 2) scores) in *.
  change (~ 0 < sqrt (Py.sum sq / Py.len scores)) in Hle.
  assert (Hsq : forall y, y ∈ sq -> 0 <= y).
  { intros y (y0 & -> & _)%list_elem_of_fmap. apply pow2_ge_0. }
  assert (Hlen0 : 0 < Py.len scores).
  { unfold Py.len. apply lt_0_INR. lia. }
  assert (Hv0 : Py.sum sq / Py.len scores = 0).
  { apply sqrt_eq_0; [lra|]. pose proof (sqrt_pos (Py.sum sq / Py.len scores)). lra. }
  assert (Hsum : Py.sum sq = 0).
  { unfold Rdiv in Hv0. apply Rmult_integral in Hv0 as [H|H]; [exact H|].
    pose proof (Rinv_0_lt_compat _ Hlen0). lra. }
  assert (Hx0 : (x - m) ^ 2 = 0).
  { apply (fold_Rplus_zero sq 0 Hsq Hsum).
    apply list_elem_of_fmap. exists x. easy. }
  assert (x - m = 0); [|lra].
  destruct (Rmult_integral (x - m) ((x - m) * 1)); [exact Hx0 | assumption | lra].
Qed.

Lemma min_unique (l : list R) (a : R) :
  a ∈ l -> (forall x, x ∈ l -> a <= x) -> Py.min l = Ok a.
Proof.
  intros Hin Hle.
  destruct (min_ok l) as (m & -> & Hm & Hmle).
  { intros ->. inversion Hin. }
  f_equal. apply Rle_antisym; [now apply Hmle | now apply Hle].
Qed.

Lemma max_unique (l : list R) (a : R) :
  a ∈ l -> (forall x, x ∈ l -> x <= a) -> Py.max l = Ok a.
Proof.
  intros Hin Hle.
  destruct (max_ok l) as (m & -> & Hm & Hmle).
  { intros ->. inversion Hin. }
  f_equal. apply Rle_antisym; [now apply Hle | now apply Hmle].
Qed.

(** The values written back, in terms of the stored raw scores alone. *)
Lemma rescaled_is_min_max (scores : list R) (m s xmin xmax min_z max_z : R) :
  mean_of scores = Ok m -> std_dev_of scores m = Ok s ->
  Py.min scores = Ok xmin -> Py.max scores = Ok xmax ->
  Py.min (map (z_of m s) scores) = Ok min_z ->
  Py.max (map (z_of m s) scores) = Ok max_z ->
  forall x, x ∈ scores ->
    normalized_of min_z max_z (z_of m s x) = normalized_of xmin xmax x.
Proof.
  intros Hm Hs Hxmin Hxmax Hzmin Hzmax x Hx.
  assert (Hne : scores <> []) by (intros ->; inversion Hx).
  destruct (min_ok scores Hne) as (a & Ea & Ha & Hale).
  rewrite Ea in Hxmin. injection Hxmin as ->.
  destruct (max_ok scores Hne) as (b & Eb & Hb & Hble).
  rewrite Eb in Hxmax. injection Hxmax as ->.
  destruct (Rlt_dec 0 s) as [Hpos|Hnpos].
  - assert (Hz : forall y, z_of m s y = (y - m) / s).
    { intros y. unfold z_of. now destruct (Rlt_dec 0 s). }
    assert (Hmono : forall y y', y <= y' -> z_of m s y <= z_of m s y').
    { intros y y' H. rewrite !Hz. apply Rmult_le_compat_r; [|lra].
      left. now apply Rinv_0_lt_compat. }
    assert (Emin : Py.min (map (z_of m s) scores) = Ok (z_of m s xmin)).
    { apply min_unique.
      - apply list_elem_of_fmap. eauto.
      - intros z (y & -> & Hy)%list_elem_of_fmap. apply Hmono, Hale, Hy. }
    assert (Emax : Py.max (map (z_of m s) scores) = Ok (z_of m s xmax)).
    { apply max_unique.
      - apply list_elem_of_fmap. eauto.
      - intros z (y & -> & Hy)%list_elem_of_fmap. apply Hmono, Hble, Hy. }
    rewrite Emin in Hzmin. injection Hzmin as <-.
    rewrite Emax in Hzmax. injection Hzmax as <-.
    unfold normalized_of. rewrite !Hz.
    destruct (Rlt_dec xmin xmax) as [Hlt|Hge].
    + destruct (Rlt_dec ((xmin - m) / s) ((xmax - m) / s)) as [_|Hn].
      * field. lra.
      * exfalso. apply Hn. apply Rmult_lt_compat_r; [|lra].
        now apply Rinv_0_lt_compat.
    + destruct (Rlt_dec ((xmin - m) / s) ((xmax - m) / s)) as [Hlt|_];
        [|reflexivity].
      exfalso. apply Hge.
      apply Rmult_lt_reg_r with (/ s); [now apply Rinv_0_lt_compat|].
      unfold Rdiv in Hlt. lra.
  - assert (Hz : forall y, z_of m s y = 0).
    { intros y. unfold z_of. now destruct (Rlt_dec 0 s). }
    assert (Emin : Py.min (map (z_of m s) scores) = Ok 0).
    { apply min_unique.
      - apply list_elem_of_fmap. exists x. now rewrite Hz.
      - intros z (y & -> & Hy)%list_elem_of_fmap. rewrite Hz. lra. }
    assert (Emax : Py.max (map (z_of m s) scores) = Ok 0).
    { apply max_unique.
      - apply list_elem_of_fmap. exists x. now rewrite Hz.
      - intros z (y & -> & Hy)%list_elem_of_fmap. rewrite Hz. lra. }
    rewrite Emin in Hzmin. injection Hzmin as <-.
    rewrite Emax in Hzmax. injection Hzmax as <-.
    rewrite Hz. rewrite (normalized_of_flat 0 0) by lra.
    rewrite normalized_of_flat; [reflexivity|].
    destruct (le_lt_dec (length scores) 1) as [Hshort|Hlong].
    + destruct scores as [|y [|y' l]]; [contradiction | | simpl in Hshort; lia].
      apply list_elem_of_singleton in Ha, Hb. subst. lra.
    + rewrite (std_dev_zero scores m s Hs Hnpos Hlong xmin Ha).
      rewrite (std_dev_zero scores m s Hs Hnpos Hlong xmax Hb). lra.
Qed.

Lemma normalize_min_max (cleaned_data : list cluster) :
  cleaned_data <> [] ->
  exists xmin xmax,
    Py.min (map accessibility_score cleaned_data) = Ok xmin /\
    Py.max (map accessibility_score cleaned_data) = Ok xmax /\
    xmin ∈ map accessibility_score cleaned_data /\
    xmax ∈ map accessibility_score cleaned_data /\
    (forall x, x ∈ map accessibility_score cleaned_data -> xmin <= x <= xmax) /\
    normalize cleaned_data =
    Ok (map (fun c =>
               set_accessibility_score c
                 (Py.round (normalized_of xmin xmax (accessibility_score c)) 4))
            cleaned_data).
Proof.
  intros Hne.
  destruct (normalize_ok cleaned_data Hne)
    as (m & s & min_z & max_z & Hm & Hs & _ & Hmin & Hmax & _ & _ & _ & Hout).
  cbv zeta in *.
  set (scores := map accessibility_score cleaned_data) in *.
  assert (Hsne : scores <> []).
  { subst scores. destruct cleaned_data; [contradiction | discriminate]. }
  destruct (min_ok scores Hsne) as (xmin & Exmin & Hxmin & Hxmin_le).
  destruct (max_ok scores Hsne) as (xmax & Exmax & Hxmax & Hxmax_le).
  exists xmin, xmax. split; [exact Exmin|]. split; [exact Exmax|].
  split; [exact Hxmin|]. split; [exact Hxmax|].
  split; [intros x Hx; split; auto|].
  rewrite Hout. f_equal.
  assert (Hall : forall c, c ∈ cleaned_data ->
            normalized_of min_z max_z (z_of m s (accessibility_score c))
            = normalized_of xmin xmax (accessibility_score c)).
  { intros c Hc.
    apply (rescaled_is_min_max scores m s xmin xmax min_z max_z); try assumption.
    apply list_elem_of_fmap. eauto. }
  subst scores. clear -Hall.
  induction cleaned_data as [|c l IH]; [reflexivity|].
  cbn [map zip zip_with]. rewrite Hall by left. f_equal.
  apply IH. intros c' Hc'. apply Hall. now right.
Qed.
End MinMax.

Section ZScoreValues.
Import CleanClusterData.
#[local] Open Scope R_scope.

Lemma mean_of_value (scores : list R) (m : R) :
  scores <> [] -> mean_of scores = Ok m ->
  m = Py.sum scores / INR (length scores).
Proof.
  intros Hne H. destruct scores as [|x l] eqn:E; [contradiction|].
  rewrite <- E in *. unfold mean_of in H. rewrite E in H at 1.
  rewrite truediv_ok in H.
  - injection H as <-. reflexivity.
  - unfold Py.len. apply not_0_INR. rewrite E. discriminate.
Qed.

Lemma std_dev_of_value (scores : list R) (m s : R) :
  std_dev_of scores m = Ok s ->
  s = if (1 <? length scores)%nat
      then sqrt (Py.sum (map (fun x => (x - m) ^ 2) scores)
                 / INR (length scores))
      else 0.
Proof.
  unfold std_dev_of. destruct (1 <? length scores)%nat eqn:E.
  - apply Nat.ltb_lt in E. rewrite truediv_ok.
    + cbn [mbind result_bind]. unfold Py.sqrt, Py.len.
      destruct (Rlt_dec _ 0); [discriminate|]. now intros [= <-].
    + unfold Py.len. apply not_0_INR. lia.
  - now intros [= <-].
Qed.
End ZScoreValues.

Section NormalizationClaims.
Import CleanClusterData.
#[local] Open Scope R_scope.

Lemma rewritten_lookup (min_z max_z : R) (cleaned_data : list cluster)
      (zs : list R) (i : nat) (c : cluster) :
  map (fun '(c, z) =>
         set_accessibility_score c (Py.round (normalized_of min_z max_z z) 4))
      (zip cleaned_data zs) !! i = Some c ->
  exists c0 z,
    cleaned_data !! i = Some c0 /\ zs !! i = Some z /\
    c = set_accessibility_score c0 (Py.round (normalized_of min_z max_z z) 4).
Proof.
  intros H. apply list_lookup_fmap_Some in H as ([c0 z] & Hc & Hl).
  apply lookup_zip_with_Some in Hl as (c1 & z1 & [= <- <-] & H1 & H2).
  eauto.
Qed.

(** C1.  On every non-empty batch the normalization pass returns (no
    exception, so no division by zero), one rewritten record per input
    record and in the same order; every final score lies in [-1, 1]; when
    the smallest and the largest z-score differ, a record whose z-score is
    the smallest gets -1 and one whose z-score is the largest gets +1; when
    they are equal every final score is 0; and when all stored raw scores
    are equal the standard deviation is 0, every z-score is 0 and every
    final score is 0.  The z-scores are those of the stored raw scores:
    the z-score of a raw score [x] is [(x - mean) / std] for the mean and
    the population standard deviation of the batch, and 0 when the
    deviation is 0.  When two raw scores differ, the smallest and the
    largest z-score differ, a record with the smallest raw score gets -1
    and a record with the largest raw score gets +1. *)
Theorem batch_normalization (cleaned_data : list cluster) :
  cleaned_data <> [] ->
  exists z_scores min_z max_z out,
    z_scores_of (map accessibility_score cleaned_data) = Ok z_scores /\
    Py.min z_scores = Ok min_z /\
    Py.max z_scores = Ok max_z /\
    normalize cleaned_data = Ok out /\
    length z_scores = length cleaned_data /\
    length out = length cleaned_data /\
    (forall i c, out !! i = Some c ->
       exists c0, cleaned_data !! i = Some c0 /\
                  c = set_accessibility_score c0 (accessibility_score c)) /\
    (forall c, c ∈ out -> -1 <= accessibility_score c <= 1) /\
    (min_z <> max_z ->
     forall i c, out !! i = Some c ->
       (z_scores !! i = Some min_z -> accessibility_score c = -1) /\
       (z_scores !! i = Some max_z -> accessibility_score c = 1)) /\
    (min_z = max_z -> forall c, c ∈ out -> accessibility_score c = 0) /\
    ((forall c c', c ∈ cleaned_data -> c' ∈ cleaned_data ->
        accessibility_score c = accessibility_score c') ->
     (exists mean_score,
        mean_of (map accessibility_score cleaned_data) = Ok mean_score /\
        std_dev_of (map accessibility_score cleaned_data) mean_score = Ok 0) /\
     (forall z, z ∈ z_scores -> z = 0) /\
     forall c, c ∈ out -> accessibility_score c = 0) /\
    (exists mean_score std_dev,
       mean_score = Py.sum (map accessibility_score cleaned_data)
                    / INR (length cleaned_data) /\
       std_dev = (if (1 <? length cleaned_data)%nat
                  then sqrt (Py.sum (map (fun x => (x - mean_score) ^ 2)
                                         (map accessibility_score cleaned_data))
                             / INR (length cleaned_data))
                  else 0) /\
       z_scores = map (fun c =>
                         if Rlt_dec 0 std_dev
                         then (accessibility_score c - mean_score) / std_dev
                         else 0)
                      cleaned_data) /\
    ((exists c c', c ∈ cleaned_data /\ c' ∈ cleaned_data /\
                   accessibility_score c <> accessibility_score c') ->
     min_z < max_z /\
     forall i c0 c, cleaned_data !! i = Some c0 -> out !! i = Some c ->
       ((forall c', c' ∈ cleaned_data ->
                    accessibility_score c0 <= accessibility_score c') ->
        accessibility_score c = -1) /\
       ((forall c', c' ∈ cleaned_data ->
                    accessibility_score c' <= accessibility_score c0) ->
        accessibility_score c = 1)) /\
    (forall i c, out !! i = Some c ->
       exists z, z_scores !! i = Some z /\
         accessibility_score c
         = Py.round (if Rlt_dec min_z max_z
                     then 2 * ((z - min_z) / (max_z - min_z)) - 1
                     else 0) 4).
Proof.
  intros Hne.
  destruct (normalize_ok cleaned_data Hne)
    as (m & s & min_z & max_z & Hm & Hs & Hz & Hmin & Hmax & Hmin_in & Hmax_in
        & Hrange & Hout).
  destruct (normalize_min_max cleaned_data Hne)
    as (xmin & xmax & Hxmin & Hxmax & Hxmin_in & Hxmax_in & Hxrange & Hout').
  pose proof (rescaled_is_min_max _ _ _ _ _ _ _ Hm Hs Hxmin Hxmax Hmin Hmax)
    as Hsame_value.
  assert (Hm_value : m = Py.sum (map accessibility_score cleaned_data)
                         / INR (length cleaned_data)).
  { rewrite <- (length_map accessibility_score cleaned_data).
    apply mean_of_value; [|exact Hm].
    destruct cleaned_data; [contradiction | discriminate]. }
  pose proof (std_dev_of_value _ _ _ Hs) as Hs_value.
  rewrite length_map in Hs_value.
  cbv zeta in *.
  set (zs := map (z_of m s) (map accessibility_score cleaned_data)) in *.
  set (out := map _ (zip cleaned_data zs)) in *.
  assert (Hlen : length zs = length cleaned_data).
  { subst zs. now rewrite !length_map. }
  assert (Hflat : min_z = max_z -> forall c, c ∈ out -> accessibility_score c = 0).
  { intros E c (i & Hi)%list_elem_of_lookup.
    apply rewritten_lookup in Hi as (c0 & z & _ & _ & ->). cbn.
    rewrite normalized_of_flat by lra. apply (round_IZR 0). }
  exists zs, min_z, max_z, out.
  split; [exact Hz|]. split; [exact Hmin|]. split; [exact Hmax|].
  split; [exact Hout|]. split; [exact Hlen|].
  split; [|split; [|split; [|split; [|split; [exact Hflat|split; [|split; [|split]]]]]]].
  - subst out. rewrite length_map, length_zip_with. lia.
  - intros i c Hi.
    apply rewritten_lookup in Hi as (c0 & z & Hc0 & _ & ->). eauto.
  - intros c (i & Hi)%list_elem_of_lookup.
    apply rewritten_lookup in Hi as (c0 & z & _ & Hzi & ->). cbn.
    apply (round_between (-1) 1), normalized_of_range, Hrange.
    apply list_elem_of_lookup. eauto.
  - intros Hdiff i c Hi.
    apply rewritten_lookup in Hi as (c0 & z & _ & Hzi & ->). cbn.
    assert (Hlt : min_z < max_z).
    { destruct (Hrange min_z Hmin_in). lra. }
    split; intros Hz'; rewrite Hzi in Hz'; injection Hz' as ->.
    + rewrite normalized_of_min by exact Hlt. apply (round_IZR (-1)).
    + rewrite normalized_of_max by exact Hlt. apply (round_IZR 1).
  - intros Hsame.
    assert (Hconst : forall z z', z ∈ zs -> z' ∈ zs -> z = z').
    { intros z z'.
      intros (x & -> & (c & -> & Hc)%list_elem_of_fmap)%list_elem_of_fmap.
      intros (x' & -> & (c' & -> & Hc')%list_elem_of_fmap)%list_elem_of_fmap.
      now rewrite (Hsame c c' Hc Hc'). }
    destruct cleaned_data as [|c0 l] eqn:E; [contradiction|]. rewrite <- E in *.
    assert (Hc0 : c0 ∈ cleaned_data) by (rewrite E; left).
    destruct (constant_scores (map accessibility_score cleaned_data)
                (accessibility_score c0)) as [Hm0 Hs0].
    { rewrite E. discriminate. }
    { intros y (c & -> & Hc)%list_elem_of_fmap. now apply Hsame. }
    rewrite Hm0 in Hm. injection Hm as <-.
    rewrite Hs0 in Hs. injection Hs as <-.
    split; [eauto|]. split.
    + intros z (x & -> & _)%list_elem_of_fmap. unfold z_of.
      destruct (Rlt_dec 0 0) as [H|_]; [lra | reflexivity].
    + apply Hflat. now apply Hconst.
  - exists m, s. split; [exact Hm_value|]. split; [|].
    + exact Hs_value.
    + subst zs. rewrite map_map. reflexivity.
  - intros (c1 & c2 & Hc1 & Hc2 & Hdiff).
    assert (Hx : xmin < xmax).
    { destruct (Hxrange (accessibility_score c1)) as [H1 H1'];
        [apply list_elem_of_fmap; eauto|].
      destruct (Hxrange (accessibility_score c2)) as [H2 H2'];
        [apply list_elem_of_fmap; eauto|].
      destruct (Rlt_dec xmin xmax) as [Hlt|Hge]; [exact Hlt|].
      exfalso. apply Hdiff. lra. }
    assert (Hz_lt : min_z < max_z).
    { destruct (Rlt_dec min_z max_z) as [Hlt|Hge]; [exact Hlt|]. exfalso.
      pose proof (Hsame_value xmin Hxmin_in) as E.
      rewrite normalized_of_flat in E by lra.
      rewrite normalized_of_min in E by exact Hx. lra. }
    split; [exact Hz_lt|].
    intros i c0 c Hc0 Hi.
    assert (Hc : c = set_accessibility_score c0
                       (Py.round (normalized_of xmin xmax
                                    (accessibility_score c0)) 4)).
    { rewrite Hout in Hout'. injection Hout' as Hout'.
      fold out in Hout'. rewrite Hout', list_lookup_fmap, Hc0 in Hi.
      now injection Hi as <-. }
    rewrite Hc. cbn [accessibility_score set_accessibility_score].
    assert (Hin0 : accessibility_score c0 ∈ map accessibility_score cleaned_data).
    { apply list_elem_of_fmap. exists c0. split; [reflexivity|].
      apply list_elem_of_lookup. eauto. }
    destruct (Hxrange _ Hin0) as [Hlo Hhi].
    apply list_elem_of_fmap in Hxmin_in as (cmin & Emin & Hcmin).
    apply list_elem_of_fmap in Hxmax_in as (cmax & Emax & Hcmax).
    split; intros Hext.
    + assert (E : accessibility_score c0 = xmin).
      { pose proof (Hext cmin Hcmin). lra. }
      rewrite E, normalized_of_min by exact Hx. apply (round_IZR (-1)).
    + assert (E : accessibility_score c0 = xmax).
      { pose proof (Hext cmax Hcmax). lra. }
      rewrite E, normalized_of_max by exact Hx. apply (round_IZR 1).
  - intros i c Hi.
    apply rewritten_lookup in Hi as (c0 & z & _ & Hzi & ->).
    exists z. split; [exact Hzi | reflexivity].
Qed.
End NormalizationClaims.

(** ** Raw scores of [clean_cluster_data.py] *)

Section RawScores.
Import CleanClusterData.
#[local] Open Scope R_scope.

Variable haversine_distance : coord -> coord -> R.
Hypothesis haversine_nonneg : forall a b, 0 <= haversine_distance a b.

Lemma pair_loop (pairs : list (coord * coord)) (t : R) (n : nat) :
  exists t', fold_left (add_pair haversine_distance) pairs (t, n)
             = (t', (n + length pairs)%nat)
             /\ t <= t'.
Proof.
  revert t n. induction pairs as [|[c1 c2] l IH]; intros t n; simpl.
  - exists t. rewrite Nat.add_0_r. split; [reflexivity | lra].
  - destruct (IH (t + haversine_distance c1 c2) (S n)) as (t' & E & Hle).
    exists t'. rewrite E. split; [f_equal; lia|].
    pose proof (haversine_nonneg c1 c2). lra.
Qed.

Lemma combinations2_length {A : Type} (l : list A) :
  (2 <= length l)%nat -> (1 <= length (Py.combinations2 l))%nat.
Proof.
  destruct l as [|x [|y l]]; simpl; try lia.
Qed.

Lemma mean_pairwise_distance_ok (member_coordinates : list coord) :
  exists m, calculate_mean_pairwise_distance haversine_distance
              member_coordinates = Ok m
            /\ 0 <= m
            /\ ((length member_coordinates < 2)%nat -> m = 0).
Proof.
  unfold calculate_mean_pairwise_distance.
  destruct (length member_coordinates <? 2)%nat eqn:E.
  - exists 0. split; [reflexivity|]. split; [lra | reflexivity].
  - apply Nat.ltb_ge in E.
    destruct (pair_loop (Py.combinations2 member_coordinates) 0 0%nat)
      as (t & Ht & Hle).
    rewrite Ht.
    pose proof (combinations2_length _ E) as Hc.
    assert (Hpos : 0 < INR (0 + length (Py.combinations2 member_coordinates))).
    { apply lt_0_INR. lia. }
    rewrite truediv_ok by lra.
    eexists. split; [reflexivity|]. split; [|lia].
    apply Rmult_le_pos; [lra|]. left. now apply Rinv_0_lt_compat.
Qed.

Lemma proximity_factor_ok (member_coordinates : list coord) :
  exists p, calculate_proximity_factor haversine_distance member_coordinates
            = Ok p
            /\ 0 < p <= 1
            /\ ((length member_coordinates < 2)%nat -> p = 1).
Proof.
  destruct (mean_pairwise_distance_ok member_coordinates) as (m & E & Hm & H0).
  unfold calculate_proximity_factor. rewrite E. cbn.
  rewrite truediv_ok by lra.
  eexists. split; [reflexivity|]. split; [split|].
  - apply Rdiv_lt_0_compat; lra.
  - apply Rmult_le_reg_r with (1 + m); [lra|].
    unfold Rdiv. rewrite Rmult_assoc, Rinv_l by lra. lra.
  - intros Hlt. rewrite (H0 Hlt). field.
Qed.
End RawScores.

Section Diversity.
Import CleanClusterData.
#[local] Open Scope R_scope.

Lemma positive_entries_le_total (items : list (string * nat)) :
  (length (filter (fun kv => 0 < kv.2) items) <= sum_list (items.*2))%nat.
Proof.
  induction items as [|[k v] l IH]; [reflexivity|].
  rewrite filter_cons. cbn [fmap list_fmap snd sum_list sum_list_with] in *.
  case_decide; simpl in *; lia.
Qed.

Lemma diversity_index_ok (feature_counts : gmap string nat) :
  exists d, calculate_diversity_index feature_counts = Ok d /\ 0 <= d <= 1.
Proof.
  unfold calculate_diversity_index, Py.sum_values.
  pose proof (positive_entries_le_total (map_to_list feature_counts)) as Hle.
  destruct (0 <? _)%nat eqn:E.
  - apply Nat.ltb_lt in E.
    assert (Hpos : 0 < INR (sum_list (map_to_list feature_counts).*2)).
    { now apply lt_0_INR. }
    rewrite truediv_ok by lra.
    eexists. split; [reflexivity|]. unfold Py.len. split.
    + apply Rmult_le_pos; [apply pos_INR|].
      left. now apply Rinv_0_lt_compat.
    + apply Rmult_le_reg_r with (INR (sum_list (map_to_list feature_counts).*2));
        [lra|].
      unfold Rdiv. rewrite Rmult_assoc, Rinv_l by lra.
      apply le_INR in Hle. lra.
  - exists 0. split; [reflexivity | lra].
Qed.
End Diversity.

(** ** First pass of [clean_cluster_data.py] *)

Section FirstPass.
Import Igraph CleanClusterData.
#[local] Open Scope R_scope.

Variable haversine_distance : coord -> coord -> R.
Variable subgraph : Graph -> list nat -> Graph.
Variable degree : Graph -> list nat.
Variable transitivity_undirected : Graph -> R.
Variable g : Graph.

#[local] Abbreviation clean_cluster :=
  (clean_cluster haversine_distance subgraph degree transitivity_undirected g).
#[local] Abbreviation first_pass :=
  (first_pass haversine_distance subgraph degree transitivity_undirected g).
#[local] Abbreviation main :=
  (main haversine_distance subgraph degree transitivity_undirected g).

Lemma average_degree_ok (g' : Graph) :
  exists a, calculate_average_degree degree g' = Ok a.
Proof.
  unfold calculate_average_degree.
  destruct (0 <? vcount g')%nat eqn:E; [|eauto].
  apply Nat.ltb_lt in E. rewrite truediv_ok; [eauto|].
  apply not_0_INR. lia.
Qed.

Lemma radius_ok (centroid : coord) (member_coordinates : list coord) :
  exists r, calculate_radius haversine_distance centroid member_coordinates
            = Ok r.
Proof.
  destruct member_coordinates as [|c l]; [now exists 0|].
  destruct (max_ok (map (haversine_distance centroid) (c :: l)))
    as (r & E & _); [discriminate|]. eauto.
Qed.

Lemma member_coordinates_ok (member_ids : list nat) :
  Forall (fun i => (i < vcount g)%nat) member_ids ->
  exists cs, read_member_coordinates g member_ids = Ok cs.
Proof.
  intros H. apply mapM_total. intros i Hi.
  rewrite Forall_forall in H. specialize (H i Hi).
  unfold Py.getitem.
  destruct (lookup_lt_is_Some_2 (vs g) i H) as [v ->]. exact I.
Qed.

Lemma clean_cluster_id (d : cluster_info) (c : cluster) :
  clean_cluster d = Ok c -> id c = cluster_id d.
Proof.
  unfold CleanClusterData.clean_cluster. cbv zeta. intros H.
  repeat (apply bind_ok in H as (? & _ & H)).
  injection H as <-. reflexivity.
Qed.

Lemma clean_cluster_ok (d : cluster_info) :
  (forall a b, 0 <= haversine_distance a b) ->
  Forall (fun i => (i < vcount g)%nat) (members d) ->
  exists c, clean_cluster d = Ok c.
Proof.
  intros Hd Hm. unfold CleanClusterData.clean_cluster. cbv zeta.
  destruct (member_coordinates_ok _ Hm) as (cs & ->). cbn.
  destruct (proximity_factor_ok _ Hd cs) as (p & -> & _). cbn.
  destruct (diversity_index_ok (feature_counts d)) as (dv & -> & _). cbn.
  destruct (average_degree_ok (subgraph g (members d))) as (a & ->). cbn.
  destruct (radius_ok (Py.round (centroid d).1 6, Py.round (centroid d).2 6) cs)
    as (r & ->). cbn.
  eauto.
Qed.

#[local] Abbreviation step :=
  (first_pass_step haversine_distance subgraph degree transitivity_undirected g).

Lemma first_pass_loop (data : list cluster_info) (acc res : list cluster) :
  foldM step data acc = Ok res ->
  exists cs, res = acc ++ cs /\
    Forall2 (fun d c => clean_cluster d = Ok c)
            (filter (fun d => 10 < radius_meters d) data) cs.
Proof.
  revert acc. induction data as [|d data IH]; intros acc H; simpl in H.
  - injection H as <-. exists []. rewrite app_nil_r. split; [easy | constructor].
  - apply bind_ok in H as (acc' & Hstep & H).
    apply IH in H as (cs & -> & Hcs).
    rewrite filter_cons. unfold first_pass_step in Hstep.
    destruct (decide (10 < radius_meters d)) as [Hr|Hr].
    + apply bind_ok in Hstep as (c & Hc & [= <-]).
      exists (c :: cs). rewrite <- app_assoc. split; [easy|].
      now constructor.
    + injection Hstep as <-. eauto.
Qed.

Lemma first_pass_loop_total (data : list cluster_info) (acc : list cluster) :
  (forall d, d ∈ data -> 10 < radius_meters d -> is_ok (clean_cluster d)) ->
  exists res, foldM step data acc = Ok res.
Proof.
  revert acc. induction data as [|d data IH]; intros acc H; simpl.
  - eauto.
  - unfold first_pass_step at 2.
    destruct (decide (10 < radius_meters d)) as [Hr|Hr].
    + specialize (H d ltac:(left) Hr) as Hd.
      destruct (clean_cluster d) as [c|e]; [|contradiction]. cbn.
      apply IH. intros; apply H; [now right | easy].
    + cbn. apply IH. intros; apply H; [now right | easy].
Qed.

Lemma first_pass_survivors (data : list cluster_info) (cleaned_data : list cluster) :
  first_pass data = Ok cleaned_data ->
  Forall2 (fun d c => clean_cluster d = Ok c)
          (filter (fun d => 10 < radius_meters d) data) cleaned_data.
Proof.
  intros H. apply first_pass_loop in H as (cs & -> & H). exact H.
Qed.

Lemma first_pass_total (data : list cluster_info) :
  (forall a b, 0 <= haversine_distance a b) ->
  (forall d, d ∈ data -> 10 < radius_meters d ->
             Forall (fun i => (i < vcount g)%nat) (members d)) ->
  exists cleaned_data, first_pass data = Ok cleaned_data.
Proof.
  intros Hd Hm. apply first_pass_loop_total. intros d Hin Hr.
  destruct (clean_cluster_ok d Hd (Hm d Hin Hr)) as (c & ->). exact I.
Qed.

Lemma first_pass_none (data : list cluster_info) :
  filter (fun d => 10 < radius_meters d) data = [] ->
  first_pass data = Ok [].
Proof.
  intros Hnone.
  destruct (first_pass_loop_total data []) as (res & E).
  { intros d Hin Hr. exfalso.
    assert (Hd : d ∈ filter (fun d => 10 < radius_meters d) data).
    { apply list_elem_of_filter. easy. }
    rewrite Hnone in Hd. inversion Hd. }
  pose proof (first_pass_survivors data res E) as H.
  rewrite Hnone in H. inversion H; subst. exact E.
Qed.

Lemma normalize_ids (cleaned_data out : list cluster) :
  normalize cleaned_data = Ok out -> map id out = map id cleaned_data.
Proof.
  destruct cleaned_data as [|c0 l] eqn:El; [discriminate|]. rewrite <- El.
  assert (Hne : cleaned_data <> []) by (subst; discriminate).
  destruct (normalize_ok cleaned_data Hne)
    as (m & s & min_z & max_z & _ & _ & _ & _ & _ & _ & _ & _ & ->).
  cbv zeta. intros [= <-].
  set (zs := map (z_of m s) (map accessibility_score cleaned_data)).
  assert (Hlen : length zs = length cleaned_data).
  { subst zs. now rewrite !length_map. }
  clearbody zs. clear El Hne. revert zs Hlen.
  induction cleaned_data as [|c cs IH]; intros [|z zs] Hlen;
    try discriminate; [reflexivity|].
  cbn. f_equal. apply IH. simpl in Hlen. lia.
Qed.
End FirstPass.

Section RawScoreClaim.
Import Igraph CleanClusterData.
#[local] Open Scope R_scope.

Lemma diversity_index_singleton (k : string) (n : nat) :
  (0 < n)%nat -> calculate_diversity_index {[ k := n ]} = Ok (1 / INR n).
Proof.
  intros Hn. unfold calculate_diversity_index, Py.sum_values.
  rewrite map_to_list_singleton.
  cbn [fmap list_fmap snd sum_list sum_list_with]. rewrite Nat.add_0_r.
  unfold Datatypes.id.
  apply Nat.ltb_lt in Hn as Hb. rewrite Hb.
  rewrite truediv_ok by (apply not_0_INR; lia).
  rewrite filter_cons, decide_True by (cbn; lia).
  reflexivity.
Qed.

(** The raw score as the first loop forms and stores it. *)
Lemma clean_cluster_score
      (haversine_distance : coord -> coord -> R)
      (subgraph : Graph -> list nat -> Graph) (degree : Graph -> list nat)
      (transitivity_undirected : Graph -> R) (g : Graph)
      (d : cluster_info) (c : cluster) :
  clean_cluster haversine_distance subgraph degree transitivity_undirected g d
  = Ok c ->
  exists cs proximity_factor diversity_index,
    read_member_coordinates g (members d) = Ok cs /\
    calculate_proximity_factor haversine_distance cs = Ok proximity_factor /\
    calculate_diversity_index (feature_counts d) = Ok diversity_index /\
    accessibility_score c = Py.round (proximity_factor + diversity_index) 4.
Proof.
  intros H. unfold clean_cluster in H. cbv zeta in H.
  apply bind_ok in H as (cs & Hcs & H).
  apply bind_ok in H as (p & Hp & H).
  apply bind_ok in H as (dv & Hdv & H).
  apply bind_ok in H as (a & _ & H).
  apply bind_ok in H as (r & _ & H).
  injection H as <-. exists cs, p, dv. easy.
Qed.

(** C10.  Whenever the great-circle distance is never negative, the two
    score functions return: the mean pairwise distance is at least 0, and
    is 0 for fewer than two members; the proximity factor lies in (0, 1];
    the diversity index lies in [0, 1]; so their sum, the raw
    accessibility score, lies in (0, 2], and the value stored for the
    normalization pass, its rounding to four digits, lies in [0, 2].  The
    first loop cleans every entry whose members are vertices of the graph,
    and the score it stores in a cleaned record is that rounded sum, of the
    proximity factor of the members' coordinates and the diversity index of
    the entry's feature counts. *)
Theorem raw_score_bounds
    (haversine_distance : coord -> coord -> R)
    (member_coordinates : list coord) (counts : gmap string nat) :
  (forall a b, 0 <= haversine_distance a b) ->
  (exists mean_distance proximity_factor diversity_index,
     calculate_mean_pairwise_distance haversine_distance member_coordinates
       = Ok mean_distance /\
     calculate_proximity_factor haversine_distance member_coordinates
       = Ok proximity_factor /\
     calculate_diversity_index counts = Ok diversity_index /\
     0 <= mean_distance /\
     ((length member_coordinates < 2)%nat -> mean_distance = 0) /\
     0 < proximity_factor <= 1 /\
     0 <= diversity_index <= 1 /\
     0 < proximity_factor + diversity_index <= 2 /\
     0 <= Py.round (proximity_factor + diversity_index) 4 <= 2 /\
     proximity_factor = 1 / (1 + mean_distance)) /\
  (forall subgraph degree transitivity_undirected g d,
     Forall (fun i => (i < vcount g)%nat) (members d) ->
     exists c,
       clean_cluster haversine_distance subgraph degree
         transitivity_undirected g d = Ok c) /\
  (forall subgraph degree transitivity_undirected g d c,
     clean_cluster haversine_distance subgraph degree
       transitivity_undirected g d = Ok c ->
     exists cs proximity_factor diversity_index,
       read_member_coordinates g (members d) = Ok cs /\
       calculate_proximity_factor haversine_distance cs
         = Ok proximity_factor /\
       calculate_diversity_index (feature_counts d) = Ok diversity_index /\
       accessibility_score c
         = Py.round (proximity_factor + diversity_index) 4 /\
       0 < proximity_factor + diversity_index <= 2 /\
       0 <= accessibility_score c <= 2).
Proof.
  intros Hd. split; [|split].
  - destruct (mean_pairwise_distance_ok _ Hd member_coordinates)
      as (m & Em & Hm & Hm0).
    destruct (proximity_factor_ok _ Hd member_coordinates) as (p & Ep & Hp & _).
    destruct (diversity_index_ok counts) as (dv & Ed & Hdv).
    exists m, p, dv.
    split; [exact Em|]. split; [exact Ep|]. split; [exact Ed|].
    split; [exact Hm|]. split; [exact Hm0|]. split; [exact Hp|].
    split; [exact Hdv|]. split; [lra|].
    split; [apply (round_between 0 2); lra|].
    unfold calculate_proximity_factor in Ep. rewrite Em in Ep.
    cbn [mbind result_bind] in Ep. rewrite truediv_ok in Ep by lra.
    now injection Ep as <-.
  - intros subgraph degree transitivity_undirected g d Hm.
    now apply clean_cluster_ok.
  - intros subgraph degree transitivity_undirected g d c H.
    apply clean_cluster_score in H as (cs & p & dv & Hcs & Ep & Ed & Hscore).
    destruct (proximity_factor_ok _ Hd cs) as (p' & Ep' & Hp & _).
    destruct (diversity_index_ok (feature_counts d)) as (dv' & Ed' & Hdv).
    assert (p' = p) by congruence. assert (dv' = dv) by congruence.
    subst p' dv'.
    exists cs, p, dv.
    split; [exact Hcs|]. split; [exact Ep|]. split; [exact Ed|].
    split; [exact Hscore|]. split; [lra|].
    rewrite Hscore. apply (round_between 0 2). lra.
Qed.
End RawScoreClaim.

Section ScorerClaims.
Import Igraph CleanClusterData.
#[local] Open Scope R_scope.

Variable haversine_distance : coord -> coord -> R.
Variable subgraph : Graph -> list nat -> Graph.
Variable degree : Graph -> list nat.
Variable transitivity_undirected : Graph -> R.
Variable g : Graph.

#[local] Abbreviation clean_cluster :=
  (clean_cluster haversine_distance subgraph degree transitivity_undirected g).
#[local] Abbreviation first_pass :=
  (first_pass haversine_distance subgraph degree transitivity_undirected g).
#[local] Abbreviation main :=
  (main haversine_distance subgraph degree transitivity_undirected g).

(** C2, what the script does.  When no entry has a radius above 10 the
    first pass ends with an empty list, [min(z_scores)] is called on an
    empty list, and the script ends with [ValueError]: nothing is written. *)
Theorem empty_batch_raises (data : list cluster_info) :
  filter (fun d => 10 < radius_meters d) data = [] ->
  first_pass data = Ok [] /\
  mean_of [] = Ok 0 /\ std_dev_of [] 0 = Ok 0 /\ z_scores_of [] = Ok [] /\
  normalize [] = Raise ValueError /\
  main data = Raise ValueError.
Proof.
  intros H. pose proof (first_pass_none haversine_distance subgraph degree
                          transitivity_undirected g data H) as E.
  repeat split; try reflexivity; [exact E|].
  unfold CleanClusterData.main. rewrite E. reflexivity.
Qed.

(** C7.  The records that reach the scoring code are exactly the entries
    whose radius is above 10, in their order; an entry with a radius of 10
    or less takes no part in the scores or in the normalization.  Whatever
    the script writes is, record by record, the list of those entries; and
    the script does write when at least one entry passes, the members of
    the passing entries are vertices of the graph and distances are not
    negative. *)
Theorem minimum_radius_filter (data : list cluster_info) :
  (forall cleaned_data, first_pass data = Ok cleaned_data ->
     Forall2 (fun d c => clean_cluster d = Ok c /\ id c = cluster_id d)
             (filter (fun d => 10 < radius_meters d) data) cleaned_data /\
     main data = normalize cleaned_data) /\
  (forall out, main data = Ok out ->
     exists cleaned_data,
       first_pass data = Ok cleaned_data /\
       normalize cleaned_data = Ok out /\
       Forall2 (fun d c => id c = cluster_id d)
               (filter (fun d => 10 < radius_meters d) data) out) /\
  ((forall a b, 0 <= haversine_distance a b) ->
   (forall d, d ∈ data -> 10 < radius_meters d ->
              Forall (fun i => (i < vcount g)%nat) (members d)) ->
   (exists d, d ∈ data /\ 10 < radius_meters d) ->
   exists out, main data = Ok out /\
               map id out =
               map cluster_id (filter (fun d => 10 < radius_meters d) data)).
Proof.
  assert (Hsurv : forall cleaned_data, first_pass data = Ok cleaned_data ->
            Forall2 (fun d c => clean_cluster d = Ok c /\ id c = cluster_id d)
              (filter (fun d => 10 < radius_meters d) data) cleaned_data).
  { intros cleaned_data H%first_pass_survivors.
    eapply Forall2_impl; [exact H|]. intros d c Hc. split; [exact Hc|].
    eapply clean_cluster_id, Hc. }
  assert (Hids : forall cleaned_data, first_pass data = Ok cleaned_data ->
            map id cleaned_data =
            map cluster_id (filter (fun d => 10 < radius_meters d) data)).
  { intros cleaned_data H%Hsurv. clear Hsurv.
    induction H as [|d c l k [_ Hid] _ IH]; [reflexivity|].
    cbn. now rewrite Hid, IH. }
  split; [|split].
  - intros cleaned_data H. split; [now apply Hsurv|].
    unfold CleanClusterData.main. now rewrite H.
  - intros out H. unfold CleanClusterData.main in H.
    apply bind_ok in H as (cleaned_data & Hfirst & Hnorm).
    exists cleaned_data. split; [exact Hfirst|]. split; [exact Hnorm|].
    apply normalize_ids in Hnorm. apply Hids in Hfirst.
    rewrite <- Hnorm in Hfirst. clear Hnorm.
    revert Hfirst. generalize (filter (fun d => 10 < radius_meters d) data).
    induction out as [|c out IH]; intros [|d l] E; try discriminate;
      constructor.
    + now injection E.
    + apply IH. now injection E.
  - intros Hd Hm (d & Hin & Hr).
    destruct (first_pass_total haversine_distance subgraph degree
                transitivity_undirected g data Hd Hm) as (cleaned_data & E).
    assert (Hne : cleaned_data <> []).
    { intros ->. apply Hids in E. symmetry in E. apply map_eq_nil in E.
      assert (Hd' : d ∈ filter (fun d => 10 < radius_meters d) data).
      { apply list_elem_of_filter. easy. }
      rewrite E in Hd'. inversion Hd'. }
    destruct (normalize_ok cleaned_data Hne)
      as (m & s & min_z & max_z & _ & _ & _ & _ & _ & _ & _ & _ & Hn).
    cbv zeta in Hn. eexists. split.
    + unfold CleanClusterData.main. rewrite E. cbn. exact Hn.
    + rewrite <- (Hids _ E). now apply normalize_ids.
Qed.
End ScorerClaims.

(** ** Feature counts of [analysis.py] *)

Section FeatureCounts.
Import Igraph Analysis.

Variable g : Graph.

Lemma sum_values_empty : Py.sum_values (∅ : gmap string nat) = 0.
Proof. unfold Py.sum_values. now rewrite map_to_list_empty. Qed.

Lemma sum_values_insert_fresh (m : gmap string nat) (k : string) (n : nat) :
  m !! k = None -> Py.sum_values (<[k := n]> m) = n + Py.sum_values m.
Proof.
  intros H. unfold Py.sum_values.
  now rewrite (map_to_list_insert m k n H).
Qed.

Lemma sum_values_increment (m : gmap string nat) (k : string) (n : nat) :
  m !! k = Some n ->
  Py.sum_values (<[k := n + 1]> m) = Py.sum_values m + 1.
Proof.
  intros H.
  rewrite <- (insert_delete_eq m k (n + 1)).
  rewrite <- (insert_delete_id m k n H) at 2.
  rewrite !sum_values_insert_fresh by apply lookup_delete_eq. lia.
Qed.

Lemma initial_feature_counts_dom :
  dom initial_feature_counts = list_to_set feature_types.
Proof.
  unfold initial_feature_counts. rewrite dom_list_to_map_L.
  now rewrite <- list_fmap_compose.
Qed.

Lemma initial_feature_counts_lookup (f : string) (n : nat) :
  initial_feature_counts !! f = Some n -> n = 0.
Proof.
  unfold initial_feature_counts. intros H.
  apply elem_of_list_to_map_2 in H.
  apply list_elem_of_fmap in H as (f' & [= _ ->] & _). reflexivity.
Qed.

Lemma initial_feature_counts_sum : Py.sum_values initial_feature_counts = 0.
Proof.
  unfold initial_feature_counts, feature_types. cbn [map list_to_map foldr].
  repeat (rewrite sum_values_insert_fresh; [|vm_compute; reflexivity]).
  apply sum_values_empty.
Qed.

(** The invariant of the counting loop. *)
Lemma count_loop (cluster_indices : list nat) (acc fc : gmap string nat) :
  dom acc = list_to_set feature_types ->
  foldM (count_feature g) cluster_indices acc = Ok fc ->
  dom fc = list_to_set feature_types /\
  Py.sum_values fc =
  Py.sum_values acc + length (filter (known_feature g) cluster_indices).
Proof.
  revert acc. induction cluster_indices as [|idx l IH]; intros acc Hdom H.
  - injection H as <-. cbn. split; [easy | lia].
  - cbn [foldM] in H. apply bind_ok in H as (acc' & Hstep & H).
    apply bind_ok in Hstep as (v & Hv & Hstep).
    unfold Py.getitem in Hv.
    destruct (vs g !! idx) as [v'|] eqn:Ev; [|discriminate].
    injection Hv as ->. rewrite filter_cons.
    destruct (acc !! feature_type v) as [n|] eqn:En;
      injection Hstep as <-.
    + destruct (IH _ ltac:(rewrite dom_insert_lookup_L; eauto) H) as [Hd Hs].
      split; [exact Hd|]. rewrite Hs, (sum_values_increment _ _ _ En).
      rewrite decide_True; [cbn; lia|].
      exists v. split; [exact Ev|].
      apply (elem_of_list_to_set (C := gset string)). rewrite <- Hdom.
      apply elem_of_dom. eauto.
    + destruct (IH _ Hdom H) as [Hd Hs].
      split; [exact Hd|]. rewrite Hs.
      rewrite decide_False; [reflexivity|].
      intros (v' & Hv' & Hin). rewrite Ev in Hv'. injection Hv' as <-.
      apply (elem_of_list_to_set (C := gset string)) in Hin.
      rewrite <- Hdom in Hin. apply elem_of_dom in Hin as [n Hn]. congruence.
Qed.

Lemma count_features_spec (cluster_indices : list nat) (fc : gmap string nat) :
  count_features g cluster_indices = Ok fc ->
  dom fc = list_to_set feature_types /\
  Py.sum_values fc = length (filter (known_feature g) cluster_indices).
Proof.
  intros H. apply count_loop in H as [Hd Hs];
    [|apply initial_feature_counts_dom].
  split; [exact Hd|]. now rewrite Hs, initial_feature_counts_sum.
Qed.

Lemma count_features_ok (cluster_indices : list nat) :
  Forall (fun i => i < vcount g) cluster_indices ->
  exists fc, count_features g cluster_indices = Ok fc.
Proof.
  unfold count_features. generalize (initial_feature_counts).
  induction cluster_indices as [|idx l IH]; intros acc H; [cbn; eauto|].
  inversion H as [|? ? Hidx Hl]; subst. cbn [foldM].
  destruct (lookup_lt_is_Some_2 (vs g) idx Hidx) as [v Hv].
  assert (E : exists acc', count_feature g acc idx = Ok acc').
  { unfold count_feature, Py.getitem. rewrite Hv. cbn.
    destruct (acc !! feature_type v); eauto. }
  destruct E as [acc' ->]. cbn. apply IH, Hl.
Qed.

(** The counting loop, category by category: a category that is a key
    gains one for every member of that type, and nothing else changes. *)
Lemma count_loop_lookup (cluster_indices : list nat)
      (acc fc : gmap string nat) (f : string) :
  foldM (count_feature g) cluster_indices acc = Ok fc ->
  fc !! f
  = (fun n => n + length (filter (fun i => feature_type <$> vs g !! i = Some f)
                                 cluster_indices))
      <$> acc !! f.
Proof.
  revert acc. induction cluster_indices as [|idx l IH]; intros acc H.
  - injection H as <-. cbn [filter list_filter length].
    destruct (acc !! f) as [n|]; cbn; [f_equal; lia | reflexivity].
  - cbn [foldM] in H. apply bind_ok in H as (acc' & Hstep & H).
    apply bind_ok in Hstep as (v & Hv & Hstep).
    unfold Py.getitem in Hv.
    destruct (vs g !! idx) as [v'|] eqn:Ev; [|discriminate].
    injection Hv as ->. rewrite (IH _ H), filter_cons, Ev.
    cbn [fmap option_fmap option_map].
    destruct (decide (feature_type v = f)) as [<-|Hne].
    + rewrite decide_True by reflexivity.
      destruct (acc !! feature_type v) as [n|] eqn:En;
        injection Hstep as <-.
      * rewrite lookup_insert_eq. cbn. f_equal. lia.
      * rewrite En. reflexivity.
    + rewrite decide_False by congruence.
      destruct (acc !! feature_type v) as [n|] eqn:En;
        injection Hstep as <-; [|reflexivity].
      rewrite lookup_insert_ne by exact Hne. reflexivity.
Qed.

Lemma initial_feature_counts_zero (f : string) :
  f ∈ feature_types -> initial_feature_counts !! f = Some 0.
Proof.
  intros Hf. apply (elem_of_list_to_set (C := gset string)) in Hf.
  rewrite <- initial_feature_counts_dom in Hf.
  apply elem_of_dom in Hf as [n Hn].
  now rewrite Hn, (initial_feature_counts_lookup f n Hn).
Qed.

Lemma count_features_lookup (cluster_indices : list nat)
      (fc : gmap string nat) (f : string) :
  count_features g cluster_indices = Ok fc ->
  f ∈ feature_types ->
  fc !! f
  = Some (length (filter (fun i => feature_type <$> vs g !! i = Some f)
                         cluster_indices)).
Proof.
  intros H Hf. unfold count_features in H.
  rewrite (count_loop_lookup _ _ _ f H), (initial_feature_counts_zero f Hf).
  reflexivity.
Qed.
End FeatureCounts.

Section ClusterMetrics.
Import Igraph Analysis.
#[local] Open Scope R_scope.

Variable haversine_distance : coord -> coord -> R.
Variable g : Graph.

Lemma cluster_coords_ok (cluster_indices : list nat) :
  Forall (fun i => (i < vcount g)%nat) cluster_indices ->
  exists cs, mapM (Py.getitem (coordinates g)) cluster_indices = Ok cs /\
             length cs = length cluster_indices.
Proof.
  intros H.
  destruct (mapM_total (Py.getitem (coordinates g)) cluster_indices) as [cs E].
  { intros i Hi. rewrite Forall_forall in H. specialize (H i Hi).
    unfold Py.getitem.
    destruct (lookup_lt_is_Some_2 (coordinates g) i) as [c ->]; [|exact I].
    unfold coordinates. now rewrite length_map. }
  exists cs. split; [exact E|].
  apply mapM_ok_Forall2, Forall2_length in E. lia.
Qed.

Lemma calculate_cluster_metrics_ok (cluster_indices : list nat) :
  cluster_indices <> [] ->
  Forall (fun i => (i < vcount g)%nat) cluster_indices ->
  exists centroid max_distance feature_counts,
    calculate_cluster_metrics haversine_distance g cluster_indices
    = Ok (centroid, max_distance, feature_counts).
Proof.
  intros Hne Hvalid. unfold calculate_cluster_metrics.
  destruct (cluster_coords_ok _ Hvalid) as (cs & Ecs & Hlen).
  destruct (max_ok (map (haversine_distance
                           (np_mean (map fst cs), np_mean (map snd cs))) cs))
    as (r & Er & _).
  { destruct cs; [|discriminate]. destruct cluster_indices; [easy|discriminate]. }
  destruct (count_features_ok g _ Hvalid) as (fc & Efc).
  eexists _, r, fc.
  eapply bind_intro; [exact Ecs|]. cbv zeta.
  eapply bind_intro; [exact Er|].
  eapply bind_intro; [exact Efc|]. reflexivity.
Qed.

Lemma calculate_cluster_metrics_counts
      (cluster_indices : list nat) (centroid : coord) (max_distance : R)
      (fc : gmap string nat) :
  calculate_cluster_metrics haversine_distance g cluster_indices
  = Ok (centroid, max_distance, fc) ->
  count_features g cluster_indices = Ok fc.
Proof.
  unfold calculate_cluster_metrics. intros H.
  apply bind_ok in H as (cs & _ & H). cbv zeta in H.
  apply bind_ok in H as (r & _ & H).
  apply bind_ok in H as (fc' & Hfc & [= _ _ <-]). exact Hfc.
Qed.

(** C4, as the code has it.  For a non-empty cluster of vertices of the
    graph the calculator returns; and whenever it returns, the mapping has
    exactly the twelve categories as keys, every count is a natural
    number, and the counts add up to the number of members whose feature
    type is one of the twelve: never more than the member count, and
    equal to it when every member's type is among the twelve.  The count
    of each category is the number of members of that type, so a category
    that no member has is there with count 0. *)
Theorem feature_count_completeness (cluster_indices : list nat) :
  (cluster_indices <> [] ->
   Forall (fun i => (i < vcount g)%nat) cluster_indices ->
   exists centroid max_distance fc,
     calculate_cluster_metrics haversine_distance g cluster_indices
     = Ok (centroid, max_distance, fc)) /\
  (forall centroid max_distance (fc : gmap string nat),
     calculate_cluster_metrics haversine_distance g cluster_indices
     = Ok (centroid, max_distance, fc) ->
     dom fc = list_to_set feature_types /\
     size fc = 12%nat /\
     (forall f, f ∈ feature_types -> exists n : nat, fc !! f = Some n /\ (0 <= n)%nat) /\
     Py.sum_values fc = length (filter (known_feature g) cluster_indices) /\
     (Py.sum_values fc <= length cluster_indices)%nat /\
     (Forall (known_feature g) cluster_indices ->
      Py.sum_values fc = length cluster_indices) /\
     (forall f, f ∈ feature_types ->
        fc !! f
        = Some (length (filter (fun i => feature_type <$> vs g !! i = Some f)
                               cluster_indices))) /\
     (forall f, f ∈ feature_types ->
        (forall i v, i ∈ cluster_indices -> vs g !! i = Some v ->
                     feature_type v <> f) ->
        fc !! f = Some 0%nat)).
Proof.
  split; [apply calculate_cluster_metrics_ok|].
  intros centroid max_distance fc H%calculate_cluster_metrics_counts.
  assert (Hcount : forall f, f ∈ feature_types ->
            fc !! f
            = Some (length (filter (fun i => feature_type <$> vs g !! i = Some f)
                                   cluster_indices))).
  { intros f Hf. exact (count_features_lookup g _ _ f H Hf). }
  apply count_features_spec in H as [Hdom Hsum].
  split; [exact Hdom|].
  split; [|split; [|split; [exact Hsum|split; [|split; [|split]]]]];
    [| | | |exact Hcount|].
  - rewrite <- size_dom, Hdom. vm_compute. reflexivity.
  - intros f Hf.
    apply (elem_of_list_to_set (C := gset string)) in Hf.
    rewrite <- Hdom in Hf. apply elem_of_dom in Hf as [n Hn].
    exists n. split; [exact Hn | lia].
  - rewrite Hsum. apply length_filter.
  - intros Hall. rewrite Hsum. f_equal.
    clear Hsum Hcount. induction Hall as [|i l Hi Hl IH]; [reflexivity|].
    rewrite filter_cons, decide_True by exact Hi. now f_equal.
  - intros f Hf Hnone. rewrite (Hcount f Hf). f_equal.
    clear Hcount Hsum.
    induction cluster_indices as [|i l IH]; [reflexivity|].
    rewrite filter_cons.
    destruct (vs g !! i) as [v|] eqn:Ev; cbn [fmap option_fmap option_map].
    + rewrite decide_False.
      * apply IH. intros j w Hj. apply Hnone. now right.
      * intros [= E]. apply (Hnone i v); [left | exact Ev | exact E].
    + rewrite decide_False by discriminate.
      apply IH. intros j w Hj. apply Hnone. now right.
Qed.
End ClusterMetrics.

Section ClusterMetricsExamples.
Import Igraph Analysis Examples.
#[local] Open Scope R_scope.

(** C4, as the specification has it, fails: the only member of the cluster
    [[0]] of [g_bench] is not counted, the counts add up to 0 and the
    member count is 1. *)
Lemma unknown_feature_not_counted :
  exists centroid max_distance fc,
    calculate_cluster_metrics taxicab g_bench [0%nat]
    = Ok (centroid, max_distance, fc) /\
    Py.sum_values fc = 0%nat /\
    length [0%nat] = 1%nat /\
    Py.sum_values fc <> length [0%nat].
Proof.
  destruct (calculate_cluster_metrics_ok taxicab g_bench [0%nat])
    as (c & r & fc & E).
  { discriminate. }
  { repeat constructor. }
  exists c, r, fc. split; [exact E|].
  apply calculate_cluster_metrics_counts, count_features_spec in E as [_ Hs].
  assert (H0 : Py.sum_values fc = 0%nat).
  { rewrite Hs. vm_compute. reflexivity. }
  rewrite H0. repeat split; discriminate.
Qed.
End ClusterMetricsExamples.

(** ** Communities and cluster records of [analysis.py] *)

Section Classes.
Context {A : Type} (P : nat -> A -> Prop) {Pdec : forall i x, Decision (P i x)}.



End Classes.

Section Partition.
Import Igraph Analysis.
#[local] Open Scope R_scope.

Variable clusters : VertexClustering.



Lemma cluster_at_members (v i : nat) :
  v ∈ cluster_at clusters i <-> membership clusters !! v = Some i.
Proof.
  unfold cluster_at. rewrite list_elem_of_filter, elem_of_seq. split.
  - now intros [H _].
  - intros H. split; [exact H|]. apply lookup_lt_Some in H. lia.
Qed.

Lemma enumerate_clusters_lookup (i : nat) (ic : nat * list nat) :
  enumerate_clusters clusters !! i = Some ic ->
  ic = (i, cluster_at clusters i) /\ (i < n_clusters clusters)%nat.
Proof.
  unfold enumerate_clusters. intros H.
  apply list_lookup_fmap_Some in H as (j & -> & Hj).
  apply lookup_seq in Hj as [-> Hlt]. easy.
Qed.
End Partition.

Section ClusterData.
Import Igraph Analysis.
#[local] Open Scope R_scope.

Variable haversine_distance : coord -> coord -> R.
Variable community_multilevel : Graph -> VertexClustering.
Variable subgraph : Graph -> list nat -> Graph.
Variables diameter average_path_length density transitivity_undirected
  : Graph -> metric.
Variable g : Graph.

#[local] Abbreviation cluster_info_of :=
  (cluster_info_of haversine_distance subgraph diameter average_path_length
                   density transitivity_undirected g).
#[local] Abbreviation cluster_data :=
  (cluster_data haversine_distance community_multilevel subgraph diameter
                average_path_length density transitivity_undirected g).

Lemma cluster_info_of_fields (i : nat) (cluster : list nat) (rec : cluster_info) :
  cluster_info_of (i, cluster) = Ok rec ->
  cluster_id rec = (i + 1)%nat /\ members rec = cluster.
Proof.
  unfold Analysis.cluster_info_of. intros H.
  apply bind_ok in H as ([[c r] fc] & _ & H).
  injection H as <-. easy.
Qed.

Lemma cluster_info_of_ok (i : nat) (cluster : list nat) :
  cluster <> [] ->
  Forall (fun v => (v < vcount g)%nat) cluster ->
  exists rec, cluster_info_of (i, cluster) = Ok rec.
Proof.
  intros Hne Hvalid. unfold Analysis.cluster_info_of.
  destruct (calculate_cluster_metrics_ok haversine_distance g cluster Hne Hvalid)
    as (c & r & fc & ->).
  cbn. eauto.
Qed.

Lemma cluster_data_records (recs : list cluster_info) :
  cluster_data = Ok recs ->
  length recs = n_clusters (community_multilevel g) /\
  forall i rec, recs !! i = Some rec ->
    cluster_id rec = (i + 1)%nat /\
    members rec = cluster_at (community_multilevel g) i.
Proof.
  unfold Analysis.cluster_data. intros H%mapM_ok_Forall2. split.
  - apply Forall2_length in H. rewrite <- H. unfold enumerate_clusters.
    now rewrite length_map, length_seq.
  - intros i rec Hrec.
    destruct (Forall2_lookup_r _ _ _ _ _ H Hrec) as (ic & Hic & Hok).
    apply enumerate_clusters_lookup in Hic as [-> _].
    now apply cluster_info_of_fields in Hok.
Qed.

Lemma cluster_data_ids (recs : list cluster_info) :
  cluster_data = Ok recs ->
  map cluster_id recs = seq 1 (n_clusters (community_multilevel g)).
Proof.
  intros [Hlen Hrec]%cluster_data_records.
  apply list_eq. intros i. rewrite list_lookup_fmap.
  destruct (recs !! i) as [rec|] eqn:E; cbn.
  - destruct (Hrec i rec E) as [-> _]. symmetry. apply lookup_seq.
    apply lookup_lt_Some in E. split; lia.
  - symmetry. apply lookup_ge_None. apply lookup_ge_None in E.
    rewrite length_seq. lia.
Qed.


Lemma cluster_data_ok :
  length (membership (community_multilevel g)) = vcount g ->
  (forall i, (i < n_clusters (community_multilevel g))%nat ->
             cluster_at (community_multilevel g) i <> []) ->
  exists recs, cluster_data = Ok recs.
Proof.
  intros Hlen Hdense. apply mapM_total. intros [i cl] Hin.
  apply list_elem_of_lookup in Hin as [j Hj].
  apply enumerate_clusters_lookup in Hj as [[= -> ->] Hlt].
  destruct (cluster_info_of_ok j (cluster_at (community_multilevel g) j))
    as [rec Hrec].
  - now apply Hdense.
  - apply Forall_forall. intros v Hv%cluster_at_members.
    apply lookup_lt_Some in Hv. lia.
  - now rewrite Hrec.
Qed.
End ClusterData.

Section PartitionClaim.
Import Igraph Analysis.
#[local] Open Scope R_scope.

Variable haversine_distance : coord -> coord -> R.
Variable community_multilevel : Graph -> VertexClustering.
Variable subgraph : Graph -> list nat -> Graph.
Variables diameter average_path_length density transitivity_undirected
  : Graph -> metric.
Variable g : Graph.

#[local] Abbreviation cluster_data :=
  (cluster_data haversine_distance community_multilevel subgraph diameter
                average_path_length density transitivity_undirected g).

End PartitionClaim.

Section PartitionExamples.
Import Igraph Analysis Examples.
#[local] Open Scope R_scope.

Lemma two_communities_dense (i : nat) :
  (i < n_clusters (two_communities g_three))%nat ->
  cluster_at (two_communities g_three) i <> [].
Proof.
  intros Hi. change (n_clusters (two_communities g_three)) with 2%nat in Hi.
  destruct i as [|[|i]]; [discriminate | discriminate | lia].
Qed.

(** With two communities the recorded ids are 1 and 2. *)
Lemma cluster_ids_start_at_one :
  exists recs,
    cluster_data taxicab two_communities whole_graph
                 no_metric no_metric no_metric no_metric g_three = Ok recs /\
    map cluster_id recs = [1; 2]%nat /\
    map cluster_id recs <> seq 0 (length recs).
Proof.
  destruct (cluster_data_ok taxicab two_communities whole_graph
              no_metric no_metric no_metric no_metric g_three)
    as [recs E]; [reflexivity | exact two_communities_dense |].
  exists recs. split; [exact E|].
  pose proof (cluster_data_ids _ _ _ _ _ _ _ _ _ E) as Hids.
  change (n_clusters (two_communities g_three)) with 2%nat in Hids.
  split; [exact Hids|].
  rewrite <- (length_map cluster_id), Hids. discriminate.
Qed.

End PartitionExamples.

(** ** [network_gen.py]: ingestion *)

Section Ingestion.
Import Igraph NetworkGen.
#[local] Open Scope R_scope.

Lemma ingest_elements (feature : string) (elements : list element)
      (coordinates : list coord) (feature_types : list string) :
  fold_left (ingest_item feature) elements (coordinates, feature_types)
  = (coordinates ++ map (fun item => (lat item, lon item)) elements,
     feature_types ++ map (fun _ => feature) elements).
Proof.
  revert coordinates feature_types.
  induction elements as [|item l IH]; intros cs fs; cbn.
  - now rewrite !app_nil_r.
  - rewrite IH, <- !app_assoc. reflexivity.
Qed.

Lemma ingest_loop (data : facilities) (coordinates : list coord)
      (feature_types : list string) :
  fold_left ingest_feature data (coordinates, feature_types)
  = (coordinates ++ map fst (all_records data),
     feature_types ++ map snd (all_records data)).
Proof.
  revert coordinates feature_types.
  induction data as [|[feature elements] data IH]; intros cs fs.
  - cbn. now rewrite !app_nil_r.
  - cbn [fold_left all_records flat_map ingest_feature].
    fold (all_records data).
    assert (E : (if negb (length elements =? 0)%nat
                 then fold_left (ingest_item feature) elements (cs, fs)
                 else (cs, fs))
                = (cs ++ map (fun item => (lat item, lon item)) elements,
                   fs ++ map (fun _ => feature) elements)).
    { destruct elements; [cbn; now rewrite !app_nil_r|].
      apply ingest_elements. }
    rewrite E, IH, <- !app_assoc, !map_app, !map_map. reflexivity.
Qed.

Lemma lookup_map_pair {A B : Type} (l : list (A * B)) (i : nat) (a : A) (b : B) :
  l !! i = Some (a, b) -> map fst l !! i = Some a /\ map snd l !! i = Some b.
Proof. intros H. now rewrite !list_lookup_fmap, H. Qed.

Lemma ingest_all_records (data : facilities) :
  ingest data = (map fst (all_records data), map snd (all_records data)).
Proof. exact (ingest_loop data [] []). Qed.

Lemma ingest_lengths (data : facilities) :
  length (ingest data).1 = length (ingest data).2.
Proof. rewrite ingest_all_records. cbn. now rewrite !length_map. Qed.

(** C8, as the code has it.  The ingestion loop cannot fail and keeps
    every element of every entry: the coordinates are the [(lat, lon)]
    pairs as they came, the feature types are the keys they came under,
    in the order of the file, one of each per element; no latitude,
    longitude or key is tested or changed. *)
Theorem ingest_keeps_every_record (data : facilities) :
  ingest data = (map fst (all_records data), map snd (all_records data)) /\
  length (ingest data).1 = length (ingest data).2 /\
  (forall feature elements item,
     (feature, elements) ∈ data -> item ∈ elements ->
     exists i, (ingest data).1 !! i = Some (lat item, lon item) /\
               (ingest data).2 !! i = Some feature).
Proof.
  rewrite ingest_all_records. cbn [fst snd].
  split; [reflexivity|]. split; [now rewrite !length_map|].
  intros feature elements item Hd Hi.
  assert (Hin : ((lat item, lon item), feature) ∈ all_records data).
  { unfold all_records. apply list_elem_of_In, in_flat_map.
    exists (feature, elements). split; [now apply list_elem_of_In|].
    apply in_map_iff. exists item. split; [reflexivity|].
    now apply list_elem_of_In. }
  apply list_elem_of_lookup in Hin as [i Hi'].
  exists i. exact (lookup_map_pair _ _ _ _ Hi').
Qed.
End Ingestion.

(** ** [network_gen.py]: triangulation and edges *)

Section Triangulation.
Import Igraph NetworkGen.
#[local] Open Scope R_scope.

Lemma flat_true_iff (points : list coord) :
  flat points = true <->
  forall p q r, p ∈ points -> q ∈ points -> r ∈ points -> cross p q r = 0.
Proof.
  unfold flat. rewrite forallb_forall. split.
  - intros H p q r Hp%list_elem_of_In Hq%list_elem_of_In Hr%list_elem_of_In.
    specialize (H p Hp). rewrite forallb_forall in H.
    specialize (H q Hq). rewrite forallb_forall in H.
    specialize (H r Hr). now destruct (Req_dec_T (cross p q r) 0).
  - intros H p Hp. apply forallb_forall. intros q Hq.
    apply forallb_forall. intros r Hr.
    destruct (Req_dec_T (cross p q r) 0) as [|Hne]; [reflexivity|].
    exfalso. apply Hne, H; now apply list_elem_of_In.
Qed.

Lemma cross_repeat (p q : coord) :
  cross p p q = 0 /\ cross p q p = 0 /\ cross p q q = 0.
Proof. unfold cross. repeat split; ring. Qed.

Lemma flat_short (points : list coord) :
  (length points < 3)%nat -> flat points = true.
Proof.
  intros Hlen. apply flat_true_iff. intros p q r Hp Hq Hr.
  destruct points as [|a [|b [|c l]]]; [inversion Hp | | | simpl in Hlen; lia].
  - apply list_elem_of_singleton in Hp, Hq, Hr. subst.
    apply (cross_repeat a a).
  - assert (Hab : forall x : coord, x ∈ [a; b] -> x = a \/ x = b).
    { intros x [->|Hx%list_elem_of_singleton]%elem_of_cons; auto. }
    destruct (Hab p Hp) as [->| ->], (Hab q Hq) as [->| ->],
             (Hab r Hr) as [->| ->];
      first [ apply (cross_repeat a a) | apply (cross_repeat b b)
            | apply (cross_repeat a b) | apply (cross_repeat b a) ].
Qed.

Lemma flat_constant (points : list coord) (p0 : coord) :
  (forall p, p ∈ points -> p = p0) -> flat points = true.
Proof.
  intros H. apply flat_true_iff. intros p q r Hp Hq Hr.
  rewrite (H p Hp), (H q Hq), (H r Hr). apply (cross_repeat p0 p0).
Qed.
End Triangulation.

Section Builder.
Import Igraph NetworkGen.
#[local] Open Scope R_scope.

Variable qhull : list coord -> list simplex.

Lemma Delaunay_empty : Delaunay qhull [] = Raise ValueError.
Proof. reflexivity. Qed.

Lemma Delaunay_degenerate (points : list coord) :
  points <> [] ->
  (length points <? 3)%nat || flat points = true ->
  Delaunay qhull points = Raise QhullError.
Proof.
  intros Hne H. unfold Delaunay. destruct points; [contradiction|].
  now rewrite H.
Qed.

Lemma Delaunay_ok (points : list coord) (simplices : list simplex) :
  Delaunay qhull points = Ok simplices ->
  (3 <= length points)%nat /\ flat points = false /\ simplices = qhull points.
Proof.
  unfold Delaunay. destruct points as [|p l] eqn:E; [discriminate|].
  rewrite <- E. destruct (length points <? 3)%nat eqn:Hlen; [discriminate|].
  destruct (flat points) eqn:Hflat; [discriminate|]. cbn.
  intros [= <-]. apply Nat.ltb_ge in Hlen. easy.
Qed.

Lemma build_ok (coordinates : list coord) (feature_types : list string)
      (g : Graph) :
  build qhull coordinates feature_types = Ok g ->
  (3 <= length coordinates)%nat /\ flat coordinates = false /\
  vs g = zip_with (fun c f => Vertex c.1 c.2 f) coordinates feature_types /\
  es g = elements (extract_edges (qhull coordinates)).
Proof.
  unfold build, build_with. intros H.
  apply bind_ok in H as (simplices & Hd & H).
  apply Delaunay_ok in Hd as (Hlen & Hflat & ->).
  injection H as <-. easy.
Qed.

End Builder.


(** ** [network_gen.py]: the edge list *)

Section Edges.
Import Igraph NetworkGen.

Lemma extract_edges_loop (simplices : list simplex) (acc : gset (nat * nat))
      (e : nat * nat) :
  e ∈ fold_left add_simplex simplices acc
  <-> e ∈ acc \/ exists s, s ∈ simplices /\ side_of s e.
Proof.
  revert acc. induction simplices as [|[[s0 s1] s2] l IH]; intros acc.
  - cbn. split; [auto|]. intros [H|(s & Hs & _)]; [exact H | inversion Hs].
  - cbn [fold_left add_simplex]. rewrite IH. split.
    + intros [H|(s & Hs & Hside)].
      * rewrite !elem_of_union, !elem_of_singleton in H.
        destruct H as [-> | [-> | [-> | H]]]; [| | |now left]; right;
          exists (s0, s1, s2); (split; [left|]); cbn; auto.
      * right. exists s. split; [now right | exact Hside].
    + intros [H|(s & [-> | Hs]%elem_of_cons & Hside)].
      * left. rewrite !elem_of_union. tauto.
      * left. cbn in Hside. rewrite !elem_of_union, !elem_of_singleton.
        destruct Hside as [-> | [-> | ->]]; auto.
      * right. eauto.
Qed.

Lemma extract_edges_spec (simplices : list simplex) (e : nat * nat) :
  e ∈ extract_edges simplices <-> exists s, s ∈ simplices /\ side_of s e.
Proof.
  unfold extract_edges. rewrite extract_edges_loop. split.
  - intros [H|H]; [set_solver | exact H].
  - now right.
Qed.

Lemma no_multi_distinct (es : list (nat * nat)) (e1 e2 : nat * nat) :
  no_multi es = true -> e1 ∈ es -> e2 ∈ es -> e1 <> e2 ->
  same_edge e1 e2 = false.
Proof.
  assert (Hsym : forall a b, same_edge a b = same_edge b a).
  { intros [a1 a2] [b1 b2]. unfold same_edge. cbn.
    rewrite (Nat.eqb_sym a1 b1), (Nat.eqb_sym a2 b2),
            (Nat.eqb_sym a1 b2), (Nat.eqb_sym a2 b1).
    destruct (b1 =? a1)%nat, (b2 =? a2)%nat, (b2 =? a1)%nat, (b1 =? a2)%nat;
      reflexivity. }
  induction es as [|e l IH]; intros Hno H1 H2 Hne; [inversion H1|].
  cbn in Hno. apply andb_true_iff in Hno as [Hhead Htail].
  apply negb_true_iff in Hhead.
  assert (Hl : forall x, x ∈ l -> same_edge e x = false).
  { intros x Hx. destruct (same_edge e x) eqn:E; [|reflexivity].
    rewrite <- Hhead. symmetry. apply existsb_exists.
    exists x. split; [now apply list_elem_of_In | exact E]. }
  apply elem_of_cons in H1 as [-> | H1], H2 as [-> | H2].
  - contradiction.
  - now apply Hl.
  - rewrite Hsym. now apply Hl.
  - now apply IH.
Qed.

(** A side that two triangles run through in opposite directions is in
    the edge list twice, so the graph is not simple. *)
Lemma opposite_sides_not_simple (simplices : list simplex) (vs : list vertex)
      (s s' : simplex) (a b : nat) :
  s ∈ simplices -> s' ∈ simplices ->
  side_of s (a, b) -> side_of s' (b, a) ->
  is_simple {| vs := vs; es := elements (extract_edges simplices) |} = false.
Proof.
  intros Hs Hs' Hab Hba. unfold is_simple. cbn [es].
  set (l := elements (extract_edges simplices)).
  assert (H1 : (a, b) ∈ l).
  { apply elem_of_elements, extract_edges_spec. eauto. }
  assert (H2 : (b, a) ∈ l).
  { apply elem_of_elements, extract_edges_spec. eauto. }
  destruct (decide (a = b)) as [-> | Hne].
  - apply andb_false_iff. left. apply not_true_is_false. intros Hall.
    rewrite forallb_forall in Hall.
    specialize (Hall (b, b) ltac:(now apply list_elem_of_In)).
    unfold is_loop in Hall. cbn in Hall. now rewrite Nat.eqb_refl in Hall.
  - apply andb_false_iff. right. apply not_true_is_false. intros Hno.
    assert (Hd : (a, b) <> (b, a)) by congruence.
    pose proof (no_multi_distinct l _ _ Hno H1 H2 Hd) as E.
    unfold same_edge in E. cbn in E. rewrite !Nat.eqb_refl in E.
    now rewrite orb_true_r in E.
Qed.
End Edges.

Section NoGuard.
Import Igraph NetworkGen.
#[local] Open Scope R_scope.

Variable triangulate : list coord -> result (list simplex).

Lemma built_vertices_length (coordinates : list coord)
      (feature_types : list string) :
  length coordinates = length feature_types ->
  length (zip_with (fun (c : coord) f => Vertex c.1 c.2 f)
                   coordinates feature_types)
  = length coordinates.
Proof. intros H. rewrite length_zip_with. lia. Qed.

Lemma main_with_raises (data : facilities) (e : exn) :
  triangulate (ingest data).1 = Raise e -> main_with triangulate data = Raise e.
Proof.
  unfold main_with, build_with.
  destruct (ingest data) as [coordinates feature_types]. cbn [fst].
  intros ->. reflexivity.
Qed.

Lemma main_with_returns (data : facilities) (simplices : list simplex) :
  triangulate (ingest data).1 = Ok simplices ->
  main_with triangulate data
  = Ok {| vs := zip_with (fun (c : coord) f => Vertex c.1 c.2 f)
                         (ingest data).1 (ingest data).2;
          es := elements (extract_edges simplices) |}.
Proof.
  unfold main_with, build_with.
  destruct (ingest data) as [coordinates feature_types]. cbn [fst snd].
  intros ->. reflexivity.
Qed.

(** C5, as the code has it.  The builder has no case of its own for few,
    collinear or repeated points: it hands the ingested points to the
    triangulation call as they are, whatever their number.  If the call
    raises, the script ends with that exception and saves no graph; there
    is no fallback to a graph of isolated vertices.  If the call returns,
    the graph has one vertex per point and the sides of the returned
    triangles as edges, so it has no edge exactly when no triangle was
    returned.  A graph is saved exactly when the call returns. *)
Theorem no_degenerate_fallback (data : facilities) :
  (forall e, triangulate (ingest data).1 = Raise e ->
     main_with triangulate data = Raise e /\
     forall g, main_with triangulate data <> Ok g) /\
  (forall simplices, triangulate (ingest data).1 = Ok simplices ->
     exists g,
       main_with triangulate data = Ok g /\
       vcount g = length (ingest data).1 /\
       vs g = zip_with (fun (c : coord) f => Vertex c.1 c.2 f)
                       (ingest data).1 (ingest data).2 /\
       (forall e, e ∈ es g <-> exists s, s ∈ simplices /\ side_of s e) /\
       (es g = [] <-> simplices = [])) /\
  (is_ok (main_with triangulate data)
   <-> is_ok (triangulate (ingest data).1)).
Proof.
  split; [|split].
  - intros e He. rewrite (main_with_raises _ _ He). split; [reflexivity|].
    discriminate.
  - intros simplices Hs. eexists. split; [exact (main_with_returns _ _ Hs)|].
    cbn [vs es]. split; [|split; [reflexivity|split]].
    + unfold vcount. cbn [vs].
      apply built_vertices_length, ingest_lengths.
    + intros e. rewrite elem_of_elements. apply extract_edges_spec.
    + split.
      * intros Hnil. destruct simplices as [|[[s0 s1] s2] l]; [reflexivity|].
        assert (Hin : (s0, s1) ∈ ([] : list (nat * nat))).
        { rewrite <- Hnil. apply elem_of_elements, extract_edges_spec.
          exists (s0, s1, s2). split; [left | left; reflexivity]. }
        inversion Hin.
      * intros ->. reflexivity.
  - destruct (triangulate (ingest data).1) as [simplices|e] eqn:E.
    + rewrite (main_with_returns _ _ E). easy.
    + rewrite (main_with_raises _ _ E). easy.
Qed.
End NoGuard.

Section BuilderExamples.
Import Igraph NetworkGen Examples.
#[local] Open Scope R_scope.

Lemma quad_points :
  ingest data_quad
  = ([(0, 0); (1, 0); (0, 1); (2, 2)], ["ramps"; "ramps"; "ramps"; "bench"]).
Proof. reflexivity. Qed.

Lemma quad_not_flat : flat [(0, 0); (1, 0); (0, 1); (2, 2)] = false.
Proof.
  apply not_true_is_false. intros H. rewrite flat_true_iff in H.
  specialize (H (0, 0) (1, 0) (0, 1)).
  unfold cross in H. cbn [fst snd] in H.
  assert (E : (1 - 0) * (1 - 0) - (0 - 0) * (0 - 0) = 0).
  { apply H; repeat constructor. }
  lra.
Qed.

Lemma quad_edges :
  elements (extract_edges [(0, 1, 2); (2, 1, 3)]%nat)
  = [(2, 0); (2, 1); (0, 1); (1, 2); (3, 2); (1, 3)]%nat.
Proof. vm_compute. reflexivity. Qed.

Lemma quad_graph :
  main qhull_quad data_quad
  = Ok {| vs := [Vertex 0 0 "ramps"; Vertex 1 0 "ramps"; Vertex 0 1 "ramps";
                 Vertex 2 2 "bench"];
          es := [(2, 0); (2, 1); (0, 1); (1, 2); (3, 2); (1, 3)]%nat |}.
Proof.
  unfold main, main_with. rewrite quad_points. unfold build_with, Delaunay.
  rewrite quad_not_flat.
  cbn [length Nat.ltb Nat.leb orb mbind result_bind].
  unfold qhull_quad. rewrite quad_edges. reflexivity.
Qed.

(** C5, as the specification has it, fails: nothing in the builder makes
    the graph of isolated vertices.  With a triangulation call that refuses
    two points, and one that refuses no point at all, the script ends with
    the exception of the call; so the outcome for fewer than three points
    is not the builder's to promise. *)
Lemma two_points_raise :
  main_with (fun _ => Raise QhullError) data_pair = Raise QhullError /\
  main_with (fun _ => Raise QhullError) data_pair
  <> Ok {| vs := [Vertex 0 0 "ramps"; Vertex 0 1 "ramps"]; es := [] |} /\
  main_with (fun _ => Raise ValueError) [] = Raise ValueError /\
  main_with (fun _ => Raise ValueError) [] <> Ok {| vs := []; es := [] |} /\
  ~ (forall triangulate,
       main_with triangulate data_pair
       = Ok {| vs := [Vertex 0 0 "ramps"; Vertex 0 1 "ramps"]; es := [] |}).
Proof.
  assert (E1 : main_with (fun _ => Raise QhullError) data_pair
               = Raise QhullError) by reflexivity.
  assert (E2 : main_with (fun _ => Raise ValueError) [] = Raise ValueError)
    by reflexivity.
  rewrite E1, E2. repeat split; try discriminate.
  intros H. specialize (H (fun _ => Raise QhullError)).
  rewrite E1 in H. discriminate.
Qed.

(** C6, what the script does.  Whenever two triangles of the triangulation
    run through a common side in opposite directions, as the
    counter-clockwise triangles on either side of an interior edge do, the
    saved graph is not simple.  At the four points of [data_quad] with their
    two Delaunay triangles the graph has four vertices and valid end points,
    but the shared side is in the edge list twice, once as (1, 2) and once
    as (2, 1). *)
Theorem quad_shared_side_listed_twice :
  (forall qhull data g s s' a b,
     main qhull data = Ok g ->
     s ∈ qhull (ingest data).1 -> s' ∈ qhull (ingest data).1 ->
     side_of s (a, b) -> side_of s' (b, a) ->
     is_simple g = false) /\
  exists g,
    main qhull_quad data_quad = Ok g /\
    vcount g = 4%nat /\
    endpoints_valid g = true /\
    (1, 2)%nat ∈ es g /\ (2, 1)%nat ∈ es g /\
    no_multi (es g) = false /\
    is_simple g = false.
Proof.
  split.
  - intros qhull data g s s' a b. unfold main, main_with.
    destruct (ingest data) as [coordinates feature_types]. cbn [fst].
    intros (_ & _ & _ & Hes)%build_ok Hs Hs' Hab Hba.
    destruct g as [vs0 es0]. cbn [es] in Hes. subst es0.
    exact (opposite_sides_not_simple _ vs0 s s' a b Hs Hs' Hab Hba).
  - eexists. split; [apply quad_graph|].
    split; [reflexivity|]. split; [reflexivity|].
    split; [cbn; repeat constructor|]. split; [cbn; repeat constructor|].
    split; reflexivity.
Qed.

(** C8, as the specification has it, fails: a record with a latitude of 91
    and a longitude of 200 is ingested as it is, and a record listed under
    a key that is not one of the twelve becomes a vertex of the saved
    graph. *)
Lemma invalid_records_are_kept :
  90 < 91 /\ 180 < 200 /\
  ingest [("ramps", [Element 91 200])] = ([(91, 200)], ["ramps"]) /\
  ("bench" ∉ Analysis.feature_types) /\
  exists g, main qhull_quad data_quad = Ok g /\ Vertex 2 2 "bench" ∈ vs g.
Proof.
  split; [lra|]. split; [lra|]. split; [reflexivity|]. split.
  - intros H. unfold Analysis.feature_types in H.
    repeat (apply elem_of_cons in H as [H|H]; [discriminate|]).
    inversion H.
  - eexists. split; [apply quad_graph|]. cbn. repeat constructor.
Qed.
End BuilderExamples.

(** ** The theorems at concrete inputs *)

Section Witnesses.
Import Igraph CleanClusterData Examples.
#[local] Open Scope R_scope.

Lemma taxicab_nonneg (a b : coord) : 0 <= taxicab a b.
Proof.
  unfold taxicab. pose proof (Rabs_pos (a.1 - b.1)).
  pose proof (Rabs_pos (a.2 - b.2)). lra.
Qed.

Lemma small_entry_filtered :
  filter (fun d => 10 < radius_meters d) [small_entry] = [].
Proof.
  rewrite filter_cons, decide_False; [reflexivity|]. cbn. lra.
Qed.

Lemma batch_normalization_witness :
  cleaned_pair <> [] /\
  exists z_scores min_z max_z out,
    z_scores_of (map accessibility_score cleaned_pair) = Ok z_scores /\
    Py.min z_scores = Ok min_z /\
    Py.max z_scores = Ok max_z /\
    normalize cleaned_pair = Ok out /\
    length out = length cleaned_pair /\
    (forall c, c ∈ out -> -1 <= accessibility_score c <= 1) /\
    min_z < max_z /\
    exists o1 o2,
      out = [o1; o2] /\
      accessibility_score o1 = -1 /\ accessibility_score o2 = 1.
Proof.
  split; [discriminate|].
  destruct (batch_normalization cleaned_pair ltac:(discriminate))
    as (zs & min_z & max_z & out & Hz & Hmin & Hmax & Hout & _ & Hlen & _
        & Hrange & _ & _ & _ & _ & Hraw & _).
  exists zs, min_z, max_z, out.
  split; [exact Hz|]. split; [exact Hmin|]. split; [exact Hmax|].
  split; [exact Hout|]. split; [exact Hlen|]. split; [exact Hrange|].
  destruct Hraw as [Hlt Hends].
  { exists (Cluster 1 0 0 50 1 ∅), (Cluster 2 5 5 60 2 ∅).
    split; [left|]. split; [right; left|]. cbn. lra. }
  split; [exact Hlt|].
  destruct out as [|o1 [|o2 [|o3 out]]]; try discriminate.
  exists o1, o2. split; [reflexivity|]. split.
  - apply (proj1 (Hends 0%nat (Cluster 1 0 0 50 1 ∅) o1 eq_refl eq_refl)).
    intros c' Hc'. apply elem_of_cons in Hc' as [-> | Hc'].
    + cbn. lra.
    + apply list_elem_of_singleton in Hc' as ->. cbn. lra.
  - apply (proj2 (Hends 1%nat (Cluster 2 5 5 60 2 ∅) o2 eq_refl eq_refl)).
    intros c' Hc'. apply elem_of_cons in Hc' as [-> | Hc'].
    + cbn. lra.
    + apply list_elem_of_singleton in Hc' as ->. cbn. lra.
Defined.

Lemma raw_score_bounds_witness :
  (forall a b, 0 <= taxicab a b) /\
  (exists mean_distance proximity_factor diversity_index,
     calculate_mean_pairwise_distance taxicab [(0, 0); (0, 1)]
       = Ok mean_distance /\
     calculate_proximity_factor taxicab [(0, 0); (0, 1)]
       = Ok proximity_factor /\
     calculate_diversity_index {[ "ramps" := 2%nat ]} = Ok diversity_index /\
     0 < proximity_factor <= 1 /\
     0 <= diversity_index <= 1 /\
     0 < proximity_factor + diversity_index <= 2) /\
  exists c,
    clean_cluster taxicab whole_graph no_degree zero_transitivity g_three
      large_entry = Ok c /\
    accessibility_score c = 2.
Proof.
  split; [exact taxicab_nonneg|].
  destruct (raw_score_bounds taxicab [(0, 0); (0, 1)] {[ "ramps" := 2%nat ]}
              taxicab_nonneg)
    as ((m & p & d & Hm & Hp & Hd & _ & _ & Hpr & Hdr & Hsum & _ & _)
        & Htotal & Hstored).
  split.
  { exists m, p, d. repeat split; try assumption; lra. }
  destruct (Htotal whole_graph no_degree zero_transitivity g_three large_entry)
    as (c & Ec).
  { repeat constructor. }
  exists c. split; [exact Ec|].
  destruct (Hstored _ _ _ _ _ _ Ec) as (cs & p' & dv & Hcs & Ep & Ed & -> & _).
  injection Hcs as <-.
  destruct (proximity_factor_ok taxicab taxicab_nonneg [(5, 5)])
    as (p1 & Ep1 & _ & Hone).
  assert (E1 : p' = 1).
  { rewrite Ep in Ep1. injection Ep1 as ->. apply Hone. cbn. lia. }
  assert (E2 : dv = 1).
  { change (feature_counts large_entry) with ({[ "ramps" := 1%nat ]} : gmap string nat) in Ed.
    rewrite (diversity_index_singleton "ramps" 1) in Ed by lia.
    injection Ed as <-. cbn. lra. }
  rewrite E1, E2. replace (1 + 1) with 2 by lra. exact (round_IZR 2 4).
Defined.

Lemma empty_batch_raises_witness :
  filter (fun d => 10 < radius_meters d) [small_entry] = [] /\
  main taxicab whole_graph no_degree zero_transitivity g_three [small_entry]
  = Raise ValueError.
Proof.
  split; [exact small_entry_filtered|].
  apply (empty_batch_raises taxicab whole_graph no_degree zero_transitivity
           g_three [small_entry] small_entry_filtered).
Defined.
End Witnesses.

Section MoreWitnesses.
Import Igraph CleanClusterData Examples.
#[local] Open Scope R_scope.

Lemma two_entries_filtered :
  filter (fun d => 10 < radius_meters d) [small_entry; large_entry]
  = [large_entry].
Proof.
  rewrite filter_cons, decide_False by (cbn; lra).
  rewrite filter_cons, decide_True by (cbn; lra). reflexivity.
Qed.

Lemma minimum_radius_filter_witness :
  exists out,
    main taxicab whole_graph no_degree zero_transitivity g_three
         [small_entry; large_entry] = Ok out /\
    map id out = [2%nat].
Proof.
  destruct (minimum_radius_filter taxicab whole_graph no_degree
              zero_transitivity g_three [small_entry; large_entry])
    as (_ & _ & Htotal).
  destruct Htotal as (out & Hout & Hids).
  - exact taxicab_nonneg.
  - intros d Hd Hr.
    assert (Hin : d ∈ filter (fun d => 10 < radius_meters d)
                             [small_entry; large_entry]).
    { apply list_elem_of_filter. easy. }
    rewrite two_entries_filtered in Hin.
    apply list_elem_of_singleton in Hin as ->.
    repeat constructor.
  - exists large_entry. split; [right; left | cbn; lra].
  - exists out. split; [exact Hout|].
    rewrite Hids, two_entries_filtered. reflexivity.
Defined.

Lemma feature_count_completeness_witness :
  exists centroid max_distance fc,
    Analysis.calculate_cluster_metrics taxicab g_three [0; 1]%nat
    = Ok (centroid, max_distance, fc) /\
    size fc = 12%nat /\
    Py.sum_values fc = 2%nat /\
    fc !! "ramps" = Some 2%nat /\
    fc !! "elevators" = Some 0%nat.
Proof.
  destruct (feature_count_completeness taxicab g_three [0; 1]%nat)
    as [Htotal Hprop].
  destruct Htotal as (c & r & fc & E); [discriminate | repeat constructor |].
  exists c, r, fc. split; [exact E|].
  destruct (Hprop c r fc E) as (_ & Hsize & _ & _ & _ & Hall & Hcount & Hzero).
  split; [exact Hsize|]. split; [|split].
  - apply Hall.
    repeat constructor; eexists; (split; [reflexivity|]);
      unfold Analysis.feature_types; repeat constructor.
  - rewrite Hcount by (unfold Analysis.feature_types; repeat constructor).
    reflexivity.
  - apply Hzero; [unfold Analysis.feature_types; repeat constructor|].
    intros i v Hi Hv.
    apply elem_of_cons in Hi as [-> | Hi].
    + injection Hv as <-. discriminate.
    + apply list_elem_of_singleton in Hi as ->.
      injection Hv as <-. discriminate.
Defined.
End MoreWitnesses.

(** ** More on the normalization pass *)

Section MinMaxProperties.
Import CleanClusterData Examples.
#[local] Open Scope R_scope.

Lemma normalized_of_mono (lo hi z z' : R) :
  z <= z' -> normalized_of lo hi z <= normalized_of lo hi z'.
Proof.
  intros H. unfold normalized_of. destruct (Rlt_dec lo hi) as [Hlt|_]; [|lra].
  assert ((z - lo) / (hi - lo) <= (z' - lo) / (hi - lo)); [|lra].
  apply Rmult_le_compat_r; [|lra]. left. apply Rinv_0_lt_compat. lra.
Qed.

Lemma round_scaled (k : Z) (n : nat) :
  Py.round (IZR k / 10 ^ n) n = IZR k / 10 ^ n.
Proof.
  unfold Py.round. pose proof (pow10_pos n).
  replace (IZR k / 10 ^ n * 10 ^ n) with (IZR k) by (field; lra).
  now rewrite round_half_even_IZR.
Qed.

Lemma round_idempotent (x : R) (n : nat) :
  Py.round (Py.round x n) n = Py.round x n.
Proof. unfold Py.round at 2 3. apply round_scaled. Qed.

(** X1.  On a non-empty batch the z-scores cancel out of the result: with
    [xmin] and [xmax] the smallest and largest stored raw score, every
    record gets [round(2 * (x - xmin) / (xmax - xmin) - 1, 4)] for its raw
    score [x], and 0 when [xmin = xmax]; mean and deviation do not enter. *)
Theorem normalization_is_min_max_scaling (cleaned_data : list cluster) :
  cleaned_data <> [] ->
  exists xmin xmax,
    Py.min (map accessibility_score cleaned_data) = Ok xmin /\
    Py.max (map accessibility_score cleaned_data) = Ok xmax /\
    normalize cleaned_data =
    Ok (map (fun c =>
               set_accessibility_score c
                 (Py.round (normalized_of xmin xmax (accessibility_score c)) 4))
            cleaned_data).
Proof.
  intros Hne.
  destruct (normalize_min_max cleaned_data Hne)
    as (xmin & xmax & Hmin & Hmax & _ & _ & _ & Hout).
  eauto.
Qed.

Lemma normalization_is_min_max_scaling_witness :
  cleaned_pair <> [] /\
  exists xmin xmax,
    Py.min (map accessibility_score cleaned_pair) = Ok xmin /\
    Py.max (map accessibility_score cleaned_pair) = Ok xmax /\
    normalize cleaned_pair =
    Ok (map (fun c =>
               set_accessibility_score c
                 (Py.round (normalized_of xmin xmax (accessibility_score c)) 4))
            cleaned_pair).
Proof.
  split; [discriminate|].
  apply (normalization_is_min_max_scaling cleaned_pair). discriminate.
Defined.

(** X2.  The normalization keeps the order of the records: a record whose
    stored raw score is not larger than another's gets a final score that
    is not larger either, and equal raw scores get equal final scores. *)
Theorem normalization_keeps_ranking
    (cleaned_data out : list cluster) (i j : nat) (ci cj oi oj : cluster) :
  normalize cleaned_data = Ok out ->
  cleaned_data !! i = Some ci -> cleaned_data !! j = Some cj ->
  out !! i = Some oi -> out !! j = Some oj ->
  (accessibility_score ci <= accessibility_score cj ->
   accessibility_score oi <= accessibility_score oj) /\
  (accessibility_score ci = accessibility_score cj ->
   accessibility_score oi = accessibility_score oj).
Proof.
  intros Hn Hci Hcj Hoi Hoj.
  assert (Hne : cleaned_data <> []) by (intros ->; discriminate).
  destruct (normalize_min_max cleaned_data Hne)
    as (xmin & xmax & _ & _ & _ & _ & _ & Hout).
  rewrite Hout in Hn. injection Hn as <-.
  rewrite list_lookup_fmap, Hci in Hoi. injection Hoi as <-.
  rewrite list_lookup_fmap, Hcj in Hoj. injection Hoj as <-.
  cbn. split.
  - intros H. now apply round_mono, normalized_of_mono.
  - intros ->. reflexivity.
Qed.

Lemma cleaned_pair_normalized :
  exists o1 o2, normalize cleaned_pair = Ok [o1; o2].
Proof.
  destruct (normalize_min_max cleaned_pair) as (xmin & xmax & _ & _ & _ & _ & _ & ->);
    [discriminate|].
  cbn [map cleaned_pair]. eauto.
Qed.

Lemma normalization_keeps_ranking_witness :
  exists o1 o2,
    normalize cleaned_pair = Ok [o1; o2] /\
    accessibility_score o1 <= accessibility_score o2.
Proof.
  destruct cleaned_pair_normalized as (o1 & o2 & E).
  exists o1, o2. split; [exact E|].
  apply (proj1 (normalization_keeps_ranking cleaned_pair [o1; o2] 0 1
                  (Cluster 1 0 0 50 1 ∅) (Cluster 2 5 5 60 2 ∅) o1 o2
                  E eq_refl eq_refl eq_refl eq_refl)).
  cbn. lra.
Defined.

(** X3.  Normalizing twice is normalizing once: the list the pass returns
    is a fixed point of the pass. *)
Theorem normalization_idempotent (cleaned_data out : list cluster) :
  normalize cleaned_data = Ok out -> normalize out = Ok out.
Proof.
  intros Hn.
  assert (Hne : cleaned_data <> []) by (intros ->; discriminate).
  destruct (normalize_min_max cleaned_data Hne)
    as (xmin & xmax & _ & _ & Hxmin & Hxmax & Hx & Hout).
  rewrite Hout in Hn. injection Hn as <-.
  set (f := fun c => set_accessibility_score c
                (Py.round (normalized_of xmin xmax (accessibility_score c)) 4)).
  assert (Hone : map f cleaned_data <> []).
  { destruct cleaned_data; [contradiction | discriminate]. }
  destruct (normalize_min_max (map f cleaned_data) Hone)
    as (ymin & ymax & Hymin & Hymax & _ & _ & _ & Hout2).
  rewrite Hout2. f_equal.
  assert (Hscores : forall y, y ∈ map accessibility_score (map f cleaned_data) ->
            exists c, c ∈ cleaned_data /\
              y = Py.round (normalized_of xmin xmax (accessibility_score c)) 4).
  { intros y (o & -> & (c & -> & Hc)%list_elem_of_fmap)%list_elem_of_fmap.
    exists c. easy. }
  assert (Hfix : forall c, c ∈ cleaned_data ->
            Py.round (normalized_of ymin ymax
                        (Py.round (normalized_of xmin xmax (accessibility_score c)) 4)) 4
            = Py.round (normalized_of xmin xmax (accessibility_score c)) 4).
  { destruct (Rlt_dec xmin xmax) as [Hlt|Hge].
    - assert (Ey : Py.min (map accessibility_score (map f cleaned_data)) = Ok (-1)).
      { apply min_unique.
        - apply list_elem_of_fmap in Hxmin as (c & Ec & Hc).
          apply list_elem_of_fmap. exists (f c). split.
          + cbn. rewrite <- Ec, normalized_of_min by exact Hlt.
            symmetry. apply (round_IZR (-1)).
          + apply list_elem_of_fmap. eauto.
        - intros y (c & Hc & ->)%Hscores.
          apply (round_between (-1) 1), normalized_of_range, Hx.
          apply list_elem_of_fmap. eauto. }
      assert (Ey' : Py.max (map accessibility_score (map f cleaned_data)) = Ok 1).
      { apply max_unique.
        - apply list_elem_of_fmap in Hxmax as (c & Ec & Hc).
          apply list_elem_of_fmap. exists (f c). split.
          + cbn. rewrite <- Ec, normalized_of_max by exact Hlt.
            symmetry. apply (round_IZR 1).
          + apply list_elem_of_fmap. eauto.
        - intros y (c & Hc & ->)%Hscores.
          apply (round_between (-1) 1), normalized_of_range, Hx.
          apply list_elem_of_fmap. eauto. }
      rewrite Ey in Hymin. injection Hymin as <-.
      rewrite Ey' in Hymax. injection Hymax as <-.
      intros c Hc.
      assert (Hid : forall r, normalized_of (-1) 1 r = r).
      { intros r. unfold normalized_of. destruct (Rlt_dec (-1) 1); lra. }
      rewrite Hid. apply round_idempotent.
    - assert (H0 : forall c, normalized_of xmin xmax (accessibility_score c) = 0).
      { intros c. apply normalized_of_flat. lra. }
      assert (Ey : Py.min (map accessibility_score (map f cleaned_data)) = Ok 0).
      { apply min_unique.
        - apply list_elem_of_fmap in Hxmin as (c & Ec & Hc).
          apply list_elem_of_fmap. exists (f c). split.
          + cbn. rewrite H0. symmetry. apply (round_IZR 0).
          + apply list_elem_of_fmap. eauto.
        - intros y (c & Hc & ->)%Hscores. rewrite H0, (round_IZR 0). lra. }
      assert (Ey' : Py.max (map accessibility_score (map f cleaned_data)) = Ok 0).
      { apply max_unique.
        - apply list_elem_of_fmap in Hxmin as (c & Ec & Hc).
          apply list_elem_of_fmap. exists (f c). split.
          + cbn. rewrite H0. symmetry. apply (round_IZR 0).
          + apply list_elem_of_fmap. eauto.
        - intros y (c & Hc & ->)%Hscores. rewrite H0, (round_IZR 0). lra. }
      rewrite Ey in Hymin. injection Hymin as <-.
      rewrite Ey' in Hymax. injection Hymax as <-.
      intros c _. rewrite H0, (round_IZR 0).
      rewrite normalized_of_flat by lra. apply (round_IZR 0). }
  clear -Hfix. induction cleaned_data as [|c l IH]; [reflexivity|].
  cbn [map]. f_equal.
  - change (set_accessibility_score c
              (Py.round
                 (normalized_of ymin ymax
                    (Py.round (normalized_of xmin xmax (accessibility_score c)) 4))
                 4) = f c).
    now rewrite Hfix by left.
  - apply IH. intros c' Hc'. apply Hfix. now right.
Qed.

Lemma normalization_idempotent_witness :
  exists o1 o2,
    normalize cleaned_pair = Ok [o1; o2] /\ normalize [o1; o2] = Ok [o1; o2].
Proof.
  destruct cleaned_pair_normalized as (o1 & o2 & E).
  exists o1, o2. split; [exact E|].
  exact (normalization_idempotent cleaned_pair [o1; o2] E).
Defined.
End MinMaxProperties.

(** ** More on the score functions of [clean_cluster_data.py] *)

Section ScoreFunctions.
Import CleanClusterData.
#[local] Open Scope R_scope.

Variable haversine_distance : coord -> coord -> R.




(** X5.  The radius in [core_values] is 0 for a cluster without members;
    otherwise it is the largest distance from the centre to a member: no
    member is farther away and some member is exactly that far. *)
Theorem radius_is_largest_distance
    (centre : coord) (member_coordinates : list coord) :
  exists r,
    calculate_radius haversine_distance centre member_coordinates = Ok r /\
    (member_coordinates = [] -> r = 0) /\
    (forall c, c ∈ member_coordinates -> haversine_distance centre c <= r) /\
    (member_coordinates <> [] ->
     exists c, c ∈ member_coordinates /\ r = haversine_distance centre c).
Proof.
  destruct member_coordinates as [|c0 l] eqn:E.
  - exists 0. split; [reflexivity|]. split; [reflexivity|].
    split; [intros c Hc; inversion Hc | contradiction].
  - rewrite <- E.
    destruct (max_ok (map (haversine_distance centre) member_coordinates))
      as (r & Hr & Hin & Hle).
    { rewrite E. discriminate. }
    exists r. split; [rewrite E in *; exact Hr|].
    split; [rewrite E; discriminate|]. split.
    + intros c Hc. apply Hle. apply list_elem_of_fmap. eauto.
    + intros _. apply list_elem_of_fmap in Hin as (c & -> & Hc). eauto.
Qed.
End ScoreFunctions.

Section DiversityValues.
Import CleanClusterData.
#[local] Open Scope R_scope.


End DiversityValues.

(** ** More on the first pass of [clean_cluster_data.py] *)

Section CleanedRecords.
Import Igraph CleanClusterData.
#[local] Open Scope R_scope.

Variable haversine_distance : coord -> coord -> R.
Variable subgraph : Graph -> list nat -> Graph.
Variable degree : Graph -> list nat.
Variable g : Graph.

Lemma round_error (x : R) (n : nat) :
  x - / 2 * / 10 ^ n <= Py.round x n <= x + / 2 * / 10 ^ n.
Proof.
  unfold Py.round. pose proof (pow10_pos n) as Hp.
  pose proof (round_half_even_near (x * 10 ^ n)) as [H1 H2].
  set (k := IZR (Py.round_half_even (x * 10 ^ n))) in *.
  pose proof (Rinv_0_lt_compat _ Hp) as Hi.
  assert (E : x = x * 10 ^ n * / 10 ^ n) by (field; lra).
  split.
  - apply Rmult_le_reg_r with (10 ^ n); [exact Hp|].
    unfold Rdiv. rewrite Rmult_assoc, Rinv_l by lra.
    rewrite Rmult_minus_distr_r, (Rmult_assoc (/ 2)), Rinv_l by lra. lra.
  - apply Rmult_le_reg_r with (10 ^ n); [exact Hp|].
    unfold Rdiv. rewrite Rmult_assoc, Rinv_l by lra.
    rewrite Rmult_plus_distr_r, (Rmult_assoc (/ 2)), Rinv_l by lra. lra.
Qed.

(** The six entries of [core_values], whatever the first [update] wrote
    under "clustering_coefficient". *)
Lemma core_values_overwritten (a b r cc dn ap di : R) :
  (<["clustering_coefficient" := cc]>
   (<["density" := dn]>
   (<["average_path_length" := ap]>
   (<["diameter" := di]>
   (<["radius" := r]>
   (<["clustering_coefficient" := a]>
   (<["average_degree" := b]> (∅ : gmap string R)))))))) =
  list_to_map
    [ ("clustering_coefficient", cc); ("density", dn);
      ("average_path_length", ap); ("diameter", di); ("radius", r);
      ("average_degree", b) ].
Proof.
  apply map_eq. intros k. cbn [list_to_map foldr uncurry fst snd].
  rewrite !lookup_insert. repeat case_decide; try reflexivity; congruence.
Qed.

(** X7.  The transitivity that igraph computes on the subgraph never
    reaches a cleaned record: its rounded value is stored under
    "clustering_coefficient" and then replaced by the value taken from the
    entry's [topology_metrics].  A cleaned record has exactly six core
    values; the four taken from [topology_metrics] are the rounded entries
    of that mapping, and 0 where a key is missing. *)
Theorem clustering_coefficient_comes_from_input (d : cluster_info) :
  (forall t1 t2 : Graph -> R,
     clean_cluster haversine_distance subgraph degree t1 g d
     = clean_cluster haversine_distance subgraph degree t2 g d) /\
  (forall (t : Graph -> R) (c : cluster),
     clean_cluster haversine_distance subgraph degree t g d = Ok c ->
     size (core_values c) = 6%nat /\
     core_values c !! "clustering_coefficient"
     = Some (Py.round (default 0 (topology_metrics d !! "clustering_coefficient")) 4) /\
     core_values c !! "density"
     = Some (Py.round (default 0 (topology_metrics d !! "density")) 4) /\
     core_values c !! "average_path_length"
     = Some (Py.round (default 0 (topology_metrics d !! "average_path_length")) 2) /\
     core_values c !! "diameter"
     = Some (Py.round (default 0 (topology_metrics d !! "diameter")) 2) /\
     is_Some (core_values c !! "radius") /\
     is_Some (core_values c !! "average_degree")).
Proof.
  split.
  - intros t1 t2. unfold clean_cluster. cbv zeta.
    destruct (read_member_coordinates g (members d)) as [cs|e]; [|reflexivity].
    cbn [mbind result_bind].
    destruct (calculate_proximity_factor haversine_distance cs) as [p|e];
      [|reflexivity]. cbn [mbind result_bind].
    destruct (calculate_diversity_index (feature_counts d)) as [dv|e];
      [|reflexivity]. cbn [mbind result_bind].
    destruct (calculate_average_degree degree (subgraph g (members d))) as [a|e];
      [|reflexivity]. cbn [mbind result_bind].
    destruct (calculate_radius haversine_distance _ cs) as [r|e]; [|reflexivity].
    cbn [mbind result_bind]. rewrite !core_values_overwritten. reflexivity.
  - intros t c H. unfold clean_cluster in H. cbv zeta in H.
    repeat (apply bind_ok in H as (? & _ & H)).
    injection H as <-. cbn [core_values]. rewrite core_values_overwritten.
    split; [|repeat split; try reflexivity; eexists; reflexivity].
    rewrite <- size_dom, dom_list_to_map_L. vm_compute. reflexivity.
Qed.

Lemma clean_cluster_kept (t : Graph -> R) (d : cluster_info) (c : cluster) :
  clean_cluster haversine_distance subgraph degree t g d = Ok c ->
  id c = cluster_id d /\
  radius c = Py.round (radius_meters d) 2 /\
  center_coordinate_lat c = Py.round (centroid d).1 6 /\
  center_coordinate_lon c = Py.round (centroid d).2 6.
Proof.
  intros H. unfold clean_cluster in H. cbv zeta in H.
  repeat (apply bind_ok in H as (? & _ & H)).
  injection H as <-. repeat split; reflexivity.
Qed.

Lemma rounded_radius_at_least_10 (x : R) : 10 < x -> 10 <= Py.round x 2.
Proof. intros H. rewrite <- (round_IZR 10 2). apply round_mono. lra. Qed.

(** X8.  What a cleaned record keeps of its entry: the id; the radius in
    meters rounded to two digits, which is off by at most 0.005 and, for an
    entry that passed the radius test, is at least 10; the centre
    rounded to six digits, off by at most 0.0000005 in each coordinate. *)
Theorem cleaned_record_fields (t : Graph -> R) (d : cluster_info) (c : cluster) :
  clean_cluster haversine_distance subgraph degree t g d = Ok c ->
  id c = cluster_id d /\
  radius c = Py.round (radius_meters d) 2 /\
  radius_meters d - 5 / 1000 <= radius c <= radius_meters d + 5 / 1000 /\
  (10 < radius_meters d -> 10 <= radius c) /\
  center_coordinate_lat c = Py.round (centroid d).1 6 /\
  center_coordinate_lon c = Py.round (centroid d).2 6 /\
  (centroid d).1 - 5 / 10000000 <= center_coordinate_lat c
    <= (centroid d).1 + 5 / 10000000 /\
  (centroid d).2 - 5 / 10000000 <= center_coordinate_lon c
    <= (centroid d).2 + 5 / 10000000.
Proof.
  intros (Hid & Hrad & Hlat & Hlon)%clean_cluster_kept.
  rewrite Hrad, Hlat, Hlon.
  pose proof (round_error (radius_meters d) 2) as Hr.
  pose proof (round_error (centroid d).1 6) as Hla.
  pose proof (round_error (centroid d).2 6) as Hlo.
  split; [exact Hid|]. split; [reflexivity|].
  split; [cbn in Hr; lra|]. split; [apply rounded_radius_at_least_10|].
  split; [reflexivity|]. split; [reflexivity|].
  split; [cbn in Hla; lra | cbn in Hlo; lra].
Qed.
End CleanedRecords.

Section WrittenRecords.
Import Igraph CleanClusterData Examples.
#[local] Open Scope R_scope.

Variable haversine_distance : coord -> coord -> R.
Variable subgraph : Graph -> list nat -> Graph.
Variable degree : Graph -> list nat.
Variable transitivity_undirected : Graph -> R.
Variable g : Graph.

#[local] Abbreviation clean_cluster :=
  (clean_cluster haversine_distance subgraph degree transitivity_undirected g).
#[local] Abbreviation first_pass :=
  (first_pass haversine_distance subgraph degree transitivity_undirected g).
#[local] Abbreviation main :=
  (main haversine_distance subgraph degree transitivity_undirected g).

(** The script writes when an entry passes the test, the members of the
    passing entries are vertices and distances are not negative. *)
Lemma main_returns (data : list cluster_info) :
  (forall a b, 0 <= haversine_distance a b) ->
  (forall d, d ∈ data -> 10 < radius_meters d ->
             Forall (fun i => (i < vcount g)%nat) (members d)) ->
  (exists d, d ∈ data /\ 10 < radius_meters d) ->
  exists out, main data = Ok out.
Proof.
  intros Hd Hm (d & Hin & Hr).
  destruct (first_pass_total haversine_distance subgraph degree
              transitivity_undirected g data Hd Hm) as (cleaned_data & E).
  assert (Hne : cleaned_data <> []).
  { intros ->. apply first_pass_survivors in E.
    assert (Hd' : d ∈ filter (fun d => 10 < radius_meters d) data).
    { apply list_elem_of_filter. easy. }
    inversion E as [Hnil|]. rewrite <- Hnil in Hd'. inversion Hd'. }
  destruct (normalize_min_max cleaned_data Hne)
    as (xmin & xmax & _ & _ & _ & _ & _ & Hn).
  eexists. unfold CleanClusterData.main. rewrite E. cbn. exact Hn.
Qed.

(** X9.  Every record the script writes comes from an entry whose radius
    is above 10 meters and was cleaned without error; it carries that
    entry's id, a stored radius of at least 10, the core values computed in
    the first pass, and a score in [-1, 1]. *)
Theorem written_records (data : list cluster_info) (out : list cluster)
    (c : cluster) :
  main data = Ok out -> c ∈ out ->
  exists d c0,
    d ∈ data /\ 10 < radius_meters d /\ clean_cluster d = Ok c0 /\
    id c = cluster_id d /\
    radius c = Py.round (radius_meters d) 2 /\ 10 <= radius c /\
    core_values c = core_values c0 /\
    -1 <= accessibility_score c <= 1.
Proof.
  intros Hmain Hc. unfold CleanClusterData.main in Hmain.
  apply bind_ok in Hmain as (cleaned_data & Hfirst & Hnorm).
  assert (Hne : cleaned_data <> []) by (intros ->; discriminate).
  destruct (normalize_min_max cleaned_data Hne)
    as (xmin & xmax & _ & _ & _ & _ & Hx & Hout).
  rewrite Hout in Hnorm. injection Hnorm as <-.
  apply list_elem_of_fmap in Hc as (c0 & -> & Hc0).
  apply first_pass_survivors in Hfirst.
  apply list_elem_of_lookup in Hc0 as (i & Hi).
  destruct (Forall2_lookup_r _ _ _ _ _ Hfirst Hi) as (d & Hd & Hclean).
  apply list_elem_of_lookup_2, list_elem_of_filter in Hd as [Hr Hd].
  exists d, c0. split; [exact Hd|]. split; [exact Hr|]. split; [exact Hclean|].
  destruct (clean_cluster_kept _ _ _ _ _ _ _ Hclean) as (Hid & Hrad & _).
  cbn [id radius core_values accessibility_score set_accessibility_score].
  split; [exact Hid|]. split; [exact Hrad|].
  split; [rewrite Hrad; now apply rounded_radius_at_least_10|].
  split; [reflexivity|].
  apply (round_between (-1) 1), normalized_of_range, Hx.
  apply list_elem_of_fmap. exists c0. split; [reflexivity|].
  apply list_elem_of_lookup. eauto.
Qed.
End WrittenRecords.

(** ** More on [calculate_cluster_metrics] of [analysis.py] *)

Section ClusterMetricsMore.
Import Igraph Analysis.
#[local] Open Scope R_scope.

Variable haversine_distance : coord -> coord -> R.
Variable g : Graph.

Lemma bind_raise {A B : Type} (m : result A) (h : A -> result B) (e : exn) :
  m = Raise e -> m ≫= h = Raise e.
Proof. intros ->. reflexivity. Qed.

Lemma getitem_raises {A : Type} (l : list A) (i : nat) (e : exn) :
  Py.getitem l i = Raise e -> e = IndexError /\ (length l <= i)%nat.
Proof.
  unfold Py.getitem. destruct (l !! i) eqn:E; [discriminate|].
  intros [= <-]. split; [reflexivity|]. now apply lookup_ge_None.
Qed.

Lemma mapM_getitem_index_error {A : Type} (l : list A) (ids : list nat) :
  (exists i, i ∈ ids /\ (length l <= i)%nat) ->
  mapM (Py.getitem l) ids = Raise IndexError.
Proof.
  induction ids as [|j ids IH]; intros (i & Hi & Hge); [inversion Hi|].
  cbn [mapM]. destruct (Py.getitem l j) as [x|e] eqn:E.
  - cbn [mbind result_bind].
    apply elem_of_cons in Hi as [-> | Hi].
    + unfold Py.getitem in E. rewrite (proj2 (lookup_ge_None l j) Hge) in E.
      discriminate.
    + change (mapM (Py.getitem l) ids ≫= (fun k => mret (x :: k))
              = Raise IndexError).
      rewrite IH by eauto. reflexivity.
  - apply getitem_raises in E as [-> _]. reflexivity.
Qed.

Lemma coordinates_lookup (i : nat) (v : vertex) :
  vs g !! i = Some v -> coordinates g !! i = Some (latitude v, longitude v).
Proof. intros H. unfold coordinates. now rewrite list_lookup_fmap, H. Qed.

Lemma cluster_coords_values (cluster_indices : list nat) (cs : list coord) :
  mapM (Py.getitem (coordinates g)) cluster_indices = Ok cs ->
  Forall2 (fun i c => exists v, vs g !! i = Some v /\ c = (latitude v, longitude v))
          cluster_indices cs.
Proof.
  intros H%mapM_ok_Forall2. eapply Forall2_impl; [exact H|].
  intros i c Hi. unfold Py.getitem, coordinates in Hi.
  rewrite list_lookup_fmap in Hi.
  destruct (vs g !! i) as [v|]; [|discriminate].
  injection Hi as <-. eauto.
Qed.

(** X10.  [calculate_cluster_metrics] returns exactly for a non-empty
    cluster all of whose indices are vertices of the graph.  For an empty
    cluster it ends with [ValueError] (the [max] of no distance), and for a
    cluster with an index that is not a vertex with [IndexError]. *)
Theorem cluster_metrics_errors (cluster_indices : list nat) :
  (cluster_indices = [] ->
   calculate_cluster_metrics haversine_distance g cluster_indices
   = Raise ValueError) /\
  ((exists i, i ∈ cluster_indices /\ (vcount g <= i)%nat) ->
   calculate_cluster_metrics haversine_distance g cluster_indices
   = Raise IndexError) /\
  (is_ok (calculate_cluster_metrics haversine_distance g cluster_indices) <->
   cluster_indices <> [] /\
   Forall (fun i => (i < vcount g)%nat) cluster_indices).
Proof.
  assert (Hbad : (exists i, i ∈ cluster_indices /\ (vcount g <= i)%nat) ->
            calculate_cluster_metrics haversine_distance g cluster_indices
            = Raise IndexError).
  { intros (i & Hi & Hge). unfold calculate_cluster_metrics.
    assert (E : mapM (Py.getitem (coordinates g)) cluster_indices
                = Raise IndexError).
    { apply mapM_getitem_index_error. exists i. split; [exact Hi|].
      unfold coordinates. rewrite length_map. exact Hge. }
    exact (bind_raise _ _ _ E). }
  split; [intros ->; reflexivity|]. split; [exact Hbad|]. split.
  - intros Hok. split.
    + intros ->. exact Hok.
    + apply Forall_forall. intros i Hi.
      destruct (le_lt_dec (vcount g) i) as [Hge|Hlt]; [|exact Hlt].
      rewrite Hbad in Hok by eauto. contradiction.
  - intros [Hne Hvalid].
    destruct (calculate_cluster_metrics_ok haversine_distance g _ Hne Hvalid)
      as (c & r & fc & ->). exact I.
Qed.

Lemma fold_Rplus_between (l : list R) (lo hi a : R) :
  (forall x, x ∈ l -> lo <= x <= hi) ->
  a + INR (length l) * lo <= fold_left Rplus l a <= a + INR (length l) * hi.
Proof.
  revert a. induction l as [|x l IH]; intros a H.
  - cbn. lra.
  - cbn [fold_left length]. rewrite S_INR.
    pose proof (H x ltac:(left)).
    pose proof (IH (a + x) ltac:(intros; apply H; now right)). lra.
Qed.

Lemma np_mean_between (l : list R) (lo hi : R) :
  l <> [] -> (forall x, x ∈ l -> lo <= x <= hi) -> lo <= np_mean l <= hi.
Proof.
  intros Hne H. unfold np_mean, Py.sum, Py.len.
  pose proof (fold_Rplus_between l lo hi 0 H) as Hs.
  assert (Hn : 0 < INR (length l)).
  { apply lt_0_INR. destruct l; [contradiction | simpl; lia]. }
  split.
  - apply Rmult_le_reg_r with (INR (length l)); [exact Hn|].
    unfold Rdiv. rewrite Rmult_assoc, Rinv_l by lra. lra.
  - apply Rmult_le_reg_r with (INR (length l)); [exact Hn|].
    unfold Rdiv. rewrite Rmult_assoc, Rinv_l by lra. lra.
Qed.

Lemma calculate_cluster_metrics_parts
      (cluster_indices : list nat) (centroid : coord) (max_distance : R)
      (fc : gmap string nat) :
  calculate_cluster_metrics haversine_distance g cluster_indices
  = Ok (centroid, max_distance, fc) ->
  exists cs,
    mapM (Py.getitem (coordinates g)) cluster_indices = Ok cs /\
    centroid = (np_mean (map fst cs), np_mean (map snd cs)) /\
    Py.max (map (haversine_distance centroid) cs) = Ok max_distance.
Proof.
  unfold calculate_cluster_metrics. intros H.
  apply bind_ok in H as (cs & Hcs & H). cbv zeta in H.
  apply bind_ok in H as (r & Hr & H).
  apply bind_ok in H as (fc' & _ & [= <- <- _]).
  exists cs. split; [exact Hcs|]. split; [reflexivity | exact Hr].
Qed.

(** X11.  When [calculate_cluster_metrics] returns, the centroid lies in
    the bounding box of the members (its latitude between any bounds on the
    members' latitudes, and likewise its longitude), and the radius is the
    largest distance from the centroid to a member: no member is farther
    away, and some member is exactly that far. *)
Theorem centroid_and_radius
    (cluster_indices : list nat) (centroid : coord) (max_distance : R)
    (fc : gmap string nat) :
  calculate_cluster_metrics haversine_distance g cluster_indices
  = Ok (centroid, max_distance, fc) ->
  (forall lo hi,
     (forall i v, i ∈ cluster_indices -> vs g !! i = Some v ->
                  lo <= latitude v <= hi) ->
     lo <= centroid.1 <= hi) /\
  (forall lo hi,
     (forall i v, i ∈ cluster_indices -> vs g !! i = Some v ->
                  lo <= longitude v <= hi) ->
     lo <= centroid.2 <= hi) /\
  (forall i v, i ∈ cluster_indices -> vs g !! i = Some v ->
     haversine_distance centroid (latitude v, longitude v) <= max_distance) /\
  (exists i v, i ∈ cluster_indices /\ vs g !! i = Some v /\
     max_distance = haversine_distance centroid (latitude v, longitude v)).
Proof.
  intros H. apply calculate_cluster_metrics_parts in H as (cs & Hcs & -> & Hr).
  pose proof (cluster_coords_values _ _ Hcs) as Hvals.
  assert (Hne : cs <> []).
  { intros ->. discriminate. }
  assert (Hmem : forall c, c ∈ cs ->
            exists i v, i ∈ cluster_indices /\ vs g !! i = Some v /\
                        c = (latitude v, longitude v)).
  { intros c (k & Hk)%list_elem_of_lookup.
    destruct (Forall2_lookup_r _ _ _ _ _ Hvals Hk) as (i & Hi & v & Hv & ->).
    exists i, v. split; [|easy]. apply list_elem_of_lookup. eauto. }
  assert (Hmem' : forall i v, i ∈ cluster_indices -> vs g !! i = Some v ->
            (latitude v, longitude v) ∈ cs).
  { intros i v (k & Hk)%list_elem_of_lookup Hv.
    destruct (Forall2_lookup_l _ _ _ _ _ Hvals Hk) as (c & Hc & v' & Hv' & ->).
    rewrite Hv in Hv'. injection Hv' as <-.
    apply list_elem_of_lookup. eauto. }
  set (centroid := (np_mean (map fst cs), np_mean (map snd cs))) in *.
  destruct (max_ok (map (haversine_distance centroid) cs)) as (r & Er & Hin & Hle).
  { destruct cs; [contradiction | discriminate]. }
  rewrite Er in Hr. injection Hr as ->.
  split; [|split; [|split]].
  - intros lo hi Hb. cbn [fst]. apply np_mean_between.
    + destruct cs; [contradiction | discriminate].
    + intros x (c & -> & Hc)%list_elem_of_fmap.
      destruct (Hmem c Hc) as (i & v & Hi & Hv & ->). cbn. eauto.
  - intros lo hi Hb. cbn [snd]. apply np_mean_between.
    + destruct cs; [contradiction | discriminate].
    + intros x (c & -> & Hc)%list_elem_of_fmap.
      destruct (Hmem c Hc) as (i & v & Hi & Hv & ->). cbn. eauto.
  - intros i v Hi Hv. apply Hle. apply list_elem_of_fmap.
    exists (latitude v, longitude v). split; [reflexivity|]. eauto.
  - apply list_elem_of_fmap in Hin as (c & -> & Hc).
    destruct (Hmem c Hc) as (i & v & Hi & Hv & ->). eauto.
Qed.
End ClusterMetricsMore.

(** ** From [analysis.py] to [clean_cluster_data.py] *)

Section AnalysisToCleaning.
Import Igraph Analysis.
#[local] Open Scope R_scope.

Variable haversine_distance : coord -> coord -> R.
Variable community_multilevel : Graph -> VertexClustering.
Variable subgraph : Graph -> list nat -> Graph.
Variables diameter average_path_length density transitivity_undirected
  : Graph -> metric.
Variable g : Graph.

#[local] Abbreviation cluster_info_of :=
  (cluster_info_of haversine_distance subgraph diameter average_path_length
                   density transitivity_undirected g).
#[local] Abbreviation cluster_data :=
  (cluster_data haversine_distance community_multilevel subgraph diameter
                average_path_length density transitivity_undirected g).

Lemma np_mean_constant (l : list R) (x : R) :
  l <> [] -> (forall y, y ∈ l -> y = x) -> np_mean l = x.
Proof.
  intros Hne H. unfold np_mean, Py.sum, Py.len.
  rewrite (sum_constant l x 0 H).
  assert (INR (length l) <> 0).
  { apply not_0_INR. destruct l; [contradiction | discriminate]. }
  field. assumption.
Qed.

Lemma cluster_info_of_parts (i : nat) (cluster : list nat) (rec : cluster_info) :
  cluster_info_of (i, cluster) = Ok rec ->
  exists max_distance,
    calculate_cluster_metrics haversine_distance g cluster
    = Ok (centroid rec, max_distance, feature_counts rec) /\
    radius_meters rec = max_distance * 1000 /\
    cluster_id rec = (i + 1)%nat /\ members rec = cluster.
Proof.
  unfold Analysis.cluster_info_of. intros H.
  apply bind_ok in H as ([[c r] fc] & Hm & H).
  injection H as <-. cbn. eauto.
Qed.

(** X12.  A community whose members all sit at one point [p], a single
    vertex in particular, gets [p] as its centroid and, when the distance
    from [p] to itself is 0, a radius of 0 meters; the first pass of
    [clean_cluster_data.py] leaves such a record out. *)
Theorem colocated_community_is_dropped
    (i : nat) (cluster : list nat) (p : coord) :
  cluster <> [] ->
  (forall k, k ∈ cluster ->
     exists v, vs g !! k = Some v /\ (latitude v, longitude v) = p) ->
  haversine_distance p p = 0 ->
  exists rec,
    cluster_info_of (i, cluster) = Ok rec /\
    centroid rec = p /\ radius_meters rec = 0 /\
    forall haversine_distance' subgraph' degree' transitivity' g' cleaned_data,
      CleanClusterData.first_pass_step
        haversine_distance' subgraph' degree' transitivity' g' cleaned_data rec
      = Ok cleaned_data.
Proof.
  intros Hne Hp Hd.
  assert (Hvalid : Forall (fun k => (k < vcount g)%nat) cluster).
  { apply Forall_forall. intros k (v & Hv & _)%Hp. now apply lookup_lt_Some in Hv. }
  destruct (cluster_info_of_ok haversine_distance subgraph diameter
              average_path_length density transitivity_undirected g i cluster
              Hne Hvalid) as (rec & Hrec).
  exists rec. split; [exact Hrec|].
  apply cluster_info_of_parts in Hrec as (r & Hm & Hrad & _ & _).
  apply calculate_cluster_metrics_parts in Hm as (cs & Hcs & Hc & Hr).
  pose proof (cluster_coords_values _ _ _ Hcs) as Hvals.
  assert (Hall : forall c, c ∈ cs -> c = p).
  { intros c (k & Hk)%list_elem_of_lookup.
    destruct (Forall2_lookup_r _ _ _ _ _ Hvals Hk) as (j & Hj & v & Hv & ->).
    destruct (Hp j) as (v' & Hv' & <-); [apply list_elem_of_lookup; eauto|].
    congruence. }
  assert (Hcs_ne : cs <> []).
  { intros ->. apply Forall2_length in Hvals. destruct cluster; [contradiction|].
    discriminate. }
  assert (Hcp : centroid rec = p).
  { rewrite Hc. destruct p as [px py].
    rewrite (np_mean_constant (map fst cs) px), (np_mean_constant (map snd cs) py).
    - reflexivity.
    - destruct cs; [contradiction | discriminate].
    - intros y (c & -> & Hc')%list_elem_of_fmap. now rewrite (Hall c Hc').
    - destruct cs; [contradiction | discriminate].
    - intros y (c & -> & Hc')%list_elem_of_fmap. now rewrite (Hall c Hc'). }
  assert (Hr0 : r = 0).
  { destruct (max_ok (map (haversine_distance (centroid rec)) cs))
      as (r' & Er & Hin & _).
    { destruct cs; [contradiction | discriminate]. }
    rewrite Er in Hr. injection Hr as <-.
    apply list_elem_of_fmap in Hin as (c & -> & Hc').
    now rewrite (Hall c Hc'), Hcp. }
  split; [exact Hcp|]. split; [rewrite Hrad, Hr0; lra|].
  intros d' s' dg' t' g' cleaned_data. unfold CleanClusterData.first_pass_step.
  rewrite decide_False; [reflexivity|]. rewrite Hrad, Hr0. lra.
Qed.

(** X13.  The records that [analysis.py] builds can be cleaned against the
    same graph: every member is a vertex, so with distances that are not
    negative the first pass of [clean_cluster_data.py] returns, the script
    writes its output when some record has a radius above 10 meters, and it
    ends with [ValueError] when none has. *)
Theorem analysis_records_can_be_cleaned
    (degree : Graph -> list nat) (transitivity : Graph -> R)
    (recs : list cluster_info) :
  length (membership (community_multilevel g)) = vcount g ->
  (forall a b, 0 <= haversine_distance a b) ->
  cluster_data = Ok recs ->
  (forall rec k, rec ∈ recs -> k ∈ members rec -> (k < vcount g)%nat) /\
  (exists cleaned_data,
     CleanClusterData.first_pass haversine_distance subgraph degree
       transitivity g recs = Ok cleaned_data) /\
  ((exists rec, rec ∈ recs /\ 10 < radius_meters rec) ->
   exists out,
     CleanClusterData.main haversine_distance subgraph degree transitivity g recs
     = Ok out) /\
  ((forall rec, rec ∈ recs -> ~ 10 < radius_meters rec) ->
   CleanClusterData.main haversine_distance subgraph degree transitivity g recs
   = Raise ValueError).
Proof.
  intros Hlen Hd Hrecs.
  pose proof (cluster_data_records _ _ _ _ _ _ _ _ _ Hrecs) as [_ Hrec].
  assert (Hvalid : forall rec k, rec ∈ recs -> k ∈ members rec -> (k < vcount g)%nat).
  { intros rec k (i & Hi)%list_elem_of_lookup Hk.
    destruct (Hrec i rec Hi) as [_ Hm]. rewrite Hm in Hk.
    apply cluster_at_members, lookup_lt_Some in Hk. lia. }
  assert (Hvalid' : forall d, d ∈ recs -> 10 < radius_meters d ->
            Forall (fun i => (i < vcount g)%nat) (members d)).
  { intros d Hin _. apply Forall_forall. intros k Hk. eapply Hvalid; eauto. }
  split; [exact Hvalid|]. split; [|split].
  - now apply first_pass_total.
  - intros Hsome. now apply main_returns.
  - intros Hnone. unfold CleanClusterData.main.
    rewrite first_pass_none; [reflexivity|].
    destruct (filter _ recs) as [|d l] eqn:E; [reflexivity|].
    assert (Hin : d ∈ filter (fun d => 10 < radius_meters d) recs)
      by (rewrite E; left).
    apply list_elem_of_filter in Hin as [Hr Hin]. now apply Hnone in Hin.
Qed.
End AnalysisToCleaning.

(** ** [network_gen.py]: the graph that is saved *)

Section SavedGraph.
Import Igraph NetworkGen.
#[local] Open Scope R_scope.

Variable qhull : list coord -> list simplex.

Lemma zip_with_map_pair {A B C : Type} (f : A -> B -> C) (l : list (A * B)) :
  zip_with f (map fst l) (map snd l) = map (fun r => f r.1 r.2) l.
Proof.
  induction l as [|[a b] l IH]; [reflexivity|].
  cbn [map zip_with fst snd]. now rewrite IH.
Qed.

Lemma main_ok (data : facilities) (g : Graph) :
  main qhull data = Ok g ->
  (3 <= length (all_records data))%nat /\
  vs g = map (fun r => Vertex r.1.1 r.1.2 r.2) (all_records data) /\
  es g = elements (extract_edges (qhull (ingest data).1)).
Proof.
  unfold main, main_with. rewrite ingest_all_records. cbn [fst].
  intros (Hlen & _ & Hvs & Hes)%build_ok.
  rewrite length_map in Hlen. split; [exact Hlen|]. split; [|exact Hes].
  rewrite Hvs.
  exact (zip_with_map_pair (fun (c : coord) f => Vertex c.1 c.2 f)
           (all_records data)).
Qed.

Lemma add_simplex_size (edges : gset (nat * nat)) (s : simplex) :
  (size (add_simplex edges s) <= size edges + 3)%nat.
Proof.
  destruct s as [[s0 s1] s2]. unfold add_simplex.
  assert (Hadd : forall (e : nat * nat) (X : gset (nat * nat)),
             (size ({[ e ]} ∪ X) <= size X + 1)%nat).
  { intros e X. rewrite union_comm_L, size_union_alt.
    assert (size (({[ e ]} : gset (nat * nat)) ∖ X) <= 1)%nat; [|lia].
    rewrite <- (size_singleton (C := gset (nat * nat)) e).
    apply subseteq_size. apply subseteq_difference_l. reflexivity. }
  pose proof (Hadd (s2, s0) ({[ (s1, s2) ]} ∪ ({[ (s0, s1) ]} ∪ edges))).
  pose proof (Hadd (s1, s2) ({[ (s0, s1) ]} ∪ edges)).
  pose proof (Hadd (s0, s1) edges).
  lia.
Qed.

Lemma extract_edges_size_loop (simplices : list simplex)
      (acc : gset (nat * nat)) :
  (size (fold_left add_simplex simplices acc)
   <= size acc + 3 * length simplices)%nat.
Proof.
  revert acc. induction simplices as [|s simplices IH]; intros acc.
  - cbn [fold_left length]. lia.
  - cbn [fold_left length]. specialize (IH (add_simplex acc s)).
    pose proof (add_simplex_size acc s). lia.
Qed.

Lemma extract_edges_size (simplices : list simplex) :
  (length (elements (extract_edges simplices)) <= 3 * length simplices)%nat.
Proof.
  pose proof (extract_edges_size_loop simplices ∅) as H.
  rewrite size_empty in H. exact H.
Qed.

Lemma same_edge_true (e1 e2 : nat * nat) :
  same_edge e1 e2 = true <-> e1 = e2 \/ e1 = (e2.2, e2.1).
Proof.
  destruct e1 as [a b], e2 as [c d]. unfold same_edge. cbn [fst snd].
  rewrite orb_true_iff, !andb_true_iff, !Nat.eqb_eq.
  split.
  - intros [[-> ->] | [-> ->]]; auto.
  - intros [[= -> ->] | [= -> ->]]; auto.
Qed.

Lemma no_multi_NoDup (l : list (nat * nat)) :
  NoDup l ->
  (forall e1 e2, e1 ∈ l -> e2 ∈ l -> e1 <> e2 -> same_edge e1 e2 = false) ->
  no_multi l = true.
Proof.
  induction 1 as [|e l Hnin Hl IH]; intros Hall; [reflexivity|].
  cbn [no_multi]. apply andb_true_iff. split.
  - apply negb_true_iff, not_true_is_false. intros Hex.
    apply existsb_exists in Hex as (e' & Hin & Hsame).
    apply list_elem_of_In in Hin.
    rewrite Hall in Hsame; [discriminate| | |].
    + left.
    + now right.
    + intros ->. contradiction.
  - apply IH. intros e1 e2 H1 H2. apply Hall; now right.
Qed.

Lemma no_loops_iff (l : list (nat * nat)) :
  forallb (fun e => negb (is_loop e)) l = true
  <-> forall a b, (a, b) ∈ l -> a <> b.
Proof.
  rewrite forallb_forall. split.
  - intros H a b Hin%list_elem_of_In. specialize (H _ Hin).
    unfold is_loop in H. cbn [fst snd] in H.
    apply negb_true_iff, Nat.eqb_neq in H. exact H.
  - intros H [a b] Hin%list_elem_of_In. unfold is_loop. cbn [fst snd].
    apply negb_true_iff, Nat.eqb_neq. now apply H.
Qed.

Lemma simple_edge_set (vs0 : list vertex) (edges : gset (nat * nat)) :
  is_simple {| vs := vs0; es := elements edges |} = true
  <-> forall a b, (a, b) ∈ edges -> a <> b /\ (b, a) ∉ edges.
Proof.
  unfold is_simple. cbn [es]. rewrite andb_true_iff, no_loops_iff. split.
  - intros [Hloop Hmulti] a b Hab. split.
    + apply Hloop. now apply elem_of_elements.
    + intros Hba.
      assert (Hne : (a, b) <> (b, a)).
      { intros [= E _]. apply (Hloop a b); [now apply elem_of_elements|exact E]. }
      pose proof (no_multi_distinct _ (a, b) (b, a) Hmulti) as Hs.
      rewrite !elem_of_elements in Hs. specialize (Hs Hab Hba Hne).
      assert (Ht : same_edge (a, b) (b, a) = true)
        by (apply same_edge_true; right; reflexivity).
      congruence.
  - intros H. split.
    + intros a b Hab%elem_of_elements. now apply H.
    + apply no_multi_NoDup; [apply NoDup_elements|].
      intros [a b] [c d] H1%elem_of_elements H2%elem_of_elements Hne.
      apply not_true_is_false. intros [E | E]%same_edge_true; [contradiction|].
      cbn [fst snd] in E. injection E as -> ->.
      destruct (H _ _ H1) as [_ Hn]. contradiction.
Qed.

Lemma endpoints_valid_iff (g : Graph) :
  endpoints_valid g = true
  <-> forall a b, (a, b) ∈ es g -> (a < vcount g)%nat /\ (b < vcount g)%nat.
Proof.
  unfold endpoints_valid. rewrite forallb_forall. split.
  - intros H a b Hin%list_elem_of_In. specialize (H _ Hin).
    cbn [fst snd] in H.
    apply andb_true_iff in H as [H1%Nat.ltb_lt H2%Nat.ltb_lt]. now split.
  - intros H [a b] Hin%list_elem_of_In. cbn [fst snd].
    destruct (H _ _ Hin) as [H1%Nat.ltb_lt H2%Nat.ltb_lt].
    now rewrite H1, H2.
Qed.

Lemma lookup_vertex (l : list (coord * string)) (i : nat) (la lo : R)
      (f : string) :
  map (fun r => Vertex r.1.1 r.1.2 r.2) l !! i = Some (Vertex la lo f)
  <-> l !! i = Some ((la, lo), f).
Proof.
  revert i. induction l as [|[[a b] c] l IH]; intros [|i]; cbn [map fst snd].
  - split; discriminate.
  - split; discriminate.
  - change (Some (Vertex a b c) = Some (Vertex la lo f)
            <-> Some (a, b, c) = Some (la, lo, f)).
    split; intros E; injection E as -> -> ->; reflexivity.
  - apply IH.
Qed.

(** X14.  The edge list of the saved graph.  When the script saves a graph,
    its edge list holds no ordered pair twice, an ordered pair is in it
    exactly when it is one of the three pairs (s0,s1), (s1,s2), (s2,s0) of
    some triangle, there are at most three edges per triangle, and the end
    points are vertices of the graph exactly when every index in every
    triangle is below the number of points. *)
Theorem saved_graph_edges (data : facilities) (g : Graph) :
  main qhull data = Ok g ->
  NoDup (es g) /\
  (forall e, e ∈ es g <-> exists s, s ∈ qhull (ingest data).1 /\ side_of s e) /\
  (length (es g) <= 3 * length (qhull (ingest data).1))%nat /\
  (endpoints_valid g = true
   <-> forall s0 s1 s2, (s0, s1, s2) ∈ qhull (ingest data).1 ->
         (s0 < vcount g)%nat /\ (s1 < vcount g)%nat /\ (s2 < vcount g)%nat).
Proof.
  intros (_ & _ & Hes)%main_ok.
  assert (Hin : forall e, e ∈ es g
                  <-> exists s, s ∈ qhull (ingest data).1 /\ side_of s e).
  { intros e. rewrite Hes, elem_of_elements. apply extract_edges_spec. }
  split; [rewrite Hes; apply NoDup_elements|].
  split; [exact Hin|].
  split; [rewrite Hes; apply extract_edges_size|].
  rewrite endpoints_valid_iff. split.
  - intros H s0 s1 s2 Hs.
    assert (H01 : (s0, s1) ∈ es g).
    { apply Hin. exists (s0, s1, s2). split; [exact Hs|]. left. reflexivity. }
    assert (H12 : (s1, s2) ∈ es g).
    { apply Hin. exists (s0, s1, s2). split; [exact Hs|].
      right. left. reflexivity. }
    destruct (H _ _ H01) as [? ?]. destruct (H _ _ H12) as [? ?]. tauto.
  - intros H a b ([[s0 s1] s2] & Hs & Hside)%Hin.
    destruct (H _ _ _ Hs) as (H0 & H1 & H2).
    destruct Hside as [[= -> ->] | [[= -> ->] | [= -> ->]]]; tauto.
Qed.

(** X15.  When the saved graph is simple.  The graph the script saves is a
    simple graph exactly when no triangle lists an index twice and no
    side of a triangle is run through in the opposite direction by a
    triangle: a side (a, b) with (b, a) also a side makes a double edge. *)
Theorem saved_graph_simple_iff (data : facilities) (g : Graph) :
  main qhull data = Ok g ->
  (is_simple g = true
   <-> forall s a b, s ∈ qhull (ingest data).1 -> side_of s (a, b) ->
         a <> b /\
         forall s', s' ∈ qhull (ingest data).1 -> ~ side_of s' (b, a)).
Proof.
  intros (_ & _ & Hes)%main_ok. destruct g as [vs0 es0]. cbn [es] in Hes.
  subst es0. rewrite simple_edge_set. split.
  - intros H s a b Hs Hside.
    assert (Hab : (a, b) ∈ extract_edges (qhull (ingest data).1))
      by (apply extract_edges_spec; eauto).
    destruct (H _ _ Hab) as [Hne Hn]. split; [exact Hne|].
    intros s' Hs' Hside'. apply Hn. apply extract_edges_spec. eauto.
  - intros H a b (s & Hs & Hside)%extract_edges_spec.
    destruct (H _ _ _ Hs Hside) as [Hne Hn]. split; [exact Hne|].
    intros (s' & Hs' & Hside')%extract_edges_spec. exact (Hn _ Hs' Hside').
Qed.

End SavedGraph.

Section SavedGraphExamples.
Import Igraph NetworkGen Examples.
#[local] Open Scope R_scope.

Lemma saved_graph_edges_witness :
  exists g, main qhull_quad data_quad = Ok g /\ NoDup (es g).
Proof.
  eexists. split; [exact quad_graph|].
  exact (proj1 (saved_graph_edges qhull_quad data_quad _ quad_graph)).
Defined.

Lemma saved_graph_simple_iff_witness :
  exists g, main qhull_quad data_quad = Ok g /\
    (is_simple g = true
     <-> forall s a b, s ∈ qhull_quad (ingest data_quad).1 ->
           side_of s (a, b) ->
           a <> b /\
           forall s', s' ∈ qhull_quad (ingest data_quad).1 ->
                      ~ side_of s' (b, a)).
Proof.
  eexists. split; [exact quad_graph|].
  exact (saved_graph_simple_iff qhull_quad data_quad _ quad_graph).
Defined.

End SavedGraphExamples.

(** ** [network.py]: the distance matrix *)

Section DistMatrix.
Import Network.
#[local] Open Scope R_scope.

Variable haversine_distance : coord -> coord -> R.
Variable coordinates : list coord.

#[local] Abbreviation filled := (filled haversine_distance coordinates).

Lemma foldM_snoc {A S : Type} (step : S -> A -> result S) (l : list A)
      (x : A) (acc : S) :
  foldM step (l ++ [x]) acc = foldM step l acc ≫= fun acc' => step acc' x.
Proof.
  revert acc. induction l as [|y l IH]; intros acc; simpl.
  - destruct (step acc x); reflexivity.
  - destruct (step acc y) as [acc'|e]; simpl; [apply IH | reflexivity].
Qed.

Lemma zeros_square (n : nat) : square n (zeros n n).
Proof.
  unfold zeros. split; [apply length_replicate|].
  intros i row [-> _]%lookup_replicate. apply length_replicate.
Qed.

Lemma zeros_entry (n i j : nat) :
  (i < n)%nat -> (j < n)%nat -> entry (zeros n n) i j = Some 0.
Proof.
  intros Hi Hj. unfold entry, zeros.
  rewrite lookup_replicate_2 by exact Hi. cbn.
  now apply lookup_replicate_2.
Qed.

Lemma entry_in_range (n : nat) (a : list (list R)) (i j : nat) :
  square n a -> is_Some (entry a i j) <-> (i < n)%nat /\ (j < n)%nat.
Proof.
  intros [Hlen Hrows]. unfold entry. split.
  - intros [x Hx]. destruct (a !! i) as [row|] eqn:E; [|discriminate].
    cbn in Hx. pose proof (Hrows _ _ E). apply lookup_lt_Some in E, Hx. lia.
  - intros [Hi Hj]. destruct (lookup_lt_is_Some_2 a i) as [row E]; [lia|].
    rewrite E. cbn. apply lookup_lt_is_Some_2. rewrite (Hrows _ _ E). exact Hj.
Qed.

Lemma setitem_ok (n : nat) (a : list (list R)) (i j : nat) (x : R) :
  square n a -> (i < n)%nat -> (j < n)%nat ->
  exists a',
    setitem a i j x = Ok a' /\ square n a' /\
    forall p q, entry a' p q
                = if decide (p = i /\ q = j) then Some x else entry a p q.
Proof.
  intros [Hlen Hrows] Hi Hj. unfold setitem.
  destruct (lookup_lt_is_Some_2 a i) as [row E]; [lia|]. rewrite E.
  pose proof (Hrows _ _ E) as Hrow.
  rewrite decide_True by lia. eexists. split; [reflexivity|]. split.
  - split; [now rewrite length_insert|].
    intros p r Hp. destruct (decide (p = i)) as [->|Hne].
    + rewrite list_lookup_insert_eq in Hp by lia. injection Hp as <-.
      now rewrite length_insert.
    + rewrite list_lookup_insert_ne in Hp by congruence. eauto.
  - intros p q. unfold entry. destruct (decide (p = i)) as [->|Hne].
    + rewrite list_lookup_insert_eq by lia. rewrite E. cbn.
      destruct (decide (q = j)) as [->|Hq].
      * rewrite decide_True by easy. apply list_lookup_insert_eq. lia.
      * rewrite decide_False by tauto. apply list_lookup_insert_ne. congruence.
    + rewrite list_lookup_insert_ne by congruence.
      rewrite decide_False by tauto. reflexivity.
Qed.

Lemma dist_step_filled (i j : nat) (a : list (list R)) :
  (i < j)%nat -> (j < length coordinates)%nat ->
  filled i j a ->
  exists a', dist_step haversine_distance coordinates i a j = Ok a' /\
             filled i (j + 1) a'.
Proof.
  intros Hij Hj (Hsq & Hdone & Hrest). unfold dist_step.
  destruct (lookup_lt_is_Some_2 coordinates i) as [ci Eci]; [lia|].
  destruct (lookup_lt_is_Some_2 coordinates j) as [cj Ecj]; [lia|].
  unfold Py.getitem. rewrite Eci, Ecj. cbn [mbind result_bind].
  destruct (setitem_ok _ a i j (haversine_distance ci cj) Hsq)
    as (a1 & -> & Hsq1 & He1); [lia | lia |].
  cbn [mbind result_bind].
  destruct (setitem_ok _ a1 j i (haversine_distance ci cj) Hsq1)
    as (a2 & -> & Hsq2 & He2); [lia | lia |].
  exists a2. split; [reflexivity|]. split; [exact Hsq2|]. split.
  - intros p q cp cq Hp Hq Hv. rewrite !He2, !He1.
    destruct (decide (p = i /\ q = j)) as [[-> ->]|Hnew].
    + rewrite Eci in Hp. rewrite Ecj in Hq.
      injection Hp as <-. injection Hq as <-.
      rewrite (decide_False (P := i = j /\ j = i)) by lia.
      rewrite (decide_True (P := j = j /\ i = i)) by easy. easy.
    + assert (Hold : visited i j p q) by (unfold visited in *; lia).
      destruct (Hdone p q cp cq Hp Hq Hold) as [H1 H2].
      unfold visited in Hv.
      rewrite (decide_False (P := p = j /\ q = i)) by lia.
      rewrite (decide_False (P := q = j /\ p = i)) by lia.
      rewrite (decide_False (P := q = i /\ p = j)) by lia. easy.
  - intros p q Hp Hq Hn1 Hn2. rewrite He2, He1. unfold visited in *.
    rewrite (decide_False (P := p = j /\ q = i)) by lia.
    rewrite (decide_False (P := p = i /\ q = j)) by lia.
    apply Hrest; unfold visited; lia.
Qed.

Lemma dist_columns_filled (i k : nat) (a : list (list R)) :
  (i + 1 + k <= length coordinates)%nat ->
  filled i (i + 1) a ->
  exists a',
    foldM (dist_step haversine_distance coordinates i) (seq (i + 1) k) a
    = Ok a' /\
    filled i (i + 1 + k) a'.
Proof.
  induction k as [|k IH]; intros Hk Ha.
  - exists a. rewrite Nat.add_0_r. split; [reflexivity | exact Ha].
  - destruct IH as (a1 & E1 & Ha1); [lia | exact Ha |].
    rewrite seq_S, foldM_snoc, E1. cbn [mbind result_bind].
    destruct (dist_step_filled i (i + 1 + k) a1) as (a2 & E2 & Ha2);
      [lia | lia | exact Ha1 |].
    exists a2. split; [exact E2|].
    replace (i + 1 + S k)%nat with (i + 1 + k + 1)%nat by lia. exact Ha2.
Qed.

Lemma filled_next_row (i : nat) (a : list (list R)) :
  filled i (length coordinates) a -> filled (i + 1) (i + 1 + 1) a.
Proof.
  intros (Hsq & Hdone & Hrest). split; [exact Hsq|]. split.
  - intros p q cp cq Hp Hq Hv. apply Hdone; [exact Hp | exact Hq |].
    apply lookup_lt_Some in Hq. unfold visited in *. lia.
  - intros p q Hp Hq Hn1 Hn2. apply Hrest; unfold visited in *; lia.
Qed.

Lemma dist_rows_filled (k : nat) :
  (k <= length coordinates)%nat ->
  exists a,
    foldM (dist_row haversine_distance coordinates (length coordinates))
          (seq 0 k) (zeros (length coordinates) (length coordinates))
    = Ok a /\
    filled k (k + 1) a.
Proof.
  induction k as [|k IH]; intros Hk.
  - eexists. split; [reflexivity|]. split; [apply zeros_square|]. split.
    + intros p q cp cq _ _ Hv. unfold visited in Hv. lia.
    + intros p q Hp Hq _ _. now apply zeros_entry.
  - destruct IH as (a1 & E1 & Ha1); [lia|].
    rewrite seq_S, foldM_snoc, E1, Nat.add_0_l. cbn [mbind result_bind].
    unfold dist_row.
    destruct (dist_columns_filled k (length coordinates - (k + 1)) a1)
      as (a2 & E2 & Ha2); [lia | exact Ha1 |].
    exists a2. split; [exact E2|].
    replace (k + 1 + (length coordinates - (k + 1)))%nat
      with (length coordinates) in Ha2 by lia.
    replace (S k) with (k + 1)%nat by lia. now apply filled_next_row.
Qed.

Lemma dist_matrix_filled :
  exists a,
    dist_matrix haversine_distance coordinates = Ok a /\
    filled (length coordinates) (length coordinates + 1) a.
Proof. apply dist_rows_filled. lia. Qed.

(** X17.  The two loops over [dist_matrix] never raise and leave a square
    array, one row and one column per point, with
    [dist_matrix[p, q] = dist_matrix[q, p] = haversine_distance(c_p, c_q)]
    for [p < q] and zeros on the diagonal: the array is symmetric whether or
    not the distance function is, because only the distance from the point
    with the smaller index to the one with the larger index is ever
    computed. *)
Theorem dist_matrix_symmetric :
  exists a,
    dist_matrix haversine_distance coordinates = Ok a /\
    length a = length coordinates /\
    (forall row, row ∈ a -> length row = length coordinates) /\
    (forall p q cp cq,
       coordinates !! p = Some cp -> coordinates !! q = Some cq ->
       (p < q)%nat ->
       entry a p q = Some (haversine_distance cp cq) /\
       entry a q p = Some (haversine_distance cp cq)) /\
    (forall p, (p < length coordinates)%nat -> entry a p p = Some 0) /\
    (forall p q, entry a p q = entry a q p).
Proof.
  destruct dist_matrix_filled as (a & E & Hsq & Hdone & Hrest).
  exists a. split; [exact E|]. split; [apply Hsq|].
  assert (Hup : forall p q cp cq,
            coordinates !! p = Some cp -> coordinates !! q = Some cq ->
            (p < q)%nat ->
            entry a p q = Some (haversine_distance cp cq) /\
            entry a q p = Some (haversine_distance cp cq)).
  { intros p q cp cq Hp Hq Hlt. apply Hdone; [exact Hp | exact Hq |].
    apply lookup_lt_Some in Hp. unfold visited. lia. }
  assert (Hdiag : forall p, (p < length coordinates)%nat -> entry a p p = Some 0).
  { intros p Hp. apply Hrest; [exact Hp | exact Hp | |]; unfold visited; lia. }
  split; [|split; [exact Hup|split; [exact Hdiag|]]].
  - intros row (i & Hi)%list_elem_of_lookup. exact (proj2 Hsq _ _ Hi).
  - intros p q.
    destruct (le_lt_dec (length coordinates) p) as [Hp|Hp].
    { destruct (entry a p q) eqn:E1.
      - apply mk_is_Some, (entry_in_range _ _ _ _ Hsq) in E1. lia.
      - destruct (entry a q p) eqn:E2; [|reflexivity].
        apply mk_is_Some, (entry_in_range _ _ _ _ Hsq) in E2. lia. }
    destruct (le_lt_dec (length coordinates) q) as [Hq|Hq].
    { destruct (entry a p q) eqn:E1.
      - apply mk_is_Some, (entry_in_range _ _ _ _ Hsq) in E1. lia.
      - destruct (entry a q p) eqn:E2; [|reflexivity].
        apply mk_is_Some, (entry_in_range _ _ _ _ Hsq) in E2. lia. }
    destruct (lookup_lt_is_Some_2 coordinates p Hp) as [cp Ecp].
    destruct (lookup_lt_is_Some_2 coordinates q Hq) as [cq Ecq].
    destruct (lt_eq_lt_dec p q) as [[Hlt | ->] | Hgt]; [|reflexivity|].
    + destruct (Hup p q cp cq Ecp Ecq Hlt) as [-> ->]. reflexivity.
    + destruct (Hup q p cq cp Ecq Ecp Hgt) as [-> ->]. reflexivity.
Qed.
End DistMatrix.

(** ** [network.py] beside [network_gen.py] and [analysis.py] *)

Section NetworkAndAnalysis.
Import Igraph.
#[local] Open Scope R_scope.

Variable haversine_distance : coord -> coord -> R.
Variable community_multilevel : Graph -> Analysis.VertexClustering.
Variable subgraph : Graph -> list nat -> Graph.
Variables diameter average_path_length density transitivity_undirected
  : Graph -> Analysis.metric.
Variable g : Graph.

Lemma count_features_after_coordinates (cluster_indices : list nat)
      (cs : list coord) :
  mapM (Py.getitem (Analysis.coordinates g)) cluster_indices = Ok cs ->
  exists fc, Analysis.count_features g cluster_indices = Ok fc.
Proof.
  intros H. apply count_features_ok. apply Forall_forall. intros i Hi.
  pose proof (mapM_raise _ _ _ H i Hi) as Hok.
  unfold Py.getitem, Analysis.coordinates in Hok.
  rewrite list_lookup_fmap in Hok.
  destruct (vs g !! i) as [v|] eqn:E; [|contradiction].
  now apply lookup_lt_Some in E.
Qed.

(** A step that cannot fail once the first one has returned changes
    neither the exception nor the values computed before it. *)
Lemma one_more_step {A B C D : Type} (m : result A) (ctr : A -> D)
      (mx : A -> result B) (cnt : result C) :
  (forall a, m = Ok a -> exists c, cnt = Ok c) ->
  match (a ← m; r ← mx a; Ok (ctr a, r)) with
  | Ok (c, r) =>
      exists fc, (a ← m; r ← mx a; fc ← cnt; Ok (ctr a, r, fc)) = Ok (c, r, fc)
  | Raise e => (a ← m; r ← mx a; fc ← cnt; Ok (ctr a, r, fc)) = Raise e
  end.
Proof.
  intros H. destruct m as [a|e]; simpl; [|reflexivity].
  destruct (H a eq_refl) as (c & ->).
  destruct (mx a) as [r|e]; simpl; [|reflexivity].
  exists c. reflexivity.
Qed.

(** X18.  [calculate_cluster_metrics] of [analysis.py] extends the one of
    [network.py]: on the coordinates read back from the graph the two
    return the same centroid and the same largest distance, and when the
    one of [network.py] raises, the one of [analysis.py] raises the same
    exception; counting the feature types adds no failure. *)
Theorem analysis_metrics_extend_network (cluster_indices : list nat) :
  match Network.calculate_cluster_metrics haversine_distance
          (Analysis.coordinates g) cluster_indices with
  | Ok (centroid, max_distance) =>
      exists fc,
        Analysis.calculate_cluster_metrics haversine_distance g cluster_indices
        = Ok (centroid, max_distance, fc)
  | Raise e =>
      Analysis.calculate_cluster_metrics haversine_distance g cluster_indices
      = Raise e
  end.
Proof.
  exact (one_more_step
           (mapM (Py.getitem (Analysis.coordinates g)) cluster_indices)
           (fun cs => (Analysis.np_mean (map fst cs),
                       Analysis.np_mean (map snd cs)))
           (fun cs => Py.max (map (haversine_distance
                                     (Analysis.np_mean (map fst cs),
                                      Analysis.np_mean (map snd cs))) cs))
           (Analysis.count_features g cluster_indices)
           (count_features_after_coordinates cluster_indices)).
Qed.

Lemma mapM_related {A B B' : Type} (f : A -> result B) (f' : A -> result B')
      (Rel : B -> B' -> Prop) (l : list A) :
  (forall x, match f x with
             | Ok y => exists y', f' x = Ok y' /\ Rel y y'
             | Raise e => f' x = Raise e
             end) ->
  match mapM f l with
  | Ok k => exists k', mapM f' l = Ok k' /\ Forall2 Rel k k'
  | Raise e => mapM f' l = Raise e
  end.
Proof.
  intros H. induction l as [|x l IH]; simpl.
  - exists []. split; [reflexivity | constructor].
  - specialize (H x). destruct (f x) as [y|e]; simpl.
    + destruct H as (y' & -> & Hy). simpl.
      destruct (mapM f l) as [k|e]; simpl.
      * destruct IH as (k' & -> & Hk). simpl.
        exists (y' :: k'). split; [reflexivity | now constructor].
      * rewrite IH. reflexivity.
    + rewrite H. reflexivity.
Qed.

Lemma topology_metrics_nan_to_zero (cc dn ap di : Analysis.metric) (k : string) :
  (<["clustering_coefficient" := Analysis.nan_to_zero cc]>
   (<["density" := Analysis.nan_to_zero dn]>
   (<["average_path_length" := Analysis.nan_to_zero ap]>
   (<["diameter" := Analysis.nan_to_zero di]> (∅ : gmap string R))))) !! k
  = Analysis.nan_to_zero <$>
    (<["clustering_coefficient" := cc]>
     (<["density" := dn]>
     (<["average_path_length" := ap]>
     (<["diameter" := di]> (∅ : gmap string Analysis.metric))))) !! k.
Proof.
  rewrite !lookup_insert. repeat case_decide; reflexivity.
Qed.

(** X19.  The records of [analysis.py] extend those of [network.py]: run on
    the same graph with the same communities, the two cluster loops raise
    the same exception or return lists of equal length in which the records
    at the same position have the same id, members, centroid and radius;
    each topology metric of the record of [analysis.py] is that of the
    record of [network.py] with [nan] replaced by 0. *)
Theorem analysis_records_extend_network :
  match Network.cluster_data haversine_distance community_multilevel subgraph
          diameter average_path_length density transitivity_undirected
          (Analysis.coordinates g) g with
  | Ok recs =>
      exists recs',
        Analysis.cluster_data haversine_distance community_multilevel subgraph
          diameter average_path_length density transitivity_undirected g
        = Ok recs' /\
        Forall2 (fun o n =>
                   cluster_id n = Network.cluster_id o /\
                   members n = Network.members o /\
                   centroid n = Network.centroid o /\
                   radius_meters n = Network.radius_meters o /\
                   forall k, topology_metrics n !! k
                             = Analysis.nan_to_zero
                                 <$> Network.topology_metrics o !! k)
                recs recs'
  | Raise e =>
      Analysis.cluster_data haversine_distance community_multilevel subgraph
        diameter average_path_length density transitivity_undirected g
      = Raise e
  end.
Proof.
  unfold Network.cluster_data, Analysis.cluster_data.
  apply mapM_related. intros [i cluster].
  unfold Network.cluster_info_of, Analysis.cluster_info_of.
  assert (H : match Network.calculate_cluster_metrics haversine_distance
                       (Analysis.coordinates g) cluster with
              | Ok (centroid, max_distance) =>
                  exists fc,
                    Analysis.calculate_cluster_metrics haversine_distance g
                      cluster
                    = Ok (centroid, max_distance, fc)
              | Raise e =>
                  Analysis.calculate_cluster_metrics haversine_distance g
                    cluster
                  = Raise e
              end).
  { exact (one_more_step
               (mapM (Py.getitem (Analysis.coordinates g)) cluster)
               (fun cs => (Analysis.np_mean (map fst cs),
                           Analysis.np_mean (map snd cs)))
               (fun cs => Py.max (map (haversine_distance
                                         (Analysis.np_mean (map fst cs),
                                          Analysis.np_mean (map snd cs))) cs))
               (Analysis.count_features g cluster)
               (count_features_after_coordinates cluster)). }
  destruct (Network.calculate_cluster_metrics haversine_distance
              (Analysis.coordinates g) cluster) as [[c r]|e];
    cbn [mbind result_bind].
  - destruct H as (fc & ->). cbn [mbind result_bind].
    eexists. split; [reflexivity|].
    cbn [cluster_id members centroid radius_meters topology_metrics
         Network.cluster_id Network.members Network.centroid
         Network.radius_meters Network.topology_metrics].
    repeat split. apply topology_metrics_nan_to_zero.
  - rewrite H. reflexivity.
Qed.
End NetworkAndAnalysis.

Section NetworkScript.
Import Igraph.
#[local] Open Scope R_scope.

Variable haversine_distance : coord -> coord -> R.
Variable qhull : list coord -> list NetworkGen.simplex.
Variable mds_fit_transform : Network.matrix -> result (list coord).
Variable G : Type.
Variable make_graph : nat -> list string -> list (nat * nat) -> G.
Variable community_multilevel : G -> Analysis.VertexClustering.
Variable subgraph : G -> list nat -> G.
Variables diameter average_path_length density transitivity_undirected
  : G -> Analysis.metric.

Lemma built_vertices_feature_types (coordinates : list coord)
      (feature_types : list string) :
  length coordinates = length feature_types ->
  map feature_type
      (zip_with (fun (c : coord) f => Vertex c.1 c.2 f)
                coordinates feature_types)
  = feature_types.
Proof.
  revert feature_types.
  induction coordinates as [|c cs IH]; intros [|f fs] Hlen;
    try discriminate; [reflexivity|].
  cbn [zip_with map feature_type]. f_equal. apply IH.
  injection Hlen as Hlen. exact Hlen.
Qed.

(** X20.  [network.py] up to the community detection does what
    [network_gen.py] does: the distance matrix is filled without an
    exception, so whenever the builder raises (no triangulation)
    [network.py] raises the same exception; and when the builder saves a
    graph, [network.py] passes igraph a graph with as many vertices, the
    same feature types and the same edge list, and continues with the
    layout and the cluster loop on the ingested coordinates. *)
Theorem network_script_builds_the_same_graph (data : NetworkGen.facilities) :
  exists dist_matrix,
    Network.dist_matrix haversine_distance (NetworkGen.ingest data).1
    = Ok dist_matrix /\
    (forall e, NetworkGen.main qhull data = Raise e ->
       Network.main haversine_distance qhull mds_fit_transform make_graph
         community_multilevel subgraph diameter average_path_length density
         transitivity_undirected data
       = Raise e) /\
    (forall g, NetworkGen.main qhull data = Ok g ->
       Network.main haversine_distance qhull mds_fit_transform make_graph
         community_multilevel subgraph diameter average_path_length density
         transitivity_undirected data
       = (layout_2d ← mds_fit_transform dist_matrix;
          Network.cluster_data haversine_distance community_multilevel
            subgraph diameter average_path_length density
            transitivity_undirected (NetworkGen.ingest data).1
            (make_graph (vcount g) (map feature_type (vs g)) (es g)))).
Proof.
  destruct (dist_matrix_filled haversine_distance (NetworkGen.ingest data).1)
    as (a & Ea & _).
  exists a. split; [exact Ea|].
  unfold Network.main, NetworkGen.main, NetworkGen.main_with,
    NetworkGen.build_with.
  pose proof (ingest_lengths data) as Hlen.
  destruct (NetworkGen.ingest data) as [coordinates feature_types].
  cbn [fst snd] in *. rewrite Ea. cbn [mbind result_bind].
  destruct (NetworkGen.Delaunay qhull coordinates) as [simplices|e'];
    cbn [mbind result_bind].
  - split; [discriminate|]. intros g [= <-].
    set (vertices := zip_with (fun (c : coord) f => Vertex c.1 c.2 f)
                              coordinates feature_types).
    set (edges := elements (NetworkGen.extract_edges simplices)).
    assert (Hv : length vertices = length coordinates).
    { unfold vertices. rewrite length_zip_with. lia. }
    assert (E : make_graph (length coordinates) feature_types edges
                = make_graph (length vertices) (map feature_type vertices)
                             edges).
    { rewrite Hv. unfold vertices.
      now rewrite (built_vertices_feature_types _ _ Hlen). }
    exact (f_equal
             (fun gr =>
                layout_2d ← mds_fit_transform a;
                Network.cluster_data haversine_distance community_multilevel
                  subgraph diameter average_path_length density
                  transitivity_undirected coordinates gr) E).
  - split; [|discriminate]. intros e [= ->]. reflexivity.
Qed.
End NetworkScript.

(** ** From [network_gen.py] to [analysis.py] *)

Section BuilderToAnalysis.
Import Igraph.
#[local] Open Scope R_scope.

Variable qhull : list coord -> list NetworkGen.simplex.
Variable haversine_distance : coord -> coord -> R.

Lemma all_records_keys (data : NetworkGen.facilities) (c : coord)
      (feature : string) :
  (c, feature) ∈ NetworkGen.all_records data ->
  exists elements, (feature, elements) ∈ data /\ elements <> [].
Proof.
  unfold NetworkGen.all_records. intros H.
  apply list_elem_of_In, in_flat_map in H as ([f els] & Hin & H).
  apply in_map_iff in H as (item & [= _ ->] & Hitem).
  exists els. split; [now apply list_elem_of_In|].
  intros ->. inversion Hitem.
Qed.

Lemma keys_all_records (data : NetworkGen.facilities) (feature : string)
      (elements : list NetworkGen.element) :
  (feature, elements) ∈ data -> elements <> [] ->
  exists i c, NetworkGen.all_records data !! i = Some (c, feature).
Proof.
  intros Hin Hne. destruct elements as [|item l]; [contradiction|].
  assert (H : ((NetworkGen.lat item, NetworkGen.lon item), feature)
              ∈ NetworkGen.all_records data).
  { unfold NetworkGen.all_records. apply list_elem_of_In, in_flat_map.
    exists (feature, item :: l). split; [now apply list_elem_of_In|].
    left. reflexivity. }
  apply list_elem_of_lookup in H as [i Hi]. eauto.
Qed.

Lemma filter_all {A : Type} (P : A -> Prop) `{!forall x, Decision (P x)}
      (l : list A) :
  Forall P l -> filter P l = l.
Proof.
  induction 1 as [|x l Hx _ IH]; [reflexivity|].
  rewrite filter_cons, decide_True by exact Hx. now f_equal.
Qed.

(** X21.  When every key of the facilities file is one of the twelve
    categories, every vertex of the saved graph is counted by
    [analysis.py]: the feature counts of a cluster add up to its number of
    members.  A key outside the twelve that lists an element leaves a
    vertex that no cluster counts. *)
Theorem pipeline_counts_every_member
    (data : NetworkGen.facilities) (g : Graph) :
  NetworkGen.main qhull data = Ok g ->
  ((forall feature elements,
      (feature, elements) ∈ data -> feature ∈ Analysis.feature_types) ->
   forall cluster centroid max_distance fc,
     Analysis.calculate_cluster_metrics haversine_distance g cluster
     = Ok (centroid, max_distance, fc) ->
     Py.sum_values fc = length cluster) /\
  (forall feature elements,
     (feature, elements) ∈ data -> elements <> [] ->
     feature ∉ Analysis.feature_types ->
     exists i, (i < vcount g)%nat /\ ~ Analysis.known_feature g i /\
       exists centroid max_distance fc,
         Analysis.calculate_cluster_metrics haversine_distance g [i]
         = Ok (centroid, max_distance, fc) /\
         Py.sum_values fc = 0%nat).
Proof.
  intros (_ & Hvs & _)%main_ok. split.
  - intros Hkeys cluster centroid max_distance fc H.
    pose proof (calculate_cluster_metrics_parts _ _ _ _ _ _ H)
      as (cs & Hcs & _ & _).
    apply calculate_cluster_metrics_counts, count_features_spec in H as [_ ->].
    f_equal. apply filter_all. apply Forall_forall. intros i Hi.
    pose proof (cluster_coords_values _ _ _ Hcs) as Hvals.
    apply list_elem_of_lookup in Hi as [k Hk].
    destruct (Forall2_lookup_l _ _ _ _ _ Hvals Hk) as (c & _ & v & Hv & _).
    destruct v as [la lo f]. exists (Vertex la lo f). split; [exact Hv|].
    rewrite Hvs in Hv. apply lookup_vertex in Hv. cbn [feature_type].
    apply list_elem_of_lookup_2, all_records_keys in Hv as (els & Hin & _).
    eauto.
  - intros feature elements Hin Hne Hunknown.
    destruct (keys_all_records _ _ _ Hin Hne) as (i & [la lo] & Hi).
    assert (Hv : vs g !! i = Some (Vertex la lo feature)).
    { rewrite Hvs. now apply lookup_vertex. }
    assert (Hn : ~ Analysis.known_feature g i).
    { intros (v & Hv' & Hk). rewrite Hv in Hv'. injection Hv' as <-.
      contradiction. }
    exists i. split; [now apply lookup_lt_Some in Hv|]. split; [exact Hn|].
    destruct (calculate_cluster_metrics_ok haversine_distance g [i])
      as (ct & r & fc & E).
    { discriminate. }
    { repeat constructor. now apply lookup_lt_Some in Hv. }
    exists ct, r, fc. split; [exact E|].
    apply calculate_cluster_metrics_counts, count_features_spec in E as [_ ->].
    rewrite filter_cons, decide_False by exact Hn. reflexivity.
Qed.
End BuilderToAnalysis.

(** ** From [analysis.py] to [clean_cluster_data.py]: the metrics *)

Section MetricsFlow.
Import Igraph.
#[local] Open Scope R_scope.

Variable haversine_distance : coord -> coord -> R.
Variable subgraph : Graph -> list nat -> Graph.
Variables diameter average_path_length density transitivity_undirected
  : Graph -> Analysis.metric.
Variable g : Graph.

Lemma cluster_info_of_metrics (i : nat) (cluster : list nat)
      (rec : cluster_info) :
  Analysis.cluster_info_of haversine_distance subgraph diameter
    average_path_length density transitivity_undirected g (i, cluster)
  = Ok rec ->
  topology_metrics rec !! "diameter"
  = Some (Analysis.nan_to_zero (diameter (subgraph g cluster))) /\
  topology_metrics rec !! "average_path_length"
  = Some (Analysis.nan_to_zero (average_path_length (subgraph g cluster))) /\
  topology_metrics rec !! "density"
  = Some (Analysis.nan_to_zero (density (subgraph g cluster))) /\
  topology_metrics rec !! "clustering_coefficient"
  = Some (Analysis.nan_to_zero (transitivity_undirected (subgraph g cluster))).
Proof.
  unfold Analysis.cluster_info_of. intros H.
  apply bind_ok in H as ([[c r] fc] & _ & H).
  injection H as <-. cbn [topology_metrics]. repeat split.
Qed.

Lemma clean_cluster_metrics
      (haversine_distance' : coord -> coord -> R)
      (subgraph' : Graph -> list nat -> Graph) (degree : Graph -> list nat)
      (transitivity : Graph -> R) (g' : Graph) (d : cluster_info)
      (c : CleanClusterData.cluster) :
  CleanClusterData.clean_cluster haversine_distance' subgraph' degree
    transitivity g' d = Ok c ->
  forall k,
    k = "diameter" \/ k = "average_path_length" \/ k = "density" \/
    k = "clustering_coefficient" ->
    CleanClusterData.core_values c !! k
    = Some (Py.round (default 0 (topology_metrics d !! k))
                     (if decide (k = "diameter" \/ k = "average_path_length")
                      then 2 else 4)).
Proof.
  intros H k Hk. unfold CleanClusterData.clean_cluster in H. cbv zeta in H.
  repeat (apply bind_ok in H as (? & _ & H)).
  injection H as <-. cbn [CleanClusterData.core_values].
  rewrite core_values_overwritten.
  destruct Hk as [-> | [-> | [-> | ->]]]; reflexivity.
Qed.

(** X22.  The topology metrics from igraph to the cleaned record.  For a
    record built by [analysis.py] and cleaned by [clean_cluster_data.py],
    the four topology entries of [core_values] are igraph's metrics of the
    community's subgraph, with [nan] replaced by 0 and then rounded (diameter
    and average path length to two digits, density and clustering
    coefficient to four); the default of [dict.get] is never used, and a
    metric that is [nan] ends as 0. *)
Theorem metrics_from_igraph_to_core_values
    (haversine_distance' : coord -> coord -> R)
    (subgraph' : Graph -> list nat -> Graph) (degree : Graph -> list nat)
    (transitivity : Graph -> R) (g' : Graph)
    (i : nat) (cluster : list nat) (rec : cluster_info)
    (c : CleanClusterData.cluster) :
  Analysis.cluster_info_of haversine_distance subgraph diameter
    average_path_length density transitivity_undirected g (i, cluster)
  = Ok rec ->
  CleanClusterData.clean_cluster haversine_distance' subgraph' degree
    transitivity g' rec = Ok c ->
  CleanClusterData.core_values c !! "diameter"
  = Some (Py.round (Analysis.nan_to_zero (diameter (subgraph g cluster))) 2) /\
  CleanClusterData.core_values c !! "average_path_length"
  = Some (Py.round
            (Analysis.nan_to_zero (average_path_length (subgraph g cluster))) 2) /\
  CleanClusterData.core_values c !! "density"
  = Some (Py.round (Analysis.nan_to_zero (density (subgraph g cluster))) 4) /\
  CleanClusterData.core_values c !! "clustering_coefficient"
  = Some (Py.round
            (Analysis.nan_to_zero
               (transitivity_undirected (subgraph g cluster))) 4) /\
  (diameter (subgraph g cluster) = None ->
   CleanClusterData.core_values c !! "diameter" = Some 0) /\
  (transitivity_undirected (subgraph g cluster) = None ->
   CleanClusterData.core_values c !! "clustering_coefficient" = Some 0).
Proof.
  intros (Hdi & Hap & Hdn & Hcc)%cluster_info_of_metrics Hclean.
  pose proof (clean_cluster_metrics _ _ _ _ _ _ _ Hclean) as Hcore.
  assert (H0 : forall n, Py.round 0 n = 0).
  { intros n. exact (round_IZR 0 n). }
  rewrite (Hcore "diameter"), (Hcore "average_path_length"),
    (Hcore "density"), (Hcore "clustering_coefficient") by tauto.
  rewrite Hdi, Hap, Hdn, Hcc. cbn [default].
  repeat split.
  - intros ->. cbn [Analysis.nan_to_zero]. now rewrite H0.
  - intros ->. cbn [Analysis.nan_to_zero]. now rewrite H0.
Qed.
End MetricsFlow.

(** ** The properties above at concrete inputs *)

Section ExtraWitnesses.
Import Igraph Examples MoreExamples.
#[local] Open Scope R_scope.

Lemma taxicab_same_point (p : coord) : taxicab p p = 0.
Proof.
  unfold taxicab. rewrite !Rminus_diag, Rabs_R0. lra.
Qed.



Lemma large_entry_cleaned :
  exists c,
    CleanClusterData.clean_cluster taxicab whole_graph no_degree
      zero_transitivity g_three large_entry = Ok c.
Proof.
  apply clean_cluster_ok; [exact taxicab_nonneg|].
  repeat constructor.
Qed.

Lemma cleaned_record_fields_witness :
  exists c,
    CleanClusterData.clean_cluster taxicab whole_graph no_degree
      zero_transitivity g_three large_entry = Ok c /\
    CleanClusterData.id c = 2%nat /\
    10 <= CleanClusterData.radius c.
Proof.
  destruct large_entry_cleaned as (c & E).
  exists c. split; [exact E|].
  destruct (cleaned_record_fields taxicab whole_graph no_degree g_three
              zero_transitivity large_entry c E) as (Hid & _ & _ & H10 & _).
  split; [exact Hid|]. apply H10. cbn. lra.
Defined.

Lemma two_entries_written :
  exists c,
    CleanClusterData.main taxicab whole_graph no_degree zero_transitivity
      g_three [small_entry; large_entry] = Ok [c].
Proof.
  destruct (main_returns taxicab whole_graph no_degree zero_transitivity
              g_three [small_entry; large_entry]) as (out & E).
  - exact taxicab_nonneg.
  - intros d Hd Hr.
    assert (Hin : d ∈ filter (fun d => 10 < radius_meters d)
                             [small_entry; large_entry]).
    { apply list_elem_of_filter. easy. }
    rewrite two_entries_filtered in Hin.
    apply list_elem_of_singleton in Hin as ->. repeat constructor.
  - exists large_entry. split; [right; left | cbn; lra].
  - pose proof E as E'. unfold CleanClusterData.main in E'.
    apply bind_ok in E' as (cleaned_data & Hfirst & Hnorm).
    apply first_pass_survivors in Hfirst.
    rewrite two_entries_filtered in Hfirst.
    apply Forall2_length in Hfirst. apply normalize_ids in Hnorm.
    apply (f_equal length) in Hnorm. rewrite !length_map in Hnorm.
    destruct out as [|c [|c' out]]; cbn in *; try lia.
    exists c. exact E.
Qed.

Lemma written_records_witness :
  exists c,
    CleanClusterData.main taxicab whole_graph no_degree zero_transitivity
      g_three [small_entry; large_entry] = Ok [c] /\
    10 <= CleanClusterData.radius c /\
    -1 <= CleanClusterData.accessibility_score c <= 1.
Proof.
  destruct two_entries_written as (c & E).
  exists c. split; [exact E|].
  destruct (written_records taxicab whole_graph no_degree zero_transitivity
              g_three [small_entry; large_entry] [c] c E)
    as (d & c0 & _ & _ & _ & _ & _ & H10 & _ & Hscore).
  - left.
  - split; [exact H10 | exact Hscore].
Defined.

Lemma first_community_metrics :
  exists centroid max_distance fc,
    Analysis.calculate_cluster_metrics taxicab g_three [0; 1]%nat
    = Ok (centroid, max_distance, fc).
Proof.
  apply calculate_cluster_metrics_ok; [discriminate | repeat constructor].
Qed.

Lemma centroid_and_radius_witness :
  exists centroid max_distance fc,
    Analysis.calculate_cluster_metrics taxicab g_three [0; 1]%nat
    = Ok (centroid, max_distance, fc) /\
    0 <= centroid.1 <= 0 /\ 0 <= centroid.2 <= 1.
Proof.
  destruct first_community_metrics as (c & r & fc & E).
  exists c, r, fc. split; [exact E|].
  destruct (centroid_and_radius taxicab g_three [0; 1]%nat c r fc E)
    as (Hlat & Hlon & _).
  split.
  - apply Hlat. intros i v Hi Hv.
    apply elem_of_cons in Hi as [-> | Hi].
    + injection Hv as <-. cbn. lra.
    + apply list_elem_of_singleton in Hi as ->.
      injection Hv as <-. cbn. lra.
  - apply Hlon. intros i v Hi Hv.
    apply elem_of_cons in Hi as [-> | Hi].
    + injection Hv as <-. cbn. lra.
    + apply list_elem_of_singleton in Hi as ->.
      injection Hv as <-. cbn. lra.
Defined.

Lemma colocated_community_is_dropped_witness :
  exists rec,
    Analysis.cluster_info_of taxicab whole_graph no_metric no_metric no_metric
      no_metric g_three (1%nat, [2%nat]) = Ok rec /\
    centroid rec = (5, 5) /\ radius_meters rec = 0.
Proof.
  destruct (colocated_community_is_dropped taxicab whole_graph no_metric
              no_metric no_metric no_metric g_three 1 [2%nat] (5, 5))
    as (rec & E & Hc & Hr & _).
  - discriminate.
  - intros k Hk. apply list_elem_of_singleton in Hk as ->.
    eexists. split; reflexivity.
  - apply taxicab_same_point.
  - exists rec. split; [exact E|]. split; [exact Hc | exact Hr].
Defined.

Lemma analysis_records_can_be_cleaned_witness :
  exists recs,
    Analysis.cluster_data taxicab two_communities whole_graph no_metric
      no_metric no_metric no_metric g_three = Ok recs /\
    exists cleaned_data,
      CleanClusterData.first_pass taxicab whole_graph no_degree
        zero_transitivity g_three recs = Ok cleaned_data.
Proof.
  destruct (cluster_data_ok taxicab two_communities whole_graph
              no_metric no_metric no_metric no_metric g_three)
    as [recs E]; [reflexivity | exact two_communities_dense |].
  exists recs. split; [exact E|].
  exact (proj1 (proj2
    (analysis_records_can_be_cleaned taxicab two_communities whole_graph
       no_metric no_metric no_metric no_metric g_three no_degree
       zero_transitivity recs eq_refl taxicab_nonneg E))).
Defined.

Lemma triangle_not_flat : NetworkGen.flat [(0, 0); (1, 0); (0, 1)] = false.
Proof.
  apply not_true_is_false. intros H. rewrite flat_true_iff in H.
  specialize (H (0, 0) (1, 0) (0, 1)).
  unfold NetworkGen.cross in H. cbn [fst snd] in H.
  assert (E : (1 - 0) * (1 - 0) - (0 - 0) * (0 - 0) = 0).
  { apply H; repeat constructor. }
  lra.
Qed.

Lemma triangle_graph :
  exists es,
    NetworkGen.main qhull_triangle data_triangle
    = Ok {| vs := [Vertex 0 0 "ramps"; Vertex 1 0 "ramps"; Vertex 0 1 "ramps"];
            es := es |}.
Proof.
  unfold NetworkGen.main, NetworkGen.main_with.
  change (NetworkGen.ingest data_triangle)
    with ([(0, 0); (1, 0); (0, 1)] : list coord, ["ramps"; "ramps"; "ramps"]).
  unfold NetworkGen.build_with, NetworkGen.Delaunay.
  rewrite triangle_not_flat.
  cbn [length Nat.ltb Nat.leb orb mbind result_bind].
  eexists. reflexivity.
Qed.

Lemma pipeline_counts_every_member_witness :
  exists g,
    NetworkGen.main qhull_triangle data_triangle = Ok g /\
    forall cluster centroid max_distance fc,
      Analysis.calculate_cluster_metrics taxicab g cluster
      = Ok (centroid, max_distance, fc) ->
      Py.sum_values fc = length cluster.
Proof.
  destruct triangle_graph as (es & E).
  eexists. split; [exact E|].
  apply (proj1 (pipeline_counts_every_member qhull_triangle taxicab
                  data_triangle _ E)).
  intros feature elements H. apply list_elem_of_singleton in H.
  injection H as -> _. unfold Analysis.feature_types. repeat constructor.
Defined.

Lemma first_community_record :
  exists rec,
    Analysis.cluster_info_of taxicab whole_graph no_metric no_metric no_metric
      no_metric g_three (0%nat, [0; 1]%nat) = Ok rec.
Proof.
  apply cluster_info_of_ok; [discriminate | repeat constructor].
Qed.

Lemma metrics_from_igraph_to_core_values_witness :
  exists rec c,
    Analysis.cluster_info_of taxicab whole_graph no_metric no_metric no_metric
      no_metric g_three (0%nat, [0; 1]%nat) = Ok rec /\
    CleanClusterData.clean_cluster taxicab whole_graph no_degree
      zero_transitivity g_three rec = Ok c /\
    CleanClusterData.core_values c !! "diameter" = Some 0.
Proof.
  destruct first_community_record as (rec & E).
  destruct (clean_cluster_ok taxicab whole_graph no_degree zero_transitivity
              g_three rec taxicab_nonneg) as (c & Ec).
  { apply cluster_info_of_fields in E as [_ ->]. repeat constructor. }
  exists rec, c. split; [exact E|]. split; [exact Ec|].
  destruct (metrics_from_igraph_to_core_values taxicab whole_graph no_metric
              no_metric no_metric no_metric g_three taxicab whole_graph
              no_degree zero_transitivity g_three 0 [0; 1]%nat rec c E Ec)
    as (_ & _ & _ & _ & Hnan & _).
  apply Hnan. reflexivity.
Defined.
End ExtraWitnesses.

(** ** From [analysis.py] to [clean_cluster_data.py]: the two radii *)

Section TwoRadii.
Import Igraph.
#[local] Open Scope R_scope.

Variable haversine_distance : coord -> coord -> R.
Variable g : Graph.

Lemma mapM_ext_result {A B : Type} (f f' : A -> result B) (l : list A) :
  (forall x, f x = f' x) -> mapM f l = mapM f' l.
Proof.
  intros H. induction l as [|x l IH]; [reflexivity|].
  cbn [mapM]. now rewrite H, IH.
Qed.

(** Both scripts read the same coordinates for a list of vertex indices. *)
Lemma read_member_coordinates_eq (member_ids : list nat) :
  CleanClusterData.read_member_coordinates g member_ids
  = mapM (Py.getitem (Analysis.coordinates g)) member_ids.
Proof.
  unfold CleanClusterData.read_member_coordinates.
  apply mapM_ext_result. intros i.
  unfold Py.getitem, Analysis.coordinates. rewrite list_lookup_fmap.
  destruct (vs g !! i); reflexivity.
Qed.

Lemma clean_cluster_radius
      (subgraph : Graph -> list nat -> Graph) (degree : Graph -> list nat)
      (transitivity : Graph -> R) (d : cluster_info)
      (c : CleanClusterData.cluster) :
  CleanClusterData.clean_cluster haversine_distance subgraph degree
    transitivity g d = Ok c ->
  exists cs r,
    CleanClusterData.read_member_coordinates g (members d) = Ok cs /\
    CleanClusterData.calculate_radius haversine_distance
      (Py.round (centroid d).1 6, Py.round (centroid d).2 6) cs = Ok r /\
    CleanClusterData.core_values c !! "radius" = Some (Py.round r 2).
Proof.
  intros H. unfold CleanClusterData.clean_cluster in H. cbv zeta in H.
  apply bind_ok in H as (cs & Hcs & H).
  apply bind_ok in H as (p & _ & H).
  apply bind_ok in H as (dv & _ & H).
  apply bind_ok in H as (a & _ & H).
  apply bind_ok in H as (r & Hr & H).
  injection H as <-. exists cs, r. split; [exact Hcs|]. split; [exact Hr|].
  cbn [CleanClusterData.core_values]. rewrite core_values_overwritten.
  reflexivity.
Qed.

(** Moving the centre by [e] moves the largest distance by at most [e]. *)
Lemma max_distance_moves (c1 c2 : coord) (cs : list coord) (m1 m2 : R) :
  (forall a b c, haversine_distance a c
                 <= haversine_distance a b + haversine_distance b c) ->
  (forall a b, haversine_distance a b = haversine_distance b a) ->
  Py.max (map (haversine_distance c1) cs) = Ok m1 ->
  Py.max (map (haversine_distance c2) cs) = Ok m2 ->
  Rabs (m2 - m1) <= haversine_distance c1 c2.
Proof.
  intros Htri Hsym H1 H2.
  assert (Hne : cs <> []) by (intros ->; discriminate).
  destruct (max_ok (map (haversine_distance c1) cs)) as (m1' & E1 & Hin1 & Hle1).
  { destruct cs; [contradiction | discriminate]. }
  destruct (max_ok (map (haversine_distance c2) cs)) as (m2' & E2 & Hin2 & Hle2).
  { destruct cs; [contradiction | discriminate]. }
  rewrite E1 in H1. injection H1 as ->. rewrite E2 in H2. injection H2 as ->.
  apply list_elem_of_fmap in Hin1 as (x & -> & Hx).
  apply list_elem_of_fmap in Hin2 as (y & -> & Hy).
  assert (Hx2 : haversine_distance c2 x <= haversine_distance c2 y).
  { apply Hle2. apply list_elem_of_fmap. eauto. }
  assert (Hy1 : haversine_distance c1 y <= haversine_distance c1 x).
  { apply Hle1. apply list_elem_of_fmap. eauto. }
  pose proof (Htri c1 c2 x). pose proof (Htri c2 c1 y).
  pose proof (Hsym c2 c1).
  apply Rabs_le. lra.
Qed.

(** X23.  The two radii of a cleaned record.  For a record built by
    [analysis.py] and cleaned against the same graph, with a distance that
    is symmetric and obeys the triangle inequality: the top-level [radius]
    is the entry's radius in meters, rounded; the "radius" among the core
    values is in kilometers and is measured from the rounded centre, so
    before its own rounding it differs from a thousandth of the entry's
    radius by at most the distance between the centroid and the rounded
    centre. *)
Theorem core_radius_is_in_kilometers
    (subgraph : Graph -> list nat -> Graph)
    (diameter average_path_length density transitivity_undirected
       : Graph -> Analysis.metric)
    (subgraph' : Graph -> list nat -> Graph) (degree : Graph -> list nat)
    (transitivity : Graph -> R)
    (i : nat) (cluster : list nat) (rec : cluster_info)
    (c : CleanClusterData.cluster) :
  (forall a b c, haversine_distance a c
                 <= haversine_distance a b + haversine_distance b c) ->
  (forall a b, haversine_distance a b = haversine_distance b a) ->
  Analysis.cluster_info_of haversine_distance subgraph diameter
    average_path_length density transitivity_undirected g (i, cluster)
  = Ok rec ->
  CleanClusterData.clean_cluster haversine_distance subgraph' degree
    transitivity g rec = Ok c ->
  CleanClusterData.radius c = Py.round (radius_meters rec) 2 /\
  exists r,
    CleanClusterData.core_values c !! "radius" = Some (Py.round r 2) /\
    Rabs (r - radius_meters rec / 1000)
    <= haversine_distance
         (centroid rec)
         (Py.round (centroid rec).1 6, Py.round (centroid rec).2 6).
Proof.
  intros Htri Hsym Hrec Hclean.
  split; [apply (clean_cluster_kept _ _ _ _ _ _ _ Hclean)|].
  apply clean_cluster_radius in Hclean as (cs & r & Hcs & Hr & Hcore).
  exists r. split; [exact Hcore|].
  apply cluster_info_of_parts in Hrec as (m & Hm & Hrad & _ & Hmem).
  apply calculate_cluster_metrics_parts in Hm as (cs' & Hcs' & _ & Hmax).
  rewrite Hmem, read_member_coordinates_eq in Hcs.
  assert (Ecs : @Ok (list coord) cs' = Ok cs)
    by exact (eq_trans (eq_sym Hcs') Hcs).
  injection Ecs as ->.
  assert (Hne : cs <> []) by (intros ->; discriminate).
  unfold CleanClusterData.calculate_radius in Hr.
  destruct cs as [|c0 cs0]; [contradiction|].
  replace (radius_meters rec / 1000) with m by (rewrite Hrad; field).
  exact (max_distance_moves _ _ _ _ _ Htri Hsym Hmax Hr).
Qed.
End TwoRadii.

Section TwoRadiiExample.
Import Igraph Examples.
#[local] Open Scope R_scope.

Lemma taxicab_symmetric (a b : coord) : taxicab a b = taxicab b a.
Proof. unfold taxicab. now rewrite (Rabs_minus_sym a.1), (Rabs_minus_sym a.2). Qed.

Lemma taxicab_triangle (a b c : coord) :
  taxicab a c <= taxicab a b + taxicab b c.
Proof.
  unfold taxicab.
  replace (a.1 - c.1) with ((a.1 - b.1) + (b.1 - c.1)) by lra.
  replace (a.2 - c.2) with ((a.2 - b.2) + (b.2 - c.2)) by lra.
  pose proof (Rabs_triang (a.1 - b.1) (b.1 - c.1)).
  pose proof (Rabs_triang (a.2 - b.2) (b.2 - c.2)). lra.
Qed.

Lemma core_radius_is_in_kilometers_witness :
  exists rec c,
    Analysis.cluster_info_of taxicab whole_graph no_metric no_metric no_metric
      no_metric g_three (0%nat, [0; 1]%nat) = Ok rec /\
    CleanClusterData.clean_cluster taxicab whole_graph no_degree
      zero_transitivity g_three rec = Ok c /\
    CleanClusterData.radius c = Py.round (radius_meters rec) 2.
Proof.
  destruct first_community_record as (rec & E).
  destruct (clean_cluster_ok taxicab whole_graph no_degree zero_transitivity
              g_three rec taxicab_nonneg) as (c & Ec).
  { apply cluster_info_of_fields in E as [_ ->]. repeat constructor. }
  exists rec, c. split; [exact E|]. split; [exact Ec|].
  exact (proj1 (core_radius_is_in_kilometers taxicab g_three whole_graph
                  no_metric no_metric no_metric no_metric whole_graph
                  no_degree zero_transitivity 0 [0; 1]%nat rec c
                  (fun a b c => taxicab_triangle a b c) taxicab_symmetric
                  E Ec)).
Defined.
End TwoRadiiExample.
